(** * Sustainability regulation tracker: store, aggregator, renderers, notifier

    A shallow embedding of the Python sources

      - [sustainability_agent.py]            (basic pipeline, 5-column store)
      - [sustainability_agent_enhanced.py]   (enhanced pipeline, 12-column store)
      - [generate_email_content.py]          (plain-text / HTML digests)
      - [generate_email_content_enhanced.py] (professional digests)

    together with the properties of the deduplicating store, the feed
    aggregator, the renderers and the notifier.

    Conventions.  A Python [str] is a Rocq [string] holding its UTF-8 bytes;
    a value that may be [None] (an SQL [NULL] once bound) is an
    [option string].  The SQLite table [updates] is the list of its rows in
    rowid order; exceptions are values of a sum type. *)

From Stdlib Require Import ZArith Ascii String.
From stdpp Require Import base option list strings pretty gmap sorting.

Local Open Scope Z_scope.

(** ** Data model *)

(** A Python value used where the code expects a [str]: either a string or
    [None].  Type hints are not enforced at run time, so a producer can hand
    over an [UpdateItem] whose field is [None]. *)
Definition pystr : Type := option string.

(** The dataclass [UpdateItem]; it is the same in both agent modules. *)
Record UpdateItem : Type := mkUpdateItem {
  source : pystr;
  title : pystr;
  link : pystr;
  date : pystr;
  summary : pystr;
  first_published : pystr;
  last_updated : pystr;
  compliance_deadline : pystr;
  significant_changes : pystr;
  impact_level : pystr;
  affected_sectors : pystr;
  jurisdiction : pystr
}.

(** The dataclass constructor called with the five positional fields only:
    the remaining fields take their declared defaults. *)
Definition UpdateItem5 (s t l d sm : pystr) : UpdateItem :=
  mkUpdateItem s t l d sm (Some "") (Some "") (Some "") (Some "")
               (Some "Medium") (Some "") (Some "").

(** ** The store: table [updates] *)

(** The columns of [UNIQUE(source, title, link)].  SQLite compares [TEXT]
    with the [BINARY] collation: two keys are equal when their bytes are. *)
Definition Key : Type := string * string * string.

(** The seven nullable [TEXT] columns of the enhanced schema. *)
Record ExtCols : Type := mkExtCols {
  c_first_published : pystr;
  c_last_updated : pystr;
  c_compliance_deadline : pystr;
  c_significant_changes : pystr;
  c_impact_level : pystr;
  c_affected_sectors : pystr;
  c_jurisdiction : pystr
}.

(** One row of [updates].  [id INTEGER PRIMARY KEY AUTOINCREMENT], the five
    [TEXT NOT NULL] columns (a stored value is never [NULL], hence [string]),
    and the schema-specific remaining columns: [unit] for the basic schema,
    [ExtCols] for the enhanced one. *)
Record Row (E : Type) : Type := mkRow {
  r_id : Z;
  r_source : string;
  r_title : string;
  r_link : string;
  r_date : string;
  r_summary : string;
  r_ext : E
}.
Arguments mkRow {E}.
Arguments r_id {E}.
Arguments r_source {E}.
Arguments r_title {E}.
Arguments r_link {E}.
Arguments r_date {E}.
Arguments r_summary {E}.
Arguments r_ext {E}.

(** [sqlite3.IntegrityError] with SQLite's message. *)
Inductive sqlite3_error : Type :=
| IntegrityError (msg : string).

(** The database file: [None] while the table [updates] does not exist. *)
Definition Db (E : Type) : Type := option (list (Row E)).

Inductive field_name : Type :=
| f_source | f_title | f_link | f_date | f_summary.

Definition column_name (f : field_name) : string :=
  match f with
  | f_source => "source" | f_title => "title" | f_link => "link"
  | f_date => "date" | f_summary => "summary"
  end.

Definition required_field (f : field_name) (item : UpdateItem) : pystr :=
  match f with
  | f_source => source item | f_title => title item | f_link => link item
  | f_date => date item | f_summary => summary item
  end.

(** The [NOT NULL] columns in table order; SQLite reports the first one that
    is bound to [NULL]. *)
Definition not_null_columns : list field_name :=
  [f_source; f_title; f_link; f_date; f_summary].

Definition first_null (item : UpdateItem) : option field_name :=
  head (filter (λ f, required_field f item = None) not_null_columns).

(** A record as the data model has it: every required field is a string. *)
Definition well_formed (item : UpdateItem) : Prop :=
  first_null item = None.

Global Instance well_formed_dec item : Decision (well_formed item).
Proof. unfold well_formed. apply _. Defined.

Definition item_key (item : UpdateItem) : option Key :=
  s ← source item; t ← title item; l ← link item; Some (s, t, l).

Section Table.
Context {E : Type}.
(** The values bound to the schema-specific columns of the [INSERT]. *)
Variable ext : UpdateItem → E.

Definition row_key (r : Row E) : Key := (r_source r, r_title r, r_link r).

Definition table_keys (conn : list (Row E)) : list Key := row_key <$> conn.

(** [UNIQUE(source, title, link)]: no two rows share the triple. *)
Definition unique_keys (conn : list (Row E)) : Prop :=
  NoDup (table_keys conn).

(** [AUTOINCREMENT]: one more than the largest rowid handed out; rows are
    never deleted, so that is the largest rowid in the table. *)
Definition next_id (conn : list (Row E)) : Z :=
  foldr Z.max 0 (r_id <$> conn) + 1.

(** [CREATE TABLE IF NOT EXISTS updates (...)] followed by returning the
    connection: an existing table is kept as it is. *)
Definition initialise_db (db : Db E) : list (Row E) :=
  match db with
  | Some conn => conn
  | None => []
  end.

(** [cur.execute("INSERT INTO updates (...) VALUES (?, ...)", (...))]
    followed by [conn.commit()].  [NOT NULL] is checked before [UNIQUE]. *)
Definition execute_insert (conn : list (Row E)) (item : UpdateItem)
  : list (Row E) + sqlite3_error :=
  match source item, title item, link item, date item, summary item with
  | Some s, Some t, Some l, Some d, Some sm =>
      if decide ((s, t, l) ∈ table_keys conn)
      then inr (IntegrityError
        "UNIQUE constraint failed: updates.source, updates.title, updates.link")
      else inl (conn ++ [mkRow (next_id conn) s t l d sm (ext item)])
  | _, _, _, _, _ =>
      inr (IntegrityError
        ("NOT NULL constraint failed: updates." +:+
         from_option column_name "" (first_null item)))
  end.

(** The [for item in items] loop of [store_updates]; the state is the
    table behind [conn] and the list [new_items]. *)
Fixpoint store_loop (conn : list (Row E)) (new_items : list UpdateItem)
    (items : list UpdateItem) : list (Row E) * list UpdateItem :=
  match items with
  | [] => (conn, new_items)
  | item :: rest =>
      match execute_insert conn item with
      | inl conn' => store_loop conn' (new_items ++ [item]) rest
      | inr (IntegrityError _) => store_loop conn new_items rest
      end
  end.

Definition store_updates (conn : list (Row E)) (items : list UpdateItem)
  : list (Row E) * list UpdateItem :=
  store_loop conn [] items.

(** A run of the store's two operations against one database file. *)
Inductive store_op : Type :=
| OpInitialise
| OpStore (items : list UpdateItem).

(** [store_updates] on a file without the table fails with
    [sqlite3.OperationalError] before anything is written. *)
Definition run_op (db : Db E) (op : store_op) : Db E :=
  match op with
  | OpInitialise => Some (initialise_db db)
  | OpStore items =>
      match db with
      | Some conn => Some (store_updates conn items).1
      | None => None
      end
  end.

Definition run_ops (db : Db E) (ops : list store_op) : Db E :=
  foldl run_op db ops.
End Table.

(** The [INSERT] of [sustainability_agent.py] binds five columns. *)
Module Basic.
Definition ext (item : UpdateItem) : unit := tt.
Definition initialise_db := @initialise_db unit.
Definition store_updates := store_updates ext.
End Basic.

(** The [INSERT] of [sustainability_agent_enhanced.py] binds twelve. *)
Module Enhanced.
Definition ext (item : UpdateItem) : ExtCols :=
  mkExtCols (first_published item) (last_updated item)
            (compliance_deadline item) (significant_changes item)
            (impact_level item) (affected_sectors item) (jurisdiction item).
Definition initialise_db := @initialise_db ExtCols.
Definition store_updates := store_updates ext.
End Enhanced.

(** What the specification says [insert_all] returns, over the set of stored
    natural keys: a record is kept when its key is not stored yet, and its
    key is stored from then on. *)
Fixpoint insert_all_spec (stored : gset Key) (records : list UpdateItem)
  : list UpdateItem :=
  match records with
  | [] => []
  | r :: rest =>
      match item_key r with
      | Some k =>
          if decide (k ∈ stored) then insert_all_spec stored rest
          else r :: insert_all_spec ({[k]} ∪ stored) rest
      | None => insert_all_spec stored rest
      end
  end.

(** [store] (one of the two [store_updates]) returns exactly the records
    whose natural key is not stored when their turn comes, in input order. *)
Definition returns_newly_inserted {E}
    (store : list (Row E) → list UpdateItem → list (Row E) * list UpdateItem)
    (conn : list (Row E)) (items : list UpdateItem) : Prop :=
  (store conn items).2 = insert_all_spec (list_to_set (table_keys conn)) items ∧
  (store conn items).2 `sublist_of` items ∧
  ∀ pre item post, items = pre ++ item :: post →
    ∃ k, item_key item = Some k ∧
      (store conn (pre ++ [item])).2 =
      (store conn pre).2 ++
      (if decide (k ∈ table_keys (store conn pre).1) then [] else [item]).

(** The same for a batch of any records: [store] returns exactly the
    records that carry all their required fields and whose natural key is
    not stored when their turn comes, in input order.  A record that lacks
    a required field is skipped as a duplicate is, also when its key is
    not stored.  On a batch of records that carry their required fields
    this is [returns_newly_inserted]. *)
Definition returns_sound_newly_inserted {E}
    (store : list (Row E) → list UpdateItem → list (Row E) * list UpdateItem)
    (conn : list (Row E)) (items : list UpdateItem) : Prop :=
  (store conn items).2 =
    insert_all_spec (list_to_set (table_keys conn))
      (filter well_formed items) ∧
  (store conn items).2 `sublist_of` items ∧
  (∀ pre item post, items = pre ++ item :: post →
     (store conn (pre ++ [item])).2 =
     (store conn pre).2 ++
     match item_key item with
     | Some k =>
         if decide (well_formed item ∧ k ∉ table_keys (store conn pre).1)
         then [item] else []
     | None => []
     end) ∧
  (Forall well_formed items → returns_newly_inserted store conn items).

(** A batch [pre ++ bad :: post] is processed as if [bad] were not in it,
    and every later well-formed record whose key is neither stored nor
    carried by an earlier well-formed record is inserted and returned. *)
Definition survives_malformed {E}
    (store : list (Row E) → list UpdateItem → list (Row E) * list UpdateItem)
    (conn : list (Row E)) (pre : list UpdateItem) (bad : UpdateItem)
    (post : list UpdateItem) : Prop :=
  store conn (pre ++ bad :: post) = store conn (pre ++ post) ∧
  ∀ post1 item post2 k,
    post = post1 ++ item :: post2 →
    well_formed item → item_key item = Some k → k ∉ table_keys conn →
    (∀ x, x ∈ pre ++ post1 → well_formed x → item_key x ≠ Some k) →
    item ∈ (store conn (pre ++ bad :: post)).2 ∧
    k ∈ table_keys (store conn (pre ++ bad :: post)).1.

(** Both records of the batch [[a; b]] are stored and returned. *)
Definition stores_both {E}
    (store : list (Row E) → list UpdateItem → list (Row E) * list UpdateItem)
    (conn : list (Row E)) (a b : UpdateItem) (ka kb : Key) : Prop :=
  (store conn [a; b]).2 = [a; b] ∧
  table_keys (store conn [a; b]).1 = table_keys conn ++ [ka; kb].

(** ** Python built-ins used by the sources

    Strings are byte strings (UTF-8).  [len] counts code points; the
    whitespace of [split], [strip] and [int], the letters of [lower] and
    the digits of [int] are the ASCII ones (Python also knows the
    non-ASCII ones of Unicode). *)
Module Py.
(** A raised exception: its class and [str(e)]. *)
Record exception : Type := Raise { exc_type : string; exc_msg : string }.

Definition nl : string := String "010"%char "".

(** [f"{x}"] of a value that may be [None]. *)
Definition fmt (x : pystr) : string := from_option id "None" x.

(** Truth value of a [str] or [None]. *)
Definition truthy (x : pystr) : bool :=
  match x with
  | Some (String _ _) => true
  | _ => false
  end.

(** [x or default] *)
Definition or_else (x : pystr) (default : string) : string :=
  match x with
  | Some (String c s) => String c s
  | _ => default
  end.

(** [sep.join(xs)] *)
Fixpoint join (sep : string) (xs : list string) : string :=
  match xs with
  | [] => ""
  | [x] => x
  | x :: rest => x +:+ sep +:+ join sep rest
  end.

(** [c * n] for a one-character string [c] *)
Fixpoint mul (c : ascii) (n : nat) : string :=
  match n with
  | O => ""
  | S n => String c (mul c n)
  end.

(** [s.replace(old, new)] where [old] is one ASCII character, as at every
    call site. *)
Fixpoint replace (old : ascii) (new s : string) : string :=
  match s with
  | "" => ""
  | String c s' =>
      if decide (c = old) then new +:+ replace old new s'
      else String c (replace old new s')
  end.

Definition isspace (c : ascii) : bool :=
  let n := N_of_ascii c in
  ((9 <=? n) && (n <=? 13) || (28 <=? n) && (n <=? 32))%N.

(** A byte that starts a code point (not of the form [10xxxxxx]). *)
Definition starts_code_point (c : ascii) : bool :=
  let n := N_of_ascii c in ((n <? 128) || (192 <=? n))%N.

Fixpoint len (s : string) : nat :=
  match s with
  | "" => O
  | String c s' => (if starts_code_point c then 1 else 0) + len s'
  end%nat.

Fixpoint lstrip (s : string) : string :=
  match s with
  | "" => ""
  | String c s' => if isspace c then lstrip s' else s
  end.

Fixpoint rstrip (s : string) : string :=
  match s with
  | "" => ""
  | String c s' =>
      match rstrip s' with
      | "" => if isspace c then "" else String c ""
      | r => String c r
      end
  end.

Definition strip (s : string) : string := rstrip (lstrip s).

(** The word being read and the words after it. *)
Fixpoint split_scan (s : string) : string * list string :=
  match s with
  | "" => ("", [])
  | String c s' =>
      let '(w, ws) := split_scan s' in
      if isspace c
      then ("", if decide (w = "") then ws else w :: ws)
      else (String c w, ws)
  end.

(** [s.split()] *)
Definition split (s : string) : list string :=
  let '(w, ws) := split_scan s in
  if decide (w = "") then ws else w :: ws.

(** [s.split(sep)] for a one-character separator. *)
Fixpoint split_on (sep : ascii) (s : string) : list string :=
  match s with
  | "" => [""]
  | String c s' =>
      if decide (c = sep) then "" :: split_on sep s'
      else match split_on sep s' with
           | x :: xs => String c x :: xs
           | [] => [String c ""]
           end
  end.

Definition lower_char (c : ascii) : ascii :=
  let n := N_of_ascii c in
  if ((65 <=? n) && (n <=? 90))%N then ascii_of_N (n + 32) else c.

Fixpoint lower (s : string) : string :=
  match s with
  | "" => ""
  | String c s' => String (lower_char c) (lower s')
  end.

(** [needle in s] *)
Fixpoint contains (needle s : string) : bool :=
  String.prefix needle s ||
  match s with
  | "" => false
  | String _ s' => contains needle s'
  end.

(** [str(n)] of a count. *)
Definition str_of_nat (n : nat) : string := pretty n.

Definition digit (c : ascii) : option Z :=
  let n := N_of_ascii c in
  if ((48 <=? n) && (n <=? 57))%N then Some (Z.of_N n - 48) else None.

(** Digits with single underscores between them, as [int] accepts them:
    [acc] is the value read so far, [after_digit] tells whether the
    previous character was a digit. *)
Fixpoint int_digits (acc : Z) (after_digit : bool) (s : string) : option Z :=
  match s with
  | "" => if after_digit then Some acc else None
  | String c s' =>
      match digit c with
      | Some d => int_digits (10 * acc + d) true s'
      | None =>
          if decide (c = "_"%char) then
            if after_digit then int_digits acc false s' else None
          else None
      end
  end.

(** [int(s)]: [None] stands for [ValueError].  Python also raises it for
    a text that [\x1c]..[\x1f] surround and for more than 4300 digits, and
    it accepts the digits of other scripts; none of these occurs in a
    port number, and the properties of [send_email] are stated in terms
    of this function. *)
Definition int (s : string) : option Z :=
  match strip s with
  | String "-" ds => Z.opp <$> int_digits 0 false ds
  | String "+" ds => int_digits 0 false ds
  | ds => int_digits 0 false ds
  end.

(** The template literals below are written with a backquote where the
    source has a double quote; [q] puts the double quotes back.  It is
    applied to literals only, never to data. *)
Definition q (template : string) : string :=
  replace "`" (String "034"%char "") template.
End Py.

(** ** Feed aggregator *)

(** A zero-argument producer: it returns its records or raises an
    [Exception] (the class [except Exception] catches; [KeyboardInterrupt]
    and [SystemExit] are not failures of a producer). *)
Definition Producer : Type := unit → list UpdateItem + Py.exception.

(** [gather_updates], with the module-level dict [SOURCES] as its argument
    (a dict keeps insertion order).  The state of the loop is the text
    printed so far and the list [collected]. *)
Fixpoint gather_loop (printed : list string) (collected : list UpdateItem)
    (sources : list (string * Producer)) : list string * list UpdateItem :=
  match sources with
  | [] => (printed, collected)
  | (name, parser) :: rest =>
      match parser () with
      | inl items => gather_loop printed (collected ++ items) rest
      | inr e =>
          gather_loop
            (printed ++ ["Error scraping " +:+ name +:+ ": " +:+ Py.exc_msg e])
            collected rest
      end
  end.

Definition gather_updates (SOURCES : list (string * Producer))
  : list string * list UpdateItem :=
  gather_loop [] [] SOURCES.

(** What one source contributes according to the specification. *)
Definition contribution (p : Producer) : list UpdateItem :=
  match p () with
  | inl items => items
  | inr _ => []
  end.

(** ** Queries *)

(** [ORDER BY]: rows are compared column by column.  SQL leaves the order
    of rows that compare equal open, and SQLite's depends on the index it
    scans (for [ORDER BY source, date DESC] the one of the [UNIQUE]
    constraint); here such rows keep their rowid order.  The properties
    below use only that the result is a sorted permutation of the rows. *)
Definition cmp_text (a b : string) : comparison := String.compare a b.

(** [NULL] sorts before every text. *)
Definition cmp_null (a b : pystr) : comparison :=
  match a, b with
  | None, None => Eq
  | None, Some _ => Lt
  | Some _, None => Gt
  | Some x, Some y => cmp_text x y
  end.

Definition desc (c : comparison) : comparison := CompOpp c.

Definition and_then (c1 c2 : comparison) : comparison :=
  match c1 with
  | Eq => c2
  | _ => c1
  end.

Fixpoint insert_row {A} (cmp : A → A → comparison) (x : A) (l : list A)
  : list A :=
  match l with
  | [] => [x]
  | y :: l' =>
      match cmp x y with
      | Gt => y :: insert_row cmp x l'
      | _ => x :: l
      end
  end.

Definition order_by {A} (cmp : A → A → comparison) (rows : list A) : list A :=
  foldr (insert_row cmp) [] rows.

(** The chain [s.replace("&", "&amp;").replace("<", "&lt;").replace(">", "&gt;")]
    that the renderers apply to the fields they escape. *)
Definition escape_html (s : string) : string :=
  Py.replace ">" "&gt;" (Py.replace "<" "&lt;" (Py.replace "&" "&amp;" s)).

(** The word-wrap loop shared by the plain-text renderers: [indent] is the
    initial [line_buffer], [width] the column limit.  It returns the lines
    appended to [lines]. *)
Definition wrap_step (indent : string) (width : nat)
    (st : list string * string) (word : string) : list string * string :=
  let '(lines, line_buffer) := st in
  if decide (width < Py.len line_buffer + Py.len word + 1)%nat
  then (lines ++ [line_buffer], indent +:+ word)
  else (lines,
        line_buffer +:+
        (if decide (line_buffer ≠ indent) then " " else "") +:+ word).

Definition wrap_summary (indent : string) (width : nat) (summary : string)
  : list string :=
  let words := Py.split summary in
  let '(lines, line_buffer) := foldl (wrap_step indent width) ([], indent) words in
  if decide (Py.strip line_buffer ≠ "") then lines ++ [line_buffer] else lines.

(** ** Renderers of the basic pipeline *)

Section BasicRenderers.
Context {E : Type}.
Implicit Types (conn : list (Row E)).

(** [generate_dashboard] of [sustainability_agent.py] (the second
    definition, which replaces the first): the text written to
    [html_path].  [now] is [datetime.utcnow().strftime(...)]. *)
Definition dashboard_style : string :=
  "  <style>" +:+
  "body{font-family:Arial, sans-serif;line-height:1.5;margin:40px;}" +:+
  "h1,h2{color:#2a5d84;}" +:+
  "table{width:100%;border-collapse:collapse;}" +:+
  "th,td{padding:8px 12px;border-bottom:1px solid #ddd;}" +:+
  "tr:hover{background-color:#f1f1f1;}" +:+
  "</style>".

Definition dashboard_step (st : list string * option string) (row : Row E)
  : list string * option string :=
  let '(lines, current_source) := st in
  let '(source, title, link, date, summary) :=
    (r_source row, r_title row, r_link row, r_date row, r_summary row) in
  let '(lines, current_source) :=
    if decide (Some source ≠ current_source) then
      let lines :=
        if decide (current_source ≠ None)
        then lines ++ ["</tbody></table>"] else lines in
      (lines ++ ["<h2>" +:+ source +:+ "</h2>";
                 "<table><thead><tr><th>Date</th><th>Title</th>" +:+
                 "<th>Description</th></tr></thead><tbody>"],
       Some source)
    else (lines, current_source) in
  let safe_summary := escape_html summary in
  (lines ++ ["<tr><td>" +:+ date +:+ "</td>" +:+
             "<td><a href='" +:+ link +:+ "' target='_blank'>" +:+ title +:+
             "</a></td>" +:+
             "<td>" +:+ safe_summary +:+ "</td></tr>"],
   current_source).

Definition generate_dashboard (now : string) conn : string :=
  let rows := order_by (λ a b, desc (cmp_text (r_date a) (r_date b))) conn in
  let lines :=
    ["<!DOCTYPE html>";
     "<html lang='en'>";
     "<head>";
     "  <meta charset='utf-8'>";
     "  <title>Sustainability Regulation Updates</title>";
     dashboard_style;
     "</head>";
     "<body>";
     "  <h1>Sustainability Regulatory Updates</h1>";
     "  <p>Generated on " +:+ now +:+ "</p>"] in
  let '(lines, _) := foldl dashboard_step (lines, None) rows in
  let lines := if decide (rows ≠ []) then lines ++ ["</tbody></table>"] else lines in
  let lines := lines ++ ["</body>"; "</html>"] in
  Py.join Py.nl lines.

(** [generate_plain_text_email] of [generate_email_content.py]. *)
Definition plain_text_step (st : list string * option string) (row : Row E)
  : list string * option string :=
  let '(lines, current_source) := st in
  let '(source, title, link, date, summary) :=
    (r_source row, r_title row, r_link row, r_date row, r_summary row) in
  let '(lines, current_source) :=
    if decide (Some source ≠ current_source) then
      let lines :=
        if decide (current_source ≠ None) then lines ++ [""] else lines in
      (lines ++ [Py.mul "-" 80; "SOURCE: " +:+ source; Py.mul "-" 80; ""],
       Some source)
    else (lines, current_source) in
  (lines ++ ["📋 " +:+ title;
             "   Date: " +:+ date;
             "   Link: " +:+ link;
             ""]
         ++ wrap_summary "   " 80 summary
         ++ [""],
   current_source).

Definition generate_plain_text_email (now : string) conn : string :=
  let rows :=
    order_by (λ a b, and_then (cmp_text (r_source a) (r_source b))
                              (desc (cmp_text (r_date a) (r_date b)))) conn in
  let lines :=
    [Py.mul "=" 80;
     "SUSTAINABILITY REGULATORY UPDATES";
     Py.mul "=" 80;
     "Generated: " +:+ now;
     ""] in
  let '(lines, _) := foldl plain_text_step (lines, None) rows in
  let lines := lines ++ [Py.mul "=" 80; "End of Report"; Py.mul "=" 80] in
  Py.join Py.nl lines.
End BasicRenderers.

(** ** Style sheets

    Literal text of the pages, without placeholders. *)

(** The style sheet of [generate_html_email], lines 74 to 142 of
    [generate_email_content.py]. *)
Definition html_email_style : string :=
  "body {
    font-family: -apple-system, BlinkMacSystemFont, 'Segoe UI', Roboto, 'Helvetica Neue', Arial, sans-serif;
    line-height: 1.6;
    color: #333;
    max-width: 800px;
    margin: 0 auto;
    padding: 20px;
    background-color: #f5f5f5;
}
.container {
    background-color: #ffffff;
    padding: 30px;
    border-radius: 8px;
    box-shadow: 0 2px 4px rgba(0,0,0,0.1);
}
h1 {
    color: #2a5d84;
    border-bottom: 3px solid #2a5d84;
    padding-bottom: 10px;
    margin-top: 0;
}
h2 {
    color: #2a5d84;
    background-color: #e8f4f8;
    padding: 10px 15px;
    border-left: 4px solid #2a5d84;
    margin-top: 30px;
}
.update-item {
    margin: 20px 0;
    padding: 15px;
    border: 1px solid #e0e0e0;
    border-radius: 5px;
    background-color: #fafafa;
}
.update-title {
    font-size: 16px;
    font-weight: bold;
    color: #1a1a1a;
    margin-bottom: 8px;
}
.update-meta {
    font-size: 14px;
    color: #666;
    margin-bottom: 10px;
}
.update-summary {
    font-size: 14px;
    color: #444;
    line-height: 1.6;
}
.update-link {
    display: inline-block;
    margin-top: 10px;
    color: #2a5d84;
    text-decoration: none;
    font-weight: 500;
}
.update-link:hover {
    text-decoration: underline;
}
.footer {
    margin-top: 30px;
    padding-top: 20px;
    border-top: 1px solid #e0e0e0;
    font-size: 12px;
    color: #888;
    text-align: center;
}
".

(** The style sheet of [generate_professional_html], lines 141 to 373 of
    [generate_email_content_enhanced.py]. *)
Definition professional_html_style : string :=
  Py.q "body {
    font-family: -apple-system, BlinkMacSystemFont, 'Segoe UI', Roboto, 'Helvetica Neue', Arial, sans-serif;
    line-height: 1.6;
    color: #1a1a1a;
    max-width: 800px;
    margin: 0 auto;
    padding: 0;
    background-color: #f5f5f5;
}
.email-container {
    background-color: #ffffff;
    margin: 20px auto;
    border-radius: 12px;
    overflow: hidden;
    box-shadow: 0 4px 12px rgba(0,0,0,0.15);
}
.header {
    background: linear-gradient(135deg, #2a5d84 0%, #1e4a6b 100%);
    color: white;
    padding: 40px 30px;
    text-align: center;
}
.header h1 {
    margin: 0 0 10px 0;
    font-size: 2rem;
    font-weight: 700;
}
.header .subtitle {
    opacity: 0.95;
    font-size: 1.1rem;
    margin-bottom: 15px;
}
.header .author {
    font-size: 0.95rem;
    opacity: 0.9;
    font-style: italic;
}
.stats-banner {
    display: flex;
    justify-content: space-around;
    padding: 25px;
    background: #f8f9fa;
    border-bottom: 3px solid #2a5d84;
}
.stat-box {
    text-align: center;
}
.stat-number {
    font-size: 2rem;
    font-weight: 700;
    margin-bottom: 5px;
}
.stat-label {
    font-size: 0.85rem;
    color: #666;
    text-transform: uppercase;
}
.stat-high { color: #dc3545; }
.stat-medium { color: #fd7e14; }
.stat-low { color: #28a745; }
.content {
    padding: 30px;
}
.urgent-section {
    background: #fff5f5;
    border: 2px solid #dc3545;
    border-radius: 8px;
    padding: 20px;
    margin-bottom: 30px;
}
.urgent-title {
    color: #dc3545;
    font-weight: 700;
    font-size: 1.2rem;
    margin-bottom: 15px;
}
.deadline-item {
    padding: 10px 0;
    border-bottom: 1px solid #fdd;
}
.deadline-item:last-child {
    border-bottom: none;
}
.source-section {
    margin-bottom: 40px;
}
.source-header {
    background: #2a5d84;
    color: white;
    padding: 15px 20px;
    margin: 30px -30px 20px -30px;
    font-size: 1.3rem;
    font-weight: 600;
}
.update-card {
    background: #fff;
    border: 1px solid #e0e0e0;
    border-radius: 8px;
    padding: 25px;
    margin-bottom: 20px;
}
.update-title {
    font-size: 1.2rem;
    font-weight: 600;
    color: #1a1a1a;
    margin-bottom: 15px;
}
.badge-container {
    display: flex;
    gap: 10px;
    margin-bottom: 15px;
    flex-wrap: wrap;
}
.badge {
    padding: 5px 12px;
    border-radius: 20px;
    font-size: 0.85rem;
    font-weight: 600;
}
.badge-high { background: #ffe0e0; color: #dc3545; }
.badge-medium { background: #fff3cd; color: #fd7e14; }
.badge-low { background: #d4edda; color: #28a745; }
.badge-jurisdiction { background: #e8f4f8; color: #2a5d84; }
.metadata-grid {
    display: grid;
    grid-template-columns: repeat(2, 1fr);
    gap: 12px;
    background: #f8f9fa;
    padding: 15px;
    border-radius: 6px;
    margin: 15px 0;
    font-size: 0.9rem;
}
.metadata-item {
    display: flex;
    flex-direction: column;
}
.metadata-label {
    font-weight: 600;
    color: #666;
    font-size: 0.8rem;
    text-transform: uppercase;
    margin-bottom: 3px;
}
.metadata-value {
    color: #1a1a1a;
}
.summary-box {
    color: #444;
    line-height: 1.7;
    margin: 15px 0;
}
.changes-box {
    background: #fffbf0;
    border-left: 4px solid #fd7e14;
    padding: 15px;
    margin: 15px 0;
    border-radius: 4px;
}
.changes-title {
    font-weight: 600;
    color: #fd7e14;
    margin-bottom: 10px;
}
.changes-list {
    list-style: none;
    padding-left: 0;
}
.changes-list li {
    padding-left: 20px;
    position: relative;
    margin-bottom: 5px;
}
.changes-list li:before {
    content: `•`;
    position: absolute;
    left: 0;
    color: #fd7e14;
    font-weight: bold;
}
.sectors-box {
    margin: 15px 0;
}
.sectors-list {
    display: flex;
    flex-wrap: wrap;
    gap: 8px;
    margin-top: 8px;
}
.sector-tag {
    background: #e8f4f8;
    color: #2a5d84;
    padding: 5px 10px;
    border-radius: 16px;
    font-size: 0.85rem;
}
.read-more-btn {
    display: inline-block;
    margin-top: 15px;
    padding: 10px 20px;
    background: #2a5d84;
    color: white !important;
    text-decoration: none;
    border-radius: 6px;
    font-weight: 500;
}
.footer {
    background: #2a5d84;
    color: white;
    padding: 30px;
    text-align: center;
    margin-top: 40px;
}
.footer-title {
    font-size: 1.1rem;
    font-weight: 600;
    margin-bottom: 10px;
}
.footer-author {
    font-size: 1rem;
    margin-bottom: 15px;
}
.footer-disclaimer {
    font-size: 0.85rem;
    opacity: 0.9;
    line-height: 1.6;
}
@media (max-width: 600px) {
    .stats-banner { flex-direction: column; gap: 15px; }
    .metadata-grid { grid-template-columns: 1fr; }
    .source-header { margin-left: -20px; margin-right: -20px; }
    .content { padding: 20px; }
}
".

(** The style sheet of [generate_professional_dashboard], lines 421 to 752
    of [sustainability_agent_enhanced.py]. *)
Definition professional_dashboard_style : string :=
  "* {
    margin: 0;
    padding: 0;
    box-sizing: border-box;
}

body {
    font-family: -apple-system, BlinkMacSystemFont, 'Segoe UI', Roboto, 'Helvetica Neue', Arial, sans-serif;
    line-height: 1.6;
    color: #1a1a1a;
    background: linear-gradient(135deg, #667eea 0%, #764ba2 100%);
    min-height: 100vh;
    padding: 20px;
}

.container {
    max-width: 1400px;
    margin: 0 auto;
    background: white;
    border-radius: 16px;
    box-shadow: 0 20px 60px rgba(0,0,0,0.3);
    overflow: hidden;
}

.header {
    background: linear-gradient(135deg, #2a5d84 0%, #1e4a6b 100%);
    color: white;
    padding: 40px;
    text-align: center;
}

.header h1 {
    font-size: 2.5rem;
    margin-bottom: 10px;
    font-weight: 700;
}

.header .subtitle {
    font-size: 1.1rem;
    opacity: 0.9;
    margin-bottom: 20px;
}

.header .meta {
    font-size: 0.95rem;
    opacity: 0.85;
    display: flex;
    justify-content: center;
    align-items: center;
    gap: 30px;
    flex-wrap: wrap;
}

.meta-item {
    display: flex;
    align-items: center;
    gap: 8px;
}

.stats-grid {
    display: grid;
    grid-template-columns: repeat(auto-fit, minmax(200px, 1fr));
    gap: 20px;
    padding: 40px;
    background: #f8f9fa;
}

.stat-card {
    background: white;
    padding: 25px;
    border-radius: 12px;
    box-shadow: 0 4px 12px rgba(0,0,0,0.08);
    text-align: center;
    transition: transform 0.2s;
}

.stat-card:hover {
    transform: translateY(-4px);
    box-shadow: 0 8px 20px rgba(0,0,0,0.12);
}

.stat-number {
    font-size: 2.5rem;
    font-weight: 700;
    color: #2a5d84;
    margin-bottom: 8px;
}

.stat-label {
    font-size: 0.95rem;
    color: #666;
    text-transform: uppercase;
    letter-spacing: 0.5px;
}

.impact-high .stat-number { color: #dc3545; }
.impact-medium .stat-number { color: #fd7e14; }
.impact-low .stat-number { color: #28a745; }

.content {
    padding: 40px;
}

.section {
    margin-bottom: 50px;
}

.section-title {
    font-size: 1.8rem;
    color: #2a5d84;
    margin-bottom: 25px;
    padding-bottom: 12px;
    border-bottom: 3px solid #2a5d84;
    display: flex;
    align-items: center;
    gap: 12px;
}

.compliance-calendar {
    display: grid;
    gap: 15px;
}

.deadline-card {
    background: #fff;
    border: 2px solid #e0e0e0;
    border-left: 5px solid #2a5d84;
    padding: 20px;
    border-radius: 8px;
    transition: all 0.2s;
}

.deadline-card:hover {
    border-left-color: #667eea;
    box-shadow: 0 4px 12px rgba(0,0,0,0.1);
}

.deadline-card.urgent {
    border-left-color: #dc3545;
    background: #fff5f5;
}

.deadline-date {
    font-size: 1.1rem;
    font-weight: 600;
    color: #2a5d84;
    margin-bottom: 8px;
}

.deadline-title {
    font-size: 1.05rem;
    font-weight: 600;
    margin-bottom: 8px;
    color: #1a1a1a;
}

.deadline-jurisdiction {
    display: inline-block;
    padding: 4px 12px;
    background: #e8f4f8;
    border-radius: 20px;
    font-size: 0.85rem;
    color: #2a5d84;
    margin-bottom: 10px;
}

.update-card {
    background: #fff;
    border: 1px solid #e0e0e0;
    border-radius: 12px;
    padding: 30px;
    margin-bottom: 25px;
    transition: all 0.2s;
}

.update-card:hover {
    box-shadow: 0 8px 20px rgba(0,0,0,0.1);
    transform: translateX(4px);
}

.update-header {
    display: flex;
    justify-content: space-between;
    align-items: start;
    margin-bottom: 15px;
    flex-wrap: wrap;
    gap: 15px;
}

.update-title {
    font-size: 1.3rem;
    font-weight: 600;
    color: #1a1a1a;
    flex: 1;
    min-width: 250px;
}

.update-badges {
    display: flex;
    gap: 10px;
    flex-wrap: wrap;
}

.badge {
    padding: 6px 14px;
    border-radius: 20px;
    font-size: 0.85rem;
    font-weight: 600;
    white-space: nowrap;
}

.badge-high { background: #ffe0e0; color: #dc3545; }
.badge-medium { background: #fff3cd; color: #fd7e14; }
.badge-low { background: #d4edda; color: #28a745; }
.badge-source { background: #e8f4f8; color: #2a5d84; }

.update-meta {
    display: grid;
    grid-template-columns: repeat(auto-fit, minmax(200px, 1fr));
    gap: 15px;
    margin: 20px 0;
    padding: 15px;
    background: #f8f9fa;
    border-radius: 8px;
    font-size: 0.9rem;
}

.meta-row {
    display: flex;
    flex-direction: column;
}

.meta-label {
    font-weight: 600;
    color: #666;
    font-size: 0.85rem;
    margin-bottom: 4px;
    text-transform: uppercase;
    letter-spacing: 0.5px;
}

.meta-value {
    color: #1a1a1a;
}

.update-summary {
    color: #444;
    line-height: 1.7;
    margin: 15px 0;
}

.update-changes {
    background: #fffbf0;
    border-left: 4px solid #fd7e14;
    padding: 15px;
    margin: 15px 0;
    border-radius: 4px;
}

.changes-title {
    font-weight: 600;
    color: #fd7e14;
    margin-bottom: 8px;
    font-size: 0.95rem;
}

.update-sectors {
    margin: 15px 0;
}

.sectors-list {
    display: flex;
    flex-wrap: wrap;
    gap: 8px;
    margin-top: 8px;
}

.sector-tag {
    background: #e8f4f8;
    color: #2a5d84;
    padding: 5px 12px;
    border-radius: 16px;
    font-size: 0.85rem;
}

.update-link {
    display: inline-block;
    margin-top: 15px;
    padding: 10px 20px;
    background: #2a5d84;
    color: white;
    text-decoration: none;
    border-radius: 6px;
    font-weight: 500;
    transition: all 0.2s;
}

.update-link:hover {
    background: #1e4a6b;
    transform: translateX(4px);
}

.footer {
    background: #2a5d84;
    color: white;
    padding: 30px;
    text-align: center;
}

.footer-title {
    font-size: 1.2rem;
    font-weight: 600;
    margin-bottom: 8px;
}

.footer-subtitle {
    opacity: 0.9;
    margin-bottom: 15px;
}

.footer-meta {
    opacity: 0.8;
    font-size: 0.9rem;
}

@media (max-width: 768px) {
    .header h1 { font-size: 1.8rem; }
    .stats-grid { grid-template-columns: 1fr; padding: 20px; }
    .content { padding: 20px; }
    .update-header { flex-direction: column; }
    .update-meta { grid-template-columns: 1fr; }
}
".

(** ** The HTML digest of the basic pipeline *)

Section HtmlEmail.
Context {E : Type}.

Definition html_email_step (st : list string * option string) (row : Row E)
  : list string * option string :=
  let '(lines, current_source) := st in
  let '(source, title, link, date, summary) :=
    (r_source row, r_title row, r_link row, r_date row, r_summary row) in
  let '(lines, current_source) :=
    if decide (Some source ≠ current_source)
    then (lines ++ [("<h2>" +:+ source +:+ "</h2>")], Some source)
    else (lines, current_source) in
  let safe_title := escape_html title in
  let safe_summary := escape_html summary in
  (lines ++ [Py.q "<div class=`update-item`>";
             (Py.q "<div class=`update-title`>" +:+
              safe_title +:+
              "</div>");
             (Py.q "<div class=`update-meta`>📅 " +:+ date +:+ "</div>");
             (Py.q "<div class=`update-summary`>" +:+
              safe_summary +:+
              "</div>");
             (Py.q "<a href=`" +:+
              link +:+
              Py.q "` class=`update-link` target=`_blank`>Read More →</a>");
             "</div>"],
   current_source).

(** [generate_html_email] of [generate_email_content.py]. *)
Definition generate_html_email (now : string) (conn : list (Row E))
  : string :=
  let rows :=
    order_by (λ a b, and_then (cmp_text (r_source a) (r_source b))
                              (desc (cmp_text (r_date a) (r_date b)))) conn in
  let lines :=
    [(Py.q "<!DOCTYPE html>
<html>
<head>
<meta charset=`utf-8`>
<style>
" +:+
     html_email_style +:+
     Py.q "</style>
</head>
<body>
<div class=`container`>
<h1>🌍 Sustainability Regulatory Updates</h1>
<p style=`color: #666; font-size: 14px;`>");
     ("Generated on " +:+ now);
     "</p>"] in
  let '(lines, _) := foldl html_email_step (lines, None) rows in
  let lines := lines ++ [(Py.q "
<div class=`footer`>
<p>This is an automated digest from the Sustainability Agent.</p>
<p>For questions or to unsubscribe, please contact the sender.</p>
</div>
</div>
</body>
</html>")] in
  Py.join Py.nl lines.
End HtmlEmail.

(** ** Renderers of the enhanced pipeline *)

Definition deadline (row : Row ExtCols) : pystr :=
  c_compliance_deadline (r_ext row).

(** The statistics every professional report starts from:
    [len(rows)] and [len([r for r in rows if r[9] == "High"])] and so on. *)
Definition total_updates (rows : list (Row ExtCols)) : nat := length rows.

Definition impact_count (level : string) (rows : list (Row ExtCols)) : nat :=
  length (filter (λ r, c_impact_level (r_ext r) = Some level) rows).

Definition high_impact := impact_count "High".
Definition medium_impact := impact_count "Medium".
Definition low_impact := impact_count "Low".

Definition voluntary : string :=
  "Voluntary commitment (5-24 month target-setting timeline)".

(** [r[7] and r[7] != "Voluntary ..." and "2026" in r[7]] *)
Definition urgent_deadline (row : Row ExtCols) : bool :=
  match deadline row with
  | Some (String c d) =>
      bool_decide (String c d ≠ voluntary) && Py.contains "2026" (String c d)
  | _ => false
  end.

(** [ORDER BY compliance_deadline, source, date DESC] *)
Definition by_deadline_source_date (a b : Row ExtCols) : comparison :=
  and_then (cmp_null (deadline a) (deadline b))
    (and_then (cmp_text (r_source a) (r_source b))
              (desc (cmp_text (r_date a) (r_date b)))).

(** [[x.strip() for x in text.split(sep)]] *)
Definition split_strip (sep : ascii) (text : string) : list string :=
  Py.strip <$> Py.split_on sep text.

Definition no_lower : Py.exception :=
  Py.Raise "AttributeError" "'NoneType' object has no attribute 'lower'".

Definition html_head (now : string) (rows : list (Row ExtCols)) : string :=
  (Py.q "<!DOCTYPE html>
<html>
<head>
<meta charset=`utf-8`>
<meta name=`viewport` content=`width=device-width, initial-scale=1.0`>
<style>
" +:+
   professional_html_style +:+
   Py.q "</style>
</head>
<body>
<div class=`email-container`>
    <div class=`header`>
        <h1>🌍 Sustainability Regulatory Updates</h1>
        <div class=`subtitle`>Global ESG & Climate Disclosure Tracking</div>
        <div class=`author`>Prepared by: Deepa Rao, Sustainability Compliance Analyst</div>
    </div>
    
    <div class=`stats-banner`>
        <div class=`stat-box`>
            <div class=`stat-number`>" +:+
   Py.str_of_nat (length rows) +:+
   Py.q "</div>
            <div class=`stat-label`>Total Updates</div>
        </div>
        <div class=`stat-box`>
            <div class=`stat-number stat-high`>" +:+
   Py.str_of_nat (high_impact rows) +:+
   Py.q "</div>
            <div class=`stat-label`>High Impact</div>
        </div>
        <div class=`stat-box`>
            <div class=`stat-number stat-medium`>" +:+
   Py.str_of_nat (medium_impact rows) +:+
   Py.q "</div>
            <div class=`stat-label`>Medium Impact</div>
        </div>
        <div class=`stat-box`>
            <div class=`stat-number stat-low`>" +:+
   Py.str_of_nat (low_impact rows) +:+
   Py.q "</div>
            <div class=`stat-label`>Low Impact</div>
        </div>
    </div>
    
    <div class=`content`>
        <p style=`color: #666; margin-bottom: 20px;`>
            Generated on " +:+
   now +:+
   "
        </p>
").

Definition html_urgent (row : Row ExtCols) : string :=
  (Py.q "
            <div class=`deadline-item`>
                <strong>📅 " +:+
   Py.fmt (deadline row) +:+
   "</strong> - " +:+
   r_title row +:+
   " (" +:+
   Py.fmt (c_jurisdiction (r_ext row)) +:+
   ")
            </div>
").

Definition html_changes (significant_changes : pystr) : string :=
  match significant_changes with
  | Some (String c s) =>
      let changes := split_strip ";" (String c s) in
      (Py.q "
                <div class=`changes-box`>
                    <div class=`changes-title`>📌 Significant Changes</div>
                    <ul class=`changes-list`>
") +:+
      foldl (λ html change,
               if decide (change ≠ "") then
                 let safe_change := escape_html change in
                 html +:+ ("<li>" +:+ safe_change +:+ "</li>")
               else html) "" changes +:+
      ("
                    </ul>
                </div>
")
  | _ => ""
  end.

Definition html_sectors (affected_sectors : pystr) : string :=
  match affected_sectors with
  | Some (String c s) =>
      let sectors := split_strip "," (String c s) in
      (Py.q "
                <div class=`sectors-box`>
                    <div class=`metadata-label`>Affected Sectors</div>
                    <div class=`sectors-list`>
") +:+
      foldl (λ html sector, html +:+ (Py.q "<span class=`sector-tag`>" +:+ sector +:+ "</span>")) "" sectors +:+
      ("
                    </div>
                </div>
")
  | _ => ""
  end.

(** The loop [for row in rows] that adds one card per record; a [NULL]
    impact level makes [impact_level.lower()] raise. *)
Fixpoint html_cards (html : string) (current_source : option string)
    (rows : list (Row ExtCols)) : string + Py.exception :=
  match rows with
  | [] => inl html
  | row :: rest =>
      let '(source, title, link, date, summary) :=
        (r_source row, r_title row, r_link row, r_date row, r_summary row) in
      let '(first_published, last_updated, compliance_deadline) :=
        (c_first_published (r_ext row), c_last_updated (r_ext row),
         c_compliance_deadline (r_ext row)) in
      let jurisdiction := c_jurisdiction (r_ext row) in
      let '(html, current_source) :=
        if decide (Some source ≠ current_source) then
          (html +:+ (Py.q "
        <div class=`source-header`>" +:+
           source +:+
           " - " +:+
           Py.fmt jurisdiction +:+
           Py.q "</div>
        <div class=`source-section`>
"), Some source)
        else (html, current_source) in
      let safe_title := escape_html title in
      let safe_summary := escape_html summary in
      match c_impact_level (r_ext row) with
      | None => inr no_lower
      | Some impact_level =>
          let impact_class := "badge-" +:+ Py.lower impact_level in
          let html := html +:+ (Py.q "
            <div class=`update-card`>
                <div class=`update-title`>" +:+
           safe_title +:+
           Py.q "</div>
                
                <div class=`badge-container`>
                    <span class=`badge " +:+
           impact_class +:+
           Py.q "`>" +:+
           impact_level +:+
           Py.q " Impact</span>
                    <span class=`badge badge-jurisdiction`>" +:+
           Py.fmt jurisdiction +:+
           Py.q "</span>
                </div>
                
                <div class=`metadata-grid`>
                    <div class=`metadata-item`>
                        <span class=`metadata-label`>First Published</span>
                        <span class=`metadata-value`>" +:+
           Py.or_else first_published date +:+
           Py.q "</span>
                    </div>
                    <div class=`metadata-item`>
                        <span class=`metadata-label`>Last Updated</span>
                        <span class=`metadata-value`>" +:+
           Py.or_else last_updated date +:+
           Py.q "</span>
                    </div>
                    <div class=`metadata-item`>
                        <span class=`metadata-label`>Compliance Deadline</span>
                        <span class=`metadata-value`>" +:+
           Py.or_else compliance_deadline "To be announced" +:+
           Py.q "</span>
                    </div>
                    <div class=`metadata-item`>
                        <span class=`metadata-label`>Impact Level</span>
                        <span class=`metadata-value`>" +:+
           impact_level +:+
           Py.q "</span>
                    </div>
                </div>
                
                <div class=`summary-box`>" +:+
           safe_summary +:+
           "</div>
") in
          let html := html +:+ html_changes (c_significant_changes (r_ext row)) in
          let html := html +:+ html_sectors (c_affected_sectors (r_ext row)) in
          let html := html +:+ (Py.q "
                <a href=`" +:+
           link +:+
           Py.q "` class=`read-more-btn` target=`_blank`>Read Full Document →</a>
            </div>
") in
          html_cards html current_source rest
      end
  end.

(** [generate_professional_html] of [generate_email_content_enhanced.py]. *)
Definition generate_professional_html (now : string)
    (conn : list (Row ExtCols)) : string + Py.exception :=
  let rows := order_by by_deadline_source_date conn in
  let html := html_head now rows in
  let upcoming := filter (λ r, urgent_deadline r) rows in
  let html :=
    if decide (upcoming ≠ []) then
      html +:+ (Py.q "
        <div class=`urgent-section`>
            <div class=`urgent-title`>⚠️ Urgent: Upcoming Compliance Deadlines</div>
") +:+
      foldl (λ html row, html +:+ html_urgent row) "" upcoming +:+
      ("
        </div>
")
    else html in
  match html_cards html None rows with
  | inl html => inl (html +:+ (Py.q "
        </div>
    </div>
    
    <div class=`footer`>
        <div class=`footer-title`>Sustainability Regulation Tracker</div>
        <div class=`footer-author`>Prepared by: Deepa Rao | Sustainability Compliance Analyst</div>
        <div class=`footer-disclaimer`>
            This report tracks global sustainability regulations including EU CSRD/ESRS, 
            IFRS S1/S2, UK SRS, Japan SSBJ, India BRSR, and SBTi standards. 
            For questions, updates, or additional information, please contact the administrator.
        </div>
    </div>
</div>
</body>
</html>
"))
  | inr e => inr e
  end.

(** [ORDER BY compliance_deadline, date DESC] *)
Definition by_deadline_date (a b : Row ExtCols) : comparison :=
  and_then (cmp_null (deadline a) (deadline b))
           (desc (cmp_text (r_date a) (r_date b))).

(** [source_counts[source] = source_counts.get(source, 0) + 1] on a dict,
    which keeps its keys in insertion order. *)
Fixpoint count_source (source : string) (source_counts : list (string * nat))
  : list (string * nat) :=
  match source_counts with
  | [] => [(source, 1%nat)]
  | (s, count) :: rest =>
      if decide (s = source) then (s, S count) :: rest
      else (s, count) :: count_source source rest
  end.

(** [r[7] and r[7] != "Voluntary ..."] *)
Definition has_deadline (row : Row ExtCols) : bool :=
  match deadline row with
  | Some (String c d) => bool_decide (String c d ≠ voluntary)
  | _ => false
  end.

Definition dashboard_head (now : string) (rows : list (Row ExtCols))
  : string :=
  (Py.q "<!DOCTYPE html>
<html lang=`en`>
<head>
<meta charset=`utf-8`>
<meta name=`viewport` content=`width=device-width, initial-scale=1.0`>
<title>Sustainability Regulation Dashboard | Deepa Rao</title>
<style>
" +:+
   professional_dashboard_style +:+
   Py.q "</style>
</head>
<body>
<div class=`container`>
    <div class=`header`>
        <h1>üåç Sustainability Regulation Dashboard</h1>
        <div class=`subtitle`>Global ESG & Climate Disclosure Tracking System</div>
        <div class=`meta`>
            <div class=`meta-item`>
                <span>üìä</span>
                <span>Generated: " +:+
   now +:+
   Py.q "</span>
            </div>
            <div class=`meta-item`>
                <span>üë§</span>
                <span>Prepared by: <strong>Deepa Rao</strong></span>
            </div>
            <div class=`meta-item`>
                <span>üìà</span>
                <span>" +:+
   Py.str_of_nat (total_updates rows) +:+
   Py.q " Active Regulations</span>
            </div>
        </div>
    </div>

    <div class=`stats-grid`>
        <div class=`stat-card`>
            <div class=`stat-number`>" +:+
   Py.str_of_nat (total_updates rows) +:+
   Py.q "</div>
            <div class=`stat-label`>Total Updates</div>
        </div>
        <div class=`stat-card impact-high`>
            <div class=`stat-number`>" +:+
   Py.str_of_nat (high_impact rows) +:+
   Py.q "</div>
            <div class=`stat-label`>High Impact</div>
        </div>
        <div class=`stat-card impact-medium`>
            <div class=`stat-number`>" +:+
   Py.str_of_nat (medium_impact rows) +:+
   Py.q "</div>
            <div class=`stat-label`>Medium Impact</div>
        </div>
        <div class=`stat-card impact-low`>
            <div class=`stat-number`>" +:+
   Py.str_of_nat (low_impact rows) +:+
   Py.q "</div>
            <div class=`stat-label`>Low Impact</div>
        </div>
").

Definition dashboard_source_card (html : string) (entry : string * nat)
  : string :=
  let '(source, count) := entry in
  html +:+ (Py.q "
        <div class=`stat-card`>
            <div class=`stat-number`>" +:+
   Py.str_of_nat count +:+
   Py.q "</div>
            <div class=`stat-label`>" +:+
   source +:+
   "</div>
        </div>
").

Definition dashboard_deadline_card (html : string) (row : Row ExtCols)
  : string :=
  let deadline := Py.fmt (deadline row) in
  let title := r_title row in
  let jurisdiction := c_jurisdiction (r_ext row) in
  let urgent_class := if Py.contains "2026" deadline then "urgent" else "" in
  html +:+ (Py.q "
                <div class=`deadline-card " +:+
   urgent_class +:+
   Py.q "`>
                    <div class=`deadline-date`>‚è∞ " +:+
   deadline +:+
   Py.q "</div>
                    <div class=`deadline-title`>" +:+
   title +:+
   Py.q "</div>
                    <span class=`deadline-jurisdiction`>" +:+
   Py.fmt jurisdiction +:+
   "</span>
                </div>
").

Definition dashboard_sectors (affected_sectors : pystr) : string :=
  match affected_sectors with
  | Some (String c s) =>
      let sectors := split_strip "," (String c s) in
      (Py.q "
                <div class=`update-sectors`>
                    <div class=`meta-label`>Affected Sectors</div>
                    <div class=`sectors-list`>
") +:+
      foldl (λ html sector, html +:+ (Py.q "<span class=`sector-tag`>" +:+ sector +:+ "</span>")) "" sectors +:+
      ("
                    </div>
                </div>
")
  | _ => ""
  end.

(** The loop [for row in rows] that adds one card per record; a [NULL]
    impact level makes [impact_level.lower()] raise. *)
Fixpoint dashboard_cards (html : string) (current_source : option string)
    (rows : list (Row ExtCols)) : string + Py.exception :=
  match rows with
  | [] => inl html
  | row :: rest =>
      let '(source, title, link, date, summary) :=
        (r_source row, r_title row, r_link row, r_date row, r_summary row) in
      let '(first_published, last_updated, compliance_deadline) :=
        (c_first_published (r_ext row), c_last_updated (r_ext row),
         c_compliance_deadline (r_ext row)) in
      let jurisdiction := c_jurisdiction (r_ext row) in
      let '(html, current_source) :=
        if decide (Some source ≠ current_source) then
          (html +:+ (Py.q "
            <h3 style=`color: #2a5d84; margin: 30px 0 20px 0; font-size: 1.5rem;`>
                " +:+
           source +:+
           " - " +:+
           Py.fmt jurisdiction +:+
           "
            </h3>
"), Some source)
        else (html, current_source) in
      let safe_title := escape_html title in
      let safe_summary := escape_html summary in
      let safe_changes :=
        match c_significant_changes (r_ext row) with
        | Some (String c s) => escape_html (String c s)
        | _ => ""
        end in
      match c_impact_level (r_ext row) with
      | None => inr no_lower
      | Some impact_level =>
          let impact_class := "badge-" +:+ Py.lower impact_level in
          let html := html +:+ (Py.q "
            <div class=`update-card`>
                <div class=`update-header`>
                    <div class=`update-title`>" +:+
           safe_title +:+
           Py.q "</div>
                    <div class=`update-badges`>
                        <span class=`badge badge-source`>" +:+
           source +:+
           Py.q "</span>
                        <span class=`badge " +:+
           impact_class +:+
           Py.q "`>" +:+
           impact_level +:+
           Py.q " Impact</span>
                    </div>
                </div>
                
                <div class=`update-meta`>
                    <div class=`meta-row`>
                        <span class=`meta-label`>First Published</span>
                        <span class=`meta-value`>" +:+
           Py.or_else first_published date +:+
           Py.q "</span>
                    </div>
                    <div class=`meta-row`>
                        <span class=`meta-label`>Last Updated</span>
                        <span class=`meta-value`>" +:+
           Py.or_else last_updated date +:+
           Py.q "</span>
                    </div>
                    <div class=`meta-row`>
                        <span class=`meta-label`>Compliance Deadline</span>
                        <span class=`meta-value`>" +:+
           Py.or_else compliance_deadline "To be announced" +:+
           Py.q "</span>
                    </div>
                    <div class=`meta-row`>
                        <span class=`meta-label`>Jurisdiction</span>
                        <span class=`meta-value`>" +:+
           Py.fmt jurisdiction +:+
           Py.q "</span>
                    </div>
                </div>
                
                <div class=`update-summary`>" +:+
           safe_summary +:+
           "</div>
") in
          let html :=
            if decide (safe_changes ≠ "") then html +:+ (Py.q "
                <div class=`update-changes`>
                    <div class=`changes-title`>üìå Significant Changes</div>
                    <div>" +:+
             safe_changes +:+
             "</div>
                </div>
") else html in
          let html := html +:+ dashboard_sectors (c_affected_sectors (r_ext row)) in
          let html := html +:+ (Py.q "
                <a href=`" +:+
           link +:+
           Py.q "` class=`update-link` target=`_blank`>Read Full Document ‚Üí</a>
            </div>
") in
          dashboard_cards html current_source rest
      end
  end.

(** [generate_professional_dashboard] of
    [sustainability_agent_enhanced.py]: the text written to [html_path]. *)
Definition generate_professional_dashboard (now : string)
    (conn : list (Row ExtCols)) : string + Py.exception :=
  let rows := order_by by_deadline_date conn in
  let source_counts :=
    foldl (λ counts row, count_source (r_source row) counts) [] rows in
  let upcoming := filter (λ r, has_deadline r) rows in
  let html := dashboard_head now rows in
  let html := foldl dashboard_source_card html source_counts in
  let html := html +:+ (Py.q "
    </div>

    <div class=`content`>
") in
  let html :=
    if decide (upcoming ≠ []) then
      foldl dashboard_deadline_card (html +:+ (Py.q "
        <div class=`section`>
            <h2 class=`section-title`>üìÖ Compliance Calendar</h2>
            <div class=`compliance-calendar`>
")) upcoming +:+
      ("
            </div>
        </div>
")
    else html in
  let html := html +:+ (Py.q "
        <div class=`section`>
            <h2 class=`section-title`>üìã Detailed Regulation Updates</h2>
") in
  match dashboard_cards html None rows with
  | inl html => inl (html +:+ (Py.q "
        </div>
    </div>

    <div class=`footer`>
        <div class=`footer-title`>Sustainability Regulation Tracker</div>
        <div class=`footer-subtitle`>Comprehensive ESG & Climate Disclosure Monitoring</div>
        <div class=`footer-meta`>
            <p>Prepared by: Deepa Rao | Sustainability Compliance Analyst</p>
            <p style=`margin-top: 8px; opacity: 0.7;`>
                This dashboard tracks global sustainability regulations including EU CSRD/ESRS, 
                IFRS S1/S2, UK SRS, Japan SSBJ, India BRSR, and SBTi standards.
            </p>
            <p style=`margin-top: 12px; font-size: 0.85rem;`>
                For questions or updates, please contact the administrator.
            </p>
        </div>
    </div>
</div>
</body>
</html>
"))
  | inr e => inr e
  end.

(** [generate_professional_plain_text] of
    [generate_email_content_enhanced.py]. *)
Definition professional_text_step (st : list string * option string)
    (row : Row ExtCols) : list string * option string :=
  let '(lines, current_source) := st in
  let '(source, title, link, date, summary) :=
    (r_source row, r_title row, r_link row, r_date row, r_summary row) in
  let '(first_published, last_updated, compliance_deadline) :=
    (c_first_published (r_ext row), c_last_updated (r_ext row),
     c_compliance_deadline (r_ext row)) in
  let '(significant_changes, impact_level, affected_sectors, jurisdiction) :=
    (c_significant_changes (r_ext row), Py.fmt (c_impact_level (r_ext row)),
     c_affected_sectors (r_ext row), c_jurisdiction (r_ext row)) in
  let '(lines, current_source) :=
    if decide (Some source ≠ current_source) then
      let lines :=
        if decide (current_source ≠ None) then lines ++ [""] else lines in
      (lines ++ [Py.mul "=" 90;
                 ("SOURCE: " +:+
                  source +:+
                  " | JURISDICTION: " +:+
                  Py.fmt jurisdiction);
                 Py.mul "=" 90;
                 ""],
       Some source)
    else (lines, current_source) in
  let lines :=
    lines ++ [("📋 " +:+ title);
              ("   Impact Level: " +:+ impact_level);
              ("   Link: " +:+ link);
              "";
              "   KEY DATES:";
              ("     • First Published: " +:+
               Py.or_else first_published date);
              ("     • Last Updated: " +:+ Py.or_else last_updated date);
              ("     • Compliance Deadline: " +:+
               Py.or_else compliance_deadline "To be announced");
              ""] in
  let lines :=
    match affected_sectors with
    | Some (String c s) =>
        let sectors := split_strip "," (String c s) in
        lines ++ ["   AFFECTED SECTORS:"]
              ++ ((λ sector, ("     • " +:+ sector)) <$> sectors)
              ++ [""]
    | _ => lines
    end in
  let lines :=
    lines ++ ["   SUMMARY:"] ++ wrap_summary "     " 88 summary ++ [""] in
  let lines :=
    match significant_changes with
    | Some (String c s) =>
        let changes := split_strip ";" (String c s) in
        lines ++ ["   📌 SIGNIFICANT CHANGES:"]
              ++ ((λ change, ("     • " +:+ change)) <$>
                  filter (λ change, change ≠ "") changes)
              ++ [""]
    | _ => lines
    end in
  (lines ++ [Py.mul "-" 90; ""], current_source).

Definition generate_professional_plain_text (now : string)
    (conn : list (Row ExtCols)) : string :=
  let rows := order_by by_deadline_source_date conn in
  let lines :=
    [Py.mul "=" 90;
     "SUSTAINABILITY REGULATORY UPDATES";
     "Prepared by: Deepa Rao | Sustainability Compliance Analyst";
     Py.mul "=" 90;
     ("Generated: " +:+ now);
     ("Total Regulations Tracked: " +:+ Py.str_of_nat (length rows));
     ""] in
  let lines :=
    lines ++ ["IMPACT SUMMARY";
              ("  • High Impact: " +:+
               Py.str_of_nat (high_impact rows) +:+
               " regulations");
              ("  • Medium Impact: " +:+
               Py.str_of_nat (medium_impact rows) +:+
               " regulations");
              ("  • Low Impact: " +:+
               Py.str_of_nat (low_impact rows) +:+
               " regulations");
              ""] in
  let upcoming := filter (λ r, urgent_deadline r) rows in
  let lines :=
    if decide (upcoming ≠ []) then
      lines ++ ["⚠️  URGENT: UPCOMING COMPLIANCE DEADLINES"; Py.mul "-" 90]
            ++ ((λ row, ("  📅 " +:+
             Py.fmt (deadline row) +:+
             " - " +:+
             r_title row +:+
             " (" +:+
             Py.fmt (c_jurisdiction (r_ext row)) +:+
             ")")) <$> upcoming)
            ++ [""]
    else lines in
  let '(lines, _) := foldl professional_text_step (lines, None) rows in
  let lines :=
    lines ++ [Py.mul "=" 90;
              "END OF REPORT";
              "";
              "Prepared by: Deepa Rao";
              "Sustainability Compliance Analyst";
              ("For inquiries or additional information, please contact the administrator.");
              Py.mul "=" 90] in
  Py.join Py.nl lines.

(** ** Notifier *)

(** The [MIMEMultipart] message as far as [send_email] reads it. *)
Record Message : Type := mkMessage {
  msg_from : pystr;
  msg_as_string : string
}.

(** What the block [with smtplib.SMTP(host, port) as server: ...] does:
    it runs to its end, or one of [SMTP(...)], [starttls], [login],
    [sendmail] raises, or leaving the block raises after the mail and the
    message on the console went out. *)
Inductive smtp_outcome : Type :=
| Delivered
| FailedInside (e : Py.exception)
| FailedOnExit (e : Py.exception).

Inductive event : Type :=
| Printed (line : string)
| SmtpSession (host : string) (port : Z) (user password : string)
              (from_addr : pystr) (to_addrs : list string) (data : string).

Section Notifier.
(** The mail server and the network. *)
Variable smtp :
  string → Z → string → string → pystr → list string → string → smtp_outcome.

(** [send_email]; the two agent modules define it alike.  [environ] is
    [os.environ].  The result is what happened, in order, and whether the
    call returned or raised. *)
Definition send_email (environ : gmap string string) (message : Message)
  : list event * (unit + Py.exception) :=
  let host := environ !! "SMTP_HOST" in
  let port_text := default "0" (environ !! "SMTP_PORT") in
  match Py.int port_text with
  | None =>
      ([], inr (Py.Raise "ValueError"
                  ("invalid literal for int() with base 10: '" +:+
                   port_text +:+ "'")))
  | Some port =>
      let user := environ !! "SMTP_USER" in
      let password := environ !! "SMTP_PASSWORD" in
      let recipients := environ !! "SMTP_TO" in
      match host, user, password, recipients with
      | Some (String h0 h as host), Some (String u0 u as user),
        Some (String p0 p as password), Some (String r0 r as recipients) =>
          if decide (port = 0) then
            ([Printed "SMTP credentials not fully configured; skipping email send."],
             inl ())
          else
            let session :=
              SmtpSession host port user password (msg_from message)
                          (Py.split_on "," recipients) (msg_as_string message) in
            match smtp host port user password (msg_from message)
                       (Py.split_on "," recipients) (msg_as_string message) with
            | Delivered =>
                ([session; Printed ("Sent email to " +:+ recipients)], inl ())
            | FailedInside e =>
                ([session; Printed ("Failed to send email: " +:+ Py.exc_msg e)],
                 inl ())
            | FailedOnExit e =>
                ([session; Printed ("Sent email to " +:+ recipients);
                  Printed ("Failed to send email: " +:+ Py.exc_msg e)], inl ())
            end
      | _, _, _, _ =>
          ([Printed "SMTP credentials not fully configured; skipping email send."],
           inl ())
      end
  end.
End Notifier.

(** The variables [send_email] needs, as [scripts/send_test_email.py] lists
    them. *)
Definition required_credentials : list string :=
  ["SMTP_HOST"; "SMTP_PORT"; "SMTP_USER"; "SMTP_PASSWORD"; "SMTP_TO"].

(** What [send_email] does when it decides not to send. *)
Definition skipped : list event * (unit + Py.exception) :=
  ([Printed "SMTP credentials not fully configured; skipping email send."],
   inl ()).

Definition raised {A} (r : list event * (A + Py.exception)) : Prop :=
  ∃ e, r.2 = inr e.

Definition attempted_transmission {A} (r : list event * A) : Prop :=
  ∃ host port user password from_addr to_addrs data,
    SmtpSession host port user password from_addr to_addrs data ∈ r.1.

(** ** Composing the digest mail *)

(** The [MIMEMultipart] message [compose_email] builds: its headers and
    the text of its only part. *)
Record Email : Type := mkEmail {
  email_from : string;
  email_to : string;
  email_subject : string;
  email_body : string
}.

(** [compose_email] of [sustainability_agent.py].  [today] is
    [datetime.utcnow().strftime(...)]. *)
Definition compose_item (body_lines : list string) (item : UpdateItem)
  : list string :=
  body_lines ++
  [("* **" +:+
   Py.fmt (title item) +:+
   "** (" +:+
   Py.fmt (source item) +:+
   ", " +:+
   Py.fmt (date item) +:+
   ")");
   ("  " +:+ Py.fmt (summary item));
   ("  Link: " +:+ Py.fmt (link item));
   ""].

Definition compose_email (environ : gmap string string) (today : string)
    (items : list UpdateItem) : Email :=
  let body_lines :=
    [("Here are the latest sustainability regulation updates as of " +:+
     today +:+
     ":"); ""] in
  let body_lines := foldl compose_item body_lines items in
  let body_lines :=
    if decide (items = []) then body_lines ++ ["No new updates were detected today."]
    else body_lines in
  mkEmail (default "sustainability-agent@example.com" (environ !! "SMTP_FROM"))
          (default "recipient@example.com" (environ !! "SMTP_TO"))
          ("Sustainability regulatory updates – " +:+ today)
          (Py.join Py.nl body_lines).

(** [compose_email] of [sustainability_agent_enhanced.py]. *)
Definition compose_item_enhanced (body_lines : list string) (item : UpdateItem)
  : list string :=
  let body_lines :=
    body_lines ++
    [("* **" +:+
     Py.fmt (title item) +:+
     "** (" +:+
     Py.fmt (source item) +:+
     ", " +:+
     Py.fmt (jurisdiction item) +:+
     ")");
     ("  Impact: " +:+ Py.fmt (impact_level item))] in
  let body_lines :=
    if Py.truthy (compliance_deadline item)
    then body_lines ++ [("  Deadline: " +:+ Py.fmt (compliance_deadline item))]
    else body_lines in
  body_lines ++
  [("  " +:+ Py.fmt (summary item));
   ("  Link: " +:+ Py.fmt (link item));
   ""].

Definition compose_email_enhanced (environ : gmap string string)
    (today : string) (items : list UpdateItem) : Email :=
  let body_lines :=
    [("Sustainability Regulation Update ‚Äì " +:+ today);
     "Prepared by: Deepa Rao";
     "";
     ("Latest regulatory updates as of " +:+ today +:+ ":");
     ""] in
  let body_lines := foldl compose_item_enhanced body_lines items in
  let body_lines :=
    if decide (items = []) then body_lines ++ ["No new updates were detected today."]
    else body_lines in
  let body_lines :=
    body_lines ++ [""; "---"; "Prepared by: Deepa Rao"; "Sustainability Compliance Analyst"] in
  mkEmail (default "sustainability-agent@example.com" (environ !! "SMTP_FROM"))
          (default "recipient@example.com" (environ !! "SMTP_TO"))
          ("Sustainability Regulatory Updates ‚Äì " +:+ today)
          (Py.join Py.nl body_lines).

(** ** The test mail script, [scripts/send_test_email.py] *)

(** [build_test_message]; [ts] is [datetime.now(UTC).strftime(...)]. *)
Definition build_test_message (environ : gmap string string) (ts : string)
  : Email :=
  let sender :=
    default (default "sustainability-agent@example.com" (environ !! "SMTP_USER"))
            (environ !! "SMTP_FROM") in
  let recipient := default "recipient@example.com" (environ !! "SMTP_TO") in
  mkEmail sender recipient "Sustainability Agent – Test Email"
    ("This is a test email from Sustainability Agent.

Timestamp: " +:+
     ts +:+
     "
From: " +:+
     sender +:+
     "
To: " +:+
     recipient +:+
     "

If you received this message, SMTP settings are correct.").

(** [ensure_env_or_exit]: the variables that are unset or empty, and
    [SystemExit] when there is one. *)
Definition missing_credentials (environ : gmap string string) : list string :=
  filter (λ k, Py.truthy (environ !! k) = false) required_credentials.

Definition ensure_env_or_exit (environ : gmap string string)
  : unit + Py.exception :=
  let missing := missing_credentials environ in
  if decide (missing ≠ [])
  then inr (Py.Raise "SystemExit"
              ("Missing SMTP environment variables: " +:+
               Py.join ", " missing +:+
               "
Edit scripts/env.ps1 and set these values, then retry."))
  else inl ().

Section TestMail.
Variable smtp :
  string → Z → string → string → pystr → list string → string → smtp_outcome.
(** [message.as_string()] of the [email] package. *)
Variable as_string : Email → string.

(** The message as [send_email] reads it. *)
Definition message_of (e : Email) : Message :=
  mkMessage (Some (email_from e)) (as_string e).

(** [main] of [scripts/send_test_email.py]. *)
Definition send_test_email_main (environ : gmap string string) (ts : string)
  : list event * (unit + Py.exception) :=
  match ensure_env_or_exit environ with
  | inr e => ([], inr e)
  | inl _ =>
      let msg := build_test_message environ ts in
      send_email smtp environ (message_of msg)
  end.
End TestMail.

(** ** The daily task *)

(** [run_daily_task] of [sustainability_agent.py], with [SOURCES] and the
    clock as arguments: the database file afterwards, the console, and the
    text written to [dashboard_path]. *)
Definition run_daily_task (SOURCES : list (string * Producer))
    (now dashboard_path : string) (db : Db unit)
  : Db unit * list string * string :=
  let conn := Basic.initialise_db db in
  let '(printed, items) := gather_updates SOURCES in
  let '(conn, new_items) := Basic.store_updates conn items in
  let page := generate_dashboard now conn in
  (Some conn, printed ++ ["Dashboard saved to " +:+ dashboard_path], page).

(** [run_daily_task] of [sustainability_agent_enhanced.py]; rendering the
    dashboard may raise, after the records are committed. *)
Definition run_daily_task_enhanced (SOURCES : list (string * Producer))
    (now dashboard_path : string) (db : Db ExtCols)
  : Db ExtCols * list string * (string + Py.exception) :=
  let conn := Enhanced.initialise_db db in
  let '(printed, items) := gather_updates SOURCES in
  let '(conn, new_items) := Enhanced.store_updates conn items in
  match generate_professional_dashboard now conn with
  | inl page =>
      (Some conn,
       printed ++ ["Professional dashboard saved to " +:+ dashboard_path],
       inl page)
  | inr e => (Some conn, printed, inr e)
  end.

(** ** Notions used in the statements *)

(** The lines [gather_updates] prints: one per failing source. *)
Definition error_lines (SOURCES : list (string * Producer)) : list string :=
  omap (λ '(name, parser),
          match parser () with
          | inl _ => None
          | inr e => Some ("Error scraping " +:+ name +:+ ": " +:+ Py.exc_msg e)
          end) SOURCES.

(** A row whose impact level is one of the three enumerated values. *)
Definition recognised (row : Row ExtCols) : Prop :=
  c_impact_level (r_ext row) ∈ [Some "High"; Some "Medium"; Some "Low"].

Global Instance recognised_dec row : Decision (recognised row).
Proof. unfold recognised. apply _. Defined.

(** A report says that there is nothing to report: one of these phrases
    occurs in it, in any letter case. *)
Definition no_updates_phrases : list string :=
  ["no update"; "no new"; "no regulat"; "no record"; "no entr"; "no item";
   "no result"; "no data"; "nothing"; "0 update"; "0 regulat"].

Definition has_no_updates_indicator (report : string) : bool :=
  existsb (λ phrase, Py.contains phrase (Py.lower report)) no_updates_phrases.

(** Markup is well formed when its tags nest: every closing tag closes the
    element opened last, and nothing stays open.  The state is the stack of
    open elements and, inside a tag, the text read since its [<]. *)
Definition void_elements : list string :=
  ["meta"; "br"; "hr"; "img"; "input"; "link"].

Fixpoint tag_name (tag : string) : string :=
  match tag with
  | "" => ""
  | String c rest =>
      if Py.isspace c || bool_decide (c = "/"%char) then ""
      else String c (tag_name rest)
  end.

Definition tag_close (tag : string) (stack : list string)
  : option (list string) :=
  match tag with
  | String "!" _ => Some stack
  | String "/" name =>
      match stack with
      | top :: stack' => if decide (top = name) then Some stack' else None
      | [] => None
      end
  | _ =>
      if decide (tag_name tag ∈ void_elements) then Some stack
      else Some (tag_name tag :: stack)
  end.

Definition tag_state : Type := option (list string * option string).

Definition tag_step (st : tag_state) (c : ascii) : tag_state :=
  match st with
  | None => None
  | Some (stack, None) =>
      if decide (c = "<"%char) then Some (stack, Some "") else st
  | Some (stack, Some tag) =>
      if decide (c = ">"%char)
      then (λ stack', (stack', None)) <$> tag_close tag stack
      else Some (stack, Some (tag +:+ String c ""))
  end.

Fixpoint tag_run (st : tag_state) (s : string) : tag_state :=
  match s with
  | "" => st
  | String c s' => tag_run (tag_step st c) s'
  end.

Definition tags_balanced (s : string) : bool :=
  bool_decide (tag_run (Some ([], None)) s = Some ([], None)).

(** [c] occurs in [s]. *)
Fixpoint has_char (c : ascii) (s : string) : bool :=
  match s with
  | "" => false
  | String c' s' => bool_decide (c' = c) || has_char c s'
  end.

(** What the chain of three replacements does to one character. *)
Definition escape_char (c : ascii) : string :=
  if decide (c = "&"%char) then "&amp;"
  else if decide (c = "<"%char) then "&lt;"
  else if decide (c = ">"%char) then "&gt;"
  else String c "".

(** ** Sample data *)

(** The record of the specification's example scenario, and variations. *)
Definition sample_eu : UpdateItem :=
  UpdateItem5 (Some "EU") (Some "X") (Some "http://a") (Some "2025-01-01")
              (Some "s").

Definition sample_ifrs : UpdateItem :=
  UpdateItem5 (Some "IFRS") (Some "IFRS S1") (Some "http://b")
              (Some "2025-02-01") (Some "t").

(** [sample_eu] with its title in lower case. *)
Definition sample_eu_lower : UpdateItem :=
  UpdateItem5 (Some "EU") (Some "x") (Some "http://a") (Some "2025-01-01")
              (Some "s").

(** A record without a date. *)
Definition sample_no_date : UpdateItem :=
  UpdateItem5 (Some "UK") (Some "Y") (Some "http://c") None (Some "u").

(** A record whose title carries markup. *)
Definition sample_markup_title : UpdateItem :=
  UpdateItem5 (Some "EU") (Some "<script>alert(1)</script>") (Some "http://a")
              (Some "2025-01-01") (Some "s").

(** A record whose sector names carry markup. *)
Definition sample_markup_sector : UpdateItem :=
  mkUpdateItem (Some "EU") (Some "X") (Some "http://a") (Some "2025-01-01")
               (Some "s") (Some "") (Some "") (Some "")
               (Some "") (Some "High") (Some "<b>Banks</b>, Tech") (Some "EU").

(** A record whose title carries markup and whose deadline lies in 2026, so
    that the title also shows in the list of upcoming deadlines. *)
Definition sample_markup_deadline : UpdateItem :=
  mkUpdateItem (Some "EU") (Some "<script>alert(1)</script>")
               (Some "http://a") (Some "2025-01-01")
               (Some "s") (Some "") (Some "") (Some "June 2026")
               (Some "") (Some "High") (Some "") (Some "EU").

Definition sample_clock : string := "2025-11-04 10:00 UTC".
Definition sample_clock_long : string := "November 04, 2025 at 10:00 UTC".

(** An environment in which [SMTP_PORT] is not a number and every other
    variable is unset. *)
Definition sample_environ : gmap string string := {[ "SMTP_PORT" := "abc" ]}.

(** An environment with every variable set. *)
Definition sample_environ_full : gmap string string :=
  <[ "SMTP_HOST" := "smtp.example.com" ]>
  (<[ "SMTP_PORT" := "587" ]>
  (<[ "SMTP_USER" := "agent" ]>
  (<[ "SMTP_PASSWORD" := "secret" ]>
  {[ "SMTP_TO" := "a@example.com,b@example.com" ]}))).

Definition sample_message : Message :=
  mkMessage (Some "sustainability-agent@example.com") "Subject: test".

(** ** Further notions used in the statements *)

(** The row holds the values of the record's fields. *)
Definition stored_as {E} (ext : UpdateItem → E) (row : Row E)
    (item : UpdateItem) : Prop :=
  source item = Some (r_source row) ∧ title item = Some (r_title row) ∧
  link item = Some (r_link row) ∧ date item = Some (r_date row) ∧
  summary item = Some (r_summary row) ∧ r_ext row = ext item.

(** The table after [store conn items]: the rows of [conn], then one row
    for each returned record, in order and with its values. *)
Definition appends_returned {E} (ext : UpdateItem → E)
    (store : list (Row E) → list UpdateItem → list (Row E) * list UpdateItem)
    (conn : list (Row E)) (items : list UpdateItem) : Prop :=
  ∃ new_rows,
    (store conn items).1 = conn ++ new_rows ∧
    Forall2 (stored_as ext) new_rows (store conn items).2.

(** What [store conn items] returns: sound records with pairwise distinct
    keys, none of which was stored before. *)
Definition returns_fresh {E}
    (store : list (Row E) → list UpdateItem → list (Row E) * list UpdateItem)
    (conn : list (Row E)) (items : list UpdateItem) : Prop :=
  Forall well_formed (store conn items).2 ∧
  NoDup (item_key <$> (store conn items).2) ∧
  ∀ item k, item ∈ (store conn items).2 → item_key item = Some k →
            k ∉ table_keys conn.

(** One call on [xs ++ ys] does what a call on [xs] followed by a call on
    [ys] does. *)
Definition splits_over_batches {E}
    (store : list (Row E) → list UpdateItem → list (Row E) * list UpdateItem)
    (conn : list (Row E)) (xs ys : list UpdateItem) : Prop :=
  (store conn (xs ++ ys)).1 = (store (store conn xs).1 ys).1 ∧
  (store conn (xs ++ ys)).2 = (store conn xs).2 ++ (store (store conn xs).1 ys).2.

(** Row ids count up from one in insertion order. *)
Definition ids_count_up {E} (conn : list (Row E)) : Prop :=
  r_id <$> conn = seqZ 1 (Z.of_nat (length conn)).

(** Reading [s] with the elements [before] open leaves [after] open. *)
Definition fragment (before after : list string) (s : string) : Prop :=
  tag_run (Some (before, None)) s = Some (after, None).

(** A row whose source and date hold no [<] and whose link holds no [>]:
    the fields [generate_html_email] embeds as they are. *)
Definition plain_row {E} (row : Row E) : Prop :=
  has_char "<" (r_source row) = false ∧ has_char "<" (r_date row) = false ∧
  has_char ">" (r_link row) = false.

(** A row that [generate_dashboard] can embed: its title holds no [<]
    either. *)
Definition plain_titled_row {E} (row : Row E) : Prop :=
  plain_row row ∧ has_char "<" (r_title row) = false.

(** The elements open while [generate_dashboard] writes its rows: inside a
    source's table when a source is current. *)
Definition dashboard_open (outer : list string)
    (current_source : option string) : list string :=
  match current_source with
  | Some _ => "tbody" :: "table" :: outer
  | None => outer
  end.

(** A row whose impact level is not [NULL]. *)
Definition has_impact_level (row : Row ExtCols) : Prop :=
  c_impact_level (r_ext row) ≠ None.

(** [source_counts] of [generate_professional_dashboard]: the dict built
    by the loop over the rows. *)
Definition source_counts (rows : list (Row ExtCols)) : list (string * nat) :=
  foldl (λ counts row, count_source (r_source row) counts) [] rows.

(** [source_counts.get(source, 0)] *)
Fixpoint counts_get (source : string) (source_counts : list (string * nat))
  : nat :=
  match source_counts with
  | [] => 0%nat
  | (s, count) :: rest =>
      if decide (s = source) then count else counts_get source rest
  end.

(** [piece] occurs in [page]. *)
Definition occurs_in (piece page : string) : Prop :=
  ∃ before after, page = before +:+ piece +:+ after.

(** What the three digests of the basic pipeline write for one row: the
    first lines of its entry in the plain-text digest, its table row in the
    dashboard, its card in the HTML digest. *)
Definition plain_text_entry {E} (row : Row E) : list string :=
  ["📋 " +:+ r_title row;
   "   Date: " +:+ r_date row;
   "   Link: " +:+ r_link row;
   ""].

Definition dashboard_entry {E} (row : Row E) : string :=
  "<tr><td>" +:+ r_date row +:+ "</td>" +:+
  "<td><a href='" +:+ r_link row +:+ "' target='_blank'>" +:+ r_title row +:+
  "</a></td>" +:+
  "<td>" +:+ escape_html (r_summary row) +:+ "</td></tr>".

Definition html_email_entry {E} (row : Row E) : list string :=
  [Py.q "<div class=`update-item`>";
   Py.q "<div class=`update-title`>" +:+ escape_html (r_title row) +:+ "</div>";
   Py.q "<div class=`update-meta`>📅 " +:+ r_date row +:+ "</div>";
   Py.q "<div class=`update-summary`>" +:+ escape_html (r_summary row) +:+
   "</div>";
   Py.q "<a href=`" +:+ r_link row +:+
   Py.q "` class=`update-link` target=`_blank`>Read More →</a>";
   "</div>"].

(** A string of white space only, as the indentation of a wrapped line. *)
Fixpoint blank (s : string) : bool :=
  match s with
  | "" => true
  | String c s' => Py.isspace c && blank s'
  end.

(** A word of [split]: not empty, no white space in it. *)
Fixpoint spaceless (s : string) : bool :=
  match s with
  | "" => true
  | String c s' => negb (Py.isspace c) && spaceless s'
  end.

Definition is_word (w : string) : Prop := w ≠ "" ∧ spaceless w = true.

(** The lines [compose_email] writes for one record, in the basic and in
    the enhanced agent. *)
Definition mail_entry (item : UpdateItem) : list string :=
  ["* **" +:+ Py.fmt (title item) +:+ "** (" +:+ Py.fmt (source item) +:+
   ", " +:+ Py.fmt (date item) +:+ ")";
   "  " +:+ Py.fmt (summary item);
   "  Link: " +:+ Py.fmt (link item);
   ""].

Definition mail_entry_enhanced (item : UpdateItem) : list string :=
  ["* **" +:+ Py.fmt (title item) +:+ "** (" +:+ Py.fmt (source item) +:+
   ", " +:+ Py.fmt (jurisdiction item) +:+ ")";
   "  Impact: " +:+ Py.fmt (impact_level item)] ++
  (if Py.truthy (compliance_deadline item)
   then ["  Deadline: " +:+ Py.fmt (compliance_deadline item)] else []) ++
  ["  " +:+ Py.fmt (summary item);
   "  Link: " +:+ Py.fmt (link item);
   ""].

(** The [ORDER BY] of the two digests and the one of the dashboard. *)
Definition by_source_then_date {E} (a b : Row E) : comparison :=
  and_then (cmp_text (r_source a) (r_source b))
           (desc (cmp_text (r_date a) (r_date b))).

Definition by_date_desc {E} (a b : Row E) : comparison :=
  desc (cmp_text (r_date a) (r_date b)).

(** The rows in runs of consecutive rows with the same source, as the
    loops of the digests meet them: [current_source] changes between two
    runs and nowhere else. *)
Fixpoint source_runs {E} (rows : list (Row E))
  : list (string * list (Row E)) :=
  match rows with
  | [] => []
  | row :: rest =>
      match source_runs rest with
      | (s, run) :: runs =>
          if decide (r_source row = s) then (s, row :: run) :: runs
          else (r_source row, [row]) :: (s, run) :: runs
      | [] => [(r_source row, [row])]
      end
  end.

(** The lines of one section: what opens it, the entries of its rows, what
    closes it. *)
Definition section_lines {E} (opening : string → list string)
    (closing : list string) (entry : Row E → list string)
    (section : string * list (Row E)) : list string :=
  opening section.1 ++ concat (entry <$> section.2) ++ closing.

(** The sections of the HTML digest, of the dashboard and of the
    plain-text digest. *)
Definition html_email_section {E} : string * list (Row E) → list string :=
  section_lines (λ source, ["<h2>" +:+ source +:+ "</h2>"]) []
    html_email_entry.

Definition dashboard_section {E} : string * list (Row E) → list string :=
  section_lines
    (λ source,
       ["<h2>" +:+ source +:+ "</h2>";
        "<table><thead><tr><th>Date</th><th>Title</th>" +:+
        "<th>Description</th></tr></thead><tbody>"])
    ["</tbody></table>"]
    (λ row, [dashboard_entry row]).

Definition plain_text_section {E} : string * list (Row E) → list string :=
  section_lines
    (λ source, [Py.mul "-" 80; "SOURCE: " +:+ source; Py.mul "-" 80; ""])
    [""]
    (λ row, plain_text_entry row ++ wrap_summary "   " 80 (r_summary row) ++
            [""]).

(** A later record of the source of [sample_eu]. *)
Definition sample_eu_later : UpdateItem :=
  UpdateItem5 (Some "EU") (Some "Z") (Some "http://d") (Some "2025-03-01")
              (Some "v").

(** * Properties *)

(** ** The store *)

Lemma well_formed_fields item :
  well_formed item ↔
  ∃ s t l d sm, source item = Some s ∧ title item = Some t ∧
    link item = Some l ∧ date item = Some d ∧ summary item = Some sm.
Proof.
  unfold well_formed, first_null, not_null_columns. cbn.
  destruct (source item) as [s|] eqn:Hs, (title item) as [t|] eqn:Ht,
    (link item) as [l|] eqn:Hl, (date item) as [d|] eqn:Hd,
    (summary item) as [sm|] eqn:Hsm; cbn.
  all: repeat (rewrite ?Hs, ?Ht, ?Hl, ?Hd, ?Hsm; cbn;
               rewrite ?decide_True by done;
               rewrite ?decide_False by done; cbn).
  all: split; [intros ?|intros (?&?&?&?&?&?&?&?&?&?)]; simplify_eq;
    eauto 10.
Qed.

Lemma well_formed_key item :
  well_formed item → ∃ k, item_key item = Some k.
Proof.
  intros (s&t&l&d&sm&Hs&Ht&Hl&_)%well_formed_fields.
  exists (s, t, l). unfold item_key. by rewrite Hs, Ht, Hl.
Qed.

Section TableFacts.
Context {E : Type}.
Variable ext : UpdateItem → E.
Implicit Types (conn : list (Row E)) (item : UpdateItem)
  (items : list UpdateItem) (k : Key).

(** The three outcomes of one [INSERT]. *)
Lemma execute_insert_malformed conn item :
  ¬ well_formed item →
  ∃ msg, execute_insert ext conn item = inr (IntegrityError msg).
Proof.
  intros Hwf. unfold execute_insert.
  destruct (source item) eqn:?, (title item) eqn:?, (link item) eqn:?,
    (date item) eqn:?, (summary item) eqn:?; eauto.
  destruct Hwf. apply well_formed_fields. eauto 10.
Qed.

Lemma execute_insert_duplicate conn item k :
  well_formed item → item_key item = Some k → k ∈ table_keys conn →
  ∃ msg, execute_insert ext conn item = inr (IntegrityError msg).
Proof.
  intros (s&t&l&d&sm&Hs&Ht&Hl&Hd&Hsm)%well_formed_fields Hk Hin.
  unfold item_key in Hk. rewrite Hs, Ht, Hl in Hk. simplify_eq/=.
  unfold execute_insert. rewrite Hs, Ht, Hl, Hd, Hsm.
  rewrite decide_True by done. eauto.
Qed.

Lemma execute_insert_fresh conn item k :
  well_formed item → item_key item = Some k → k ∉ table_keys conn →
  ∃ r, execute_insert ext conn item = inl (conn ++ [r]) ∧ row_key r = k ∧
       r_id r = next_id conn ∧ r_ext r = ext item ∧
       date item = Some (r_date r) ∧ summary item = Some (r_summary r).
Proof.
  intros (s&t&l&d&sm&Hs&Ht&Hl&Hd&Hsm)%well_formed_fields Hk Hin.
  unfold item_key in Hk. rewrite Hs, Ht, Hl in Hk. simplify_eq/=.
  unfold execute_insert. rewrite Hs, Ht, Hl, Hd, Hsm.
  rewrite decide_False by done. eauto 10.
Qed.

(** Every successful [INSERT] appends one row carrying the item's key,
    which was not stored before. *)
Lemma execute_insert_inl conn item conn' :
  execute_insert ext conn item = inl conn' →
  ∃ k r, well_formed item ∧ item_key item = Some k ∧
         (k ∉ table_keys conn) ∧ conn' = conn ++ [r] ∧ row_key r = k.
Proof.
  unfold execute_insert. intros Hex.
  destruct (source item) as [s|] eqn:Hs, (title item) as [t|] eqn:Ht,
    (link item) as [l|] eqn:Hl, (date item) as [d|] eqn:Hd,
    (summary item) as [sm|] eqn:Hsm; try done.
  case_decide; simplify_eq.
  eexists (s, t, l), _. split_and!; [|by unfold item_key; rewrite Hs, Ht, Hl|done..].
  apply well_formed_fields. eauto 10.
Qed.

(** The accumulator of the loop only grows at its end. *)
Lemma store_loop_acc conn acc items :
  store_loop ext conn acc items =
  ((store_updates ext conn items).1, acc ++ (store_updates ext conn items).2).
Proof.
  unfold store_updates. revert conn acc.
  induction items as [|item rest IH]; intros conn acc; cbn.
  { by rewrite app_nil_r. }
  destruct (execute_insert ext conn item) as [conn'|[msg]].
  - rewrite (IH conn' (acc ++ [item])), (IH conn' [item]).
    cbn. by rewrite <- app_assoc.
  - apply IH.
Qed.

Lemma store_updates_nil conn : store_updates ext conn [] = (conn, []).
Proof. done. Qed.

Lemma store_updates_cons conn item rest :
  store_updates ext conn (item :: rest) =
  match execute_insert ext conn item with
  | inl conn' =>
      ((store_updates ext conn' rest).1,
       item :: (store_updates ext conn' rest).2)
  | inr _ => store_updates ext conn rest
  end.
Proof.
  unfold store_updates at 1. cbn.
  destruct (execute_insert ext conn item) as [conn'|[msg]]; [|done].
  by rewrite store_loop_acc.
Qed.

Lemma store_updates_app conn xs ys :
  store_updates ext conn (xs ++ ys) =
  let r1 := store_updates ext conn xs in
  let r2 := store_updates ext r1.1 ys in
  (r2.1, r1.2 ++ r2.2).
Proof.
  revert conn. induction xs as [|x xs IH]; intros conn.
  { rewrite app_nil_l, store_updates_nil. cbn.
    by destruct (store_updates ext conn ys). }
  rewrite <- app_comm_cons, !store_updates_cons.
  destruct (execute_insert ext conn x) as [conn'|e]; [|apply IH].
  rewrite IH. done.
Qed.

(** A malformed record leaves no trace in the run. *)
Lemma store_updates_skip_malformed conn item rest :
  ¬ well_formed item →
  store_updates ext conn (item :: rest) = store_updates ext conn rest.
Proof.
  intros [msg Hm]%(execute_insert_malformed conn).
  by rewrite store_updates_cons, Hm.
Qed.

(** The stored keys after a run: the old ones followed by those of the
    returned records. *)
Lemma store_updates_keys conn items :
  Some <$> table_keys (store_updates ext conn items).1 =
  (Some <$> table_keys conn) ++ (item_key <$> (store_updates ext conn items).2).
Proof.
  revert conn. induction items as [|item rest IH]; intros conn.
  { rewrite store_updates_nil. cbn. by rewrite app_nil_r. }
  rewrite store_updates_cons.
  destruct (execute_insert ext conn item) as [conn'|e] eqn:Hex; [|apply IH].
  apply execute_insert_inl in Hex as (k&r&Hwf&Hk&Hnin&->&Hr).
  cbn [fst snd]. rewrite IH. unfold table_keys.
  rewrite !fmap_app, !fmap_cons, <- app_assoc. cbn [fmap list_fmap app].
  by rewrite Hr, Hk.
Qed.

Lemma store_updates_rows_prefix conn items :
  conn `prefix_of` (store_updates ext conn items).1.
Proof.
  revert conn. induction items as [|item rest IH]; intros conn.
  { done. }
  rewrite store_updates_cons.
  destruct (execute_insert ext conn item) as [conn'|e] eqn:Hex; [|apply IH].
  apply execute_insert_inl in Hex as (k&r&Hwf&Hk&Hnin&->&Hr). cbn.
  etrans; [|apply IH]. by apply prefix_app_r.
Qed.

Lemma store_updates_keys_mono conn items k :
  k ∈ table_keys conn → k ∈ table_keys (store_updates ext conn items).1.
Proof.
  destruct (store_updates_rows_prefix conn items) as [tail ->].
  unfold table_keys. rewrite fmap_app, elem_of_app. auto.
Qed.

(** [store_updates] against the specification's [insert_all]. *)
Lemma store_updates_refines conn items :
  Forall well_formed items →
  (store_updates ext conn items).2 =
  insert_all_spec (list_to_set (table_keys conn)) items.
Proof.
  intros Hwf. revert conn.
  induction Hwf as [|item rest Hitem _ IH]; intros conn; [done|].
  rewrite store_updates_cons. cbn.
  destruct (well_formed_key _ Hitem) as [k Hk]. rewrite Hk.
  destruct (decide (k ∈ table_keys conn)) as [Hin|Hnin].
  - destruct (execute_insert_duplicate conn item k) as [msg ->]; [done..|].
    rewrite decide_True by by apply elem_of_list_to_set. apply IH.
  - destruct (execute_insert_fresh conn item k) as (r&->&Hr&_); [done..|].
    rewrite decide_False by by rewrite elem_of_list_to_set.
    cbn [fst snd]. f_equal.
    rewrite IH. f_equal. unfold table_keys.
    rewrite fmap_app, list_to_set_app_L. cbn.
    rewrite Hr, (right_id_L ∅ (∪)). apply (comm_L (∪)).
Qed.

Lemma insert_all_spec_sublist stored items :
  insert_all_spec stored items `sublist_of` items.
Proof.
  revert stored. induction items as [|item rest IH]; intros stored; cbn.
  { done. }
  destruct (item_key item) as [k|]; [|by apply sublist_cons].
  case_decide; [by apply sublist_cons|by apply sublist_skip].
Qed.

Lemma store_updates_sublist conn items :
  (store_updates ext conn items).2 `sublist_of` items.
Proof.
  revert conn. induction items as [|item rest IH]; intros conn; [done|].
  rewrite store_updates_cons.
  destruct (execute_insert ext conn item) as [conn'|e]; cbn.
  - by apply sublist_skip.
  - by apply sublist_cons.
Qed.

(** [UNIQUE(source, title, link)] is kept by every operation. *)
Lemma execute_insert_unique conn item conn' :
  unique_keys conn → execute_insert ext conn item = inl conn' →
  unique_keys conn'.
Proof.
  intros Hnd (k&r&_&_&Hnin&->&Hr)%execute_insert_inl.
  unfold unique_keys, table_keys in *. rewrite fmap_app. cbn.
  apply NoDup_app. split_and!; [done| |apply NoDup_singleton].
  intros x Hx ->%list_elem_of_singleton. by rewrite Hr in Hx.
Qed.

Lemma store_updates_unique conn items :
  unique_keys conn → unique_keys (store_updates ext conn items).1.
Proof.
  revert conn. induction items as [|item rest IH]; intros conn Hnd; [done|].
  rewrite store_updates_cons.
  destruct (execute_insert ext conn item) as [conn'|e] eqn:Hex; cbn.
  - eapply IH, execute_insert_unique; eauto.
  - by apply IH.
Qed.

Lemma run_ops_unique db ops :
  from_option unique_keys True db →
  from_option unique_keys True (run_ops ext db ops).
Proof.
  unfold run_ops. revert db.
  induction ops as [|op ops IH]; intros db Hdb; [done|]. cbn.
  apply IH. destruct op as [|items]; cbn.
  - destruct db; cbn in *; [done|apply NoDup_nil_2].
  - destruct db; cbn in *; [|done]. by apply store_updates_unique.
Qed.

(** Running the same batch again changes nothing and returns nothing. *)
Lemma store_updates_all_stored conn items :
  (∀ item, item ∈ items → well_formed item →
     ∃ k, item_key item = Some k ∧ k ∈ table_keys conn) →
  store_updates ext conn items = (conn, []).
Proof.
  induction items as [|item rest IH]; intros Hall; [done|].
  rewrite store_updates_cons.
  destruct (execute_insert ext conn item) as [conn'|e] eqn:Hex.
  - apply execute_insert_inl in Hex as (k&r&Hwf&Hk&Hnin&_).
    destruct (Hall item) as (k'&?&?); [set_solver|done|]. by simplify_eq.
  - apply IH. intros ???. apply Hall; set_solver.
Qed.

Lemma store_updates_stores_all conn items item :
  item ∈ items → well_formed item →
  ∃ k, item_key item = Some k ∧
       k ∈ table_keys (store_updates ext conn items).1.
Proof.
  intros Hin Hwf. destruct (well_formed_key _ Hwf) as [k Hk].
  exists k. split; [done|]. revert conn.
  induction items as [|x rest IH]; intros conn; [set_solver|].
  rewrite store_updates_cons.
  apply elem_of_cons in Hin as [<-|Hin].
  - destruct (decide (k ∈ table_keys conn)) as [Hk'|Hk'].
    + destruct (execute_insert_duplicate conn item k) as [msg ->]; [done..|].
      by apply store_updates_keys_mono.
    + destruct (execute_insert_fresh conn item k) as (r&->&Hr&_); [done..|].
      cbn [fst]. apply store_updates_keys_mono. unfold table_keys.
      rewrite fmap_app, elem_of_app. right. cbn. rewrite Hr.
      apply list_elem_of_singleton. done.
  - destruct (execute_insert ext conn x); cbn; by apply IH.
Qed.

Lemma store_updates_idem conn items :
  store_updates ext (store_updates ext conn items).1 items =
  ((store_updates ext conn items).1, []).
Proof.
  apply store_updates_all_stored. intros item Hin Hwf.
  by apply store_updates_stores_all.
Qed.

(** Where a record of the batch ends up: it is returned exactly when its
    key is not in the table at that moment. *)
Lemma store_updates_snoc conn pre item k :
  well_formed item → item_key item = Some k →
  (store_updates ext conn (pre ++ [item])).2 =
  (store_updates ext conn pre).2 ++
  (if decide (k ∈ table_keys (store_updates ext conn pre).1) then [] else [item]).
Proof.
  intros Hwf Hk. rewrite store_updates_app. cbn [fst snd]. f_equal.
  rewrite store_updates_cons, store_updates_nil.
  case_decide as Hin.
  - by destruct (execute_insert_duplicate _ item k Hwf Hk Hin) as [msg ->].
  - by destruct (execute_insert_fresh _ item k Hwf Hk Hin) as (r&->&_).
Qed.

(** A record whose key is neither stored nor carried by an earlier
    well-formed record of the batch is inserted and returned. *)
Lemma store_updates_inserts_fresh conn xs item ys k :
  well_formed item → item_key item = Some k → k ∉ table_keys conn →
  (∀ x, x ∈ xs → well_formed x → item_key x ≠ Some k) →
  item ∈ (store_updates ext conn (xs ++ item :: ys)).2 ∧
  k ∈ table_keys (store_updates ext conn (xs ++ item :: ys)).1.
Proof.
  intros Hwf Hk Hnin Hxs.
  assert (k ∉ table_keys (store_updates ext conn xs).1) as Hfresh.
  { intros Hin.
    assert (Some k ∈ Some <$> table_keys (store_updates ext conn xs).1)
      as Hin' by by apply list_elem_of_fmap_2.
    rewrite store_updates_keys, elem_of_app in Hin'.
    destruct Hin' as [Hin'|Hin'].
    - apply list_elem_of_fmap in Hin' as (k'&?&?). by simplify_eq.
    - apply list_elem_of_fmap in Hin' as (x&Hx&Hxin).
      assert (x ∈ xs) as Hxin'.
      { eapply elem_of_sublist; [done|apply store_updates_sublist]. }
      apply (Hxs x Hxin'); [|done].
      clear -Hxin. revert conn Hxin.
      induction xs as [|y xs IH]; intros conn Hxin.
      { rewrite store_updates_nil in Hxin. by apply elem_of_nil in Hxin. }
      rewrite store_updates_cons in Hxin.
      destruct (execute_insert ext conn y) as [conn'|e] eqn:Hex; [|eauto].
      cbn [snd] in Hxin. apply elem_of_cons in Hxin as [->|Hxin]; [|eauto].
      by apply execute_insert_inl in Hex as (?&?&?&_). }
  rewrite store_updates_app. cbn [fst snd].
  rewrite store_updates_cons.
  destruct (execute_insert_fresh _ item k Hwf Hk Hfresh) as (r&->&Hr&_).
  cbn [fst snd]. split.
  - rewrite elem_of_app. right. apply elem_of_cons. by left.
  - apply store_updates_keys_mono. unfold table_keys.
    rewrite fmap_app, elem_of_app. right. cbn. rewrite Hr.
    by apply list_elem_of_singleton.
Qed.

Lemma store_updates_drop_malformed conn pre bad post :
  ¬ well_formed bad →
  store_updates ext conn (pre ++ bad :: post) =
  store_updates ext conn (pre ++ post).
Proof.
  intros Hbad. rewrite !store_updates_app. cbn [fst snd].
  by rewrite store_updates_skip_malformed.
Qed.

Lemma store_updates_exact conn items :
  Forall well_formed items →
  returns_newly_inserted (store_updates ext) conn items.
Proof.
  intros Hwf. split_and!.
  - by apply store_updates_refines.
  - apply store_updates_sublist.
  - intros pre item post ->.
    apply Forall_app in Hwf as [_ [Hitem _]%Forall_cons].
    destruct (well_formed_key _ Hitem) as [k Hk]. exists k.
    split; [done|]. by apply store_updates_snoc.
Qed.

(** Records that lack a required field leave no trace. *)
Lemma store_updates_filter conn items :
  store_updates ext conn items =
  store_updates ext conn (filter well_formed items).
Proof.
  revert conn. induction items as [|item rest IH]; intros conn; [done|].
  rewrite filter_cons. destruct (decide (well_formed item)) as [Hwf|Hwf].
  - rewrite !store_updates_cons.
    destruct (execute_insert ext conn item) as [conn'|e]; by rewrite IH.
  - by rewrite store_updates_skip_malformed.
Qed.

Lemma store_updates_exact_any conn items :
  returns_sound_newly_inserted (store_updates ext) conn items.
Proof.
  split_and!.
  - rewrite store_updates_filter. apply store_updates_refines.
    apply Forall_forall. by intros item [Hwf _]%list_elem_of_filter.
  - apply store_updates_sublist.
  - intros pre item post _.
    destruct (decide (well_formed item)) as [Hwf|Hwf].
    + destruct (well_formed_key _ Hwf) as [k Hk]. rewrite Hk.
      rewrite (store_updates_snoc conn pre item k) by done.
      f_equal. repeat case_decide; naive_solver.
    + rewrite store_updates_app. cbn [fst snd].
      rewrite store_updates_skip_malformed, store_updates_nil by done.
      cbn [snd]. f_equal.
      destruct (item_key item) as [k|]; [|done].
      rewrite decide_False; [done|]. by intros [? _].
  - apply store_updates_exact.
Qed.

Lemma store_updates_tolerates_malformed conn pre bad post :
  ¬ well_formed bad →
  survives_malformed (store_updates ext) conn pre bad post.
Proof.
  intros Hbad. split.
  - by apply store_updates_drop_malformed.
  - intros post1 item post2 k -> Hwf Hk Hnin Hfresh.
    rewrite store_updates_drop_malformed by done.
    rewrite (assoc_L (++) pre post1).
    by apply store_updates_inserts_fresh.
Qed.

Lemma store_updates_two_distinct conn a b ka kb :
  well_formed a → well_formed b →
  item_key a = Some ka → item_key b = Some kb → ka ≠ kb →
  ka ∉ table_keys conn → kb ∉ table_keys conn →
  stores_both (store_updates ext) conn a b ka kb.
Proof.
  intros Ha Hb Hka Hkb Hne Hna Hnb. unfold stores_both.
  rewrite store_updates_cons.
  destruct (execute_insert_fresh conn a ka) as (ra&->&Hra&_); [done..|].
  rewrite store_updates_cons.
  assert (kb ∉ table_keys (conn ++ [ra])) as Hnb'.
  { unfold table_keys. rewrite fmap_app, elem_of_app. cbn. rewrite Hra.
    intros [?|?%list_elem_of_singleton]; by simplify_eq. }
  destruct (execute_insert_fresh (conn ++ [ra]) b kb) as (rb&->&Hrb&_);
    [done..|].
  rewrite store_updates_nil. cbn [fst snd]. split; [done|].
  unfold table_keys. rewrite !fmap_app, <- app_assoc. cbn.
  by rewrite Hra, Hrb.
Qed.
(** A successful [INSERT] appends the row that holds the record. *)
Lemma execute_insert_inl_row conn item conn' :
  execute_insert ext conn item = inl conn' →
  ∃ r, conn' = conn ++ [r] ∧ stored_as ext r item ∧ r_id r = next_id conn.
Proof.
  unfold execute_insert. intros Hex.
  destruct (source item) as [s|] eqn:Hs, (title item) as [t|] eqn:Ht,
    (link item) as [l|] eqn:Hl, (date item) as [d|] eqn:Hd,
    (summary item) as [sm|] eqn:Hsm; try done.
  case_decide; simplify_eq. eexists. split; [done|].
  unfold stored_as. cbn. by rewrite Hs, Ht, Hl, Hd, Hsm.
Qed.

Lemma store_updates_appends_returned conn items :
  appends_returned ext (store_updates ext) conn items.
Proof.
  unfold appends_returned. revert conn.
  induction items as [|item rest IH]; intros conn.
  { exists []. rewrite store_updates_nil, app_nil_r. by split. }
  rewrite store_updates_cons.
  destruct (execute_insert ext conn item) as [conn'|e] eqn:Hex; [|apply IH].
  apply execute_insert_inl_row in Hex as (r&->&Hr&_).
  destruct (IH (conn ++ [r])) as (new_rows&Hrows&Hall).
  exists (r :: new_rows). cbn [fst snd]. split.
  - by rewrite Hrows, <- app_assoc.
  - by constructor.
Qed.

Lemma store_updates_returns_fresh conn items :
  returns_fresh (store_updates ext) conn items.
Proof.
  unfold returns_fresh. revert conn.
  induction items as [|item rest IH]; intros conn.
  { rewrite store_updates_nil. cbn. split_and!; [done|apply NoDup_nil_2|].
    intros ?? []%elem_of_nil. }
  rewrite store_updates_cons.
  destruct (execute_insert ext conn item) as [conn'|e] eqn:Hex; [|apply IH].
  apply execute_insert_inl in Hex as (k&r&Hwf&Hk&Hnin&->&Hr).
  destruct (IH (conn ++ [r])) as (Hall&Hnd&Hfresh). cbn [fst snd].
  assert (∀ item' k', item' ∈ (store_updates ext (conn ++ [r]) rest).2 →
            item_key item' = Some k' → (k' ∉ table_keys conn) ∧ k' ≠ k) as Hout.
  { intros item' k' Hin Hk'. specialize (Hfresh item' k' Hin Hk').
    unfold table_keys in Hfresh. rewrite fmap_app, elem_of_app in Hfresh.
    cbn in Hfresh. rewrite Hr in Hfresh. split; [tauto|].
    intros ->. apply Hfresh. right. apply list_elem_of_here. }
  split_and!.
  - by constructor.
  - rewrite fmap_cons. apply NoDup_cons. split; [|done].
    intros (item'&Hk'&Hin)%list_elem_of_fmap. rewrite Hk in Hk'.
    by destruct (Hout item' k Hin).
  - intros item' k' [->|Hin]%elem_of_cons Hk'.
    + by simplify_eq.
    + by destruct (Hout item' k' Hin Hk').
Qed.

Lemma store_updates_splits conn xs ys :
  splits_over_batches (store_updates ext) conn xs ys.
Proof. unfold splits_over_batches. by rewrite store_updates_app. Qed.

Lemma next_id_count_up conn :
  ids_count_up conn → next_id conn = Z.of_nat (length conn) + 1.
Proof.
  unfold ids_count_up, next_id. intros ->. f_equal.
  generalize (length conn). intros n.
  assert (∀ m, 0 ≤ m → foldr Z.max 0 (seqZ (m + 1) (Z.of_nat n)) =
                        if decide (n = 0%nat) then 0 else m + Z.of_nat n) as H.
  { induction n as [|n IH]; intros m Hm; [done|].
    rewrite Nat2Z.inj_succ, seqZ_cons by lia. cbn [foldr].
    replace (Z.succ (m + 1)) with ((m + 1) + 1) by lia.
    replace (Z.pred (Z.succ (Z.of_nat n))) with (Z.of_nat n) by lia.
    rewrite IH by lia. repeat case_decide; subst; try done; lia. }
  specialize (H 0 ltac:(lia)). change (0 + 1) with 1 in H.
  rewrite H. case_decide; subst; lia.
Qed.

Lemma execute_insert_count_up conn item conn' :
  ids_count_up conn → execute_insert ext conn item = inl conn' →
  ids_count_up conn'.
Proof.
  intros Hids (r&->&_&Hid)%execute_insert_inl_row.
  rewrite next_id_count_up in Hid by done.
  unfold ids_count_up in *. rewrite fmap_app, length_app, Hids. cbn.
  rewrite Nat2Z.inj_add, seqZ_app by lia. f_equal.
  change (Z.of_nat 1) with 1. rewrite seqZ_cons, seqZ_nil by lia.
  rewrite Hid. f_equal. lia.
Qed.

Lemma store_updates_count_up conn items :
  ids_count_up conn → ids_count_up (store_updates ext conn items).1.
Proof.
  revert conn. induction items as [|item rest IH]; intros conn Hids; [done|].
  rewrite store_updates_cons.
  destruct (execute_insert ext conn item) as [conn'|e] eqn:Hex; cbn.
  - eapply IH, execute_insert_count_up; eauto.
  - by apply IH.
Qed.

Lemma run_ops_count_up db ops :
  from_option ids_count_up True db →
  from_option ids_count_up True (run_ops ext db ops).
Proof.
  unfold run_ops. revert db.
  induction ops as [|op ops IH]; intros db Hdb; [done|]. cbn.
  apply IH. destruct op as [|items]; cbn.
  - by destruct db.
  - destruct db; cbn in *; [|done]. by apply store_updates_count_up.
Qed.
End TableFacts.


(** C1, as the specification states it, does not hold for every input
    sequence.  The record [sample_no_date] has no date; its natural key is
    not in the empty store, so the specification's [insert_all] returns
    it.  Both [store_updates] skip it (binding [None] to the [NOT NULL]
    column raises [sqlite3.IntegrityError], which the loop catches): they
    return nothing and store nothing. *)
Lemma fresh_key_record_not_returned :
  item_key sample_no_date = Some ("UK", "Y", "http://c") ∧
  table_keys (Basic.initialise_db None) = [] ∧
  insert_all_spec (list_to_set (table_keys (Basic.initialise_db None)))
    [sample_no_date] = [sample_no_date] ∧
  Basic.store_updates (Basic.initialise_db None) [sample_no_date] = ([], []) ∧
  Enhanced.store_updates (Enhanced.initialise_db None) [sample_no_date] =
    ([], []).
Proof. by vm_compute. Qed.

(** C1, corrected.  For every input sequence, [store_updates] (basic and
    enhanced) returns exactly the records that carry all their required
    fields and whose natural key (source, title, link) is not in the store
    when their turn comes, in the order of the input: the result is what
    the specification's [insert_all] returns on the records that carry
    their required fields, it is a subsequence of the input, and each
    record is appended to the result exactly when it carries its required
    fields and its key is not among the stored keys at that moment.  A
    record whose key is stored, and a record that lacks a required field,
    is skipped and no error reaches the caller.  For a batch of records
    that carry their required fields the result is what the
    specification's [insert_all] returns on the batch itself. *)
Theorem store_updates_returns_newly_inserted (items : list UpdateItem) :
  (∀ conn, returns_sound_newly_inserted Basic.store_updates conn items) ∧
  (∀ conn, returns_sound_newly_inserted Enhanced.store_updates conn items).
Proof. split; intros conn; apply store_updates_exact_any. Qed.

(** C2.  Ingestion is idempotent: after a first run of [store_updates] on
    a fresh database, a second run with the same batch returns no record
    and leaves the table as large as it was (indeed unchanged). *)
Theorem ingestion_idempotent (items : list UpdateItem) :
  let first := Basic.store_updates (Basic.initialise_db None) items in
  let second := Basic.store_updates (Basic.initialise_db (Some first.1)) items in
  second.2 = [] ∧ length second.1 = length first.1 ∧ second.1 = first.1.
Proof.
  cbn zeta. unfold Basic.initialise_db, initialise_db, Basic.store_updates.
  by rewrite store_updates_idem.
Qed.

(** C3.  Natural-key uniqueness is an invariant: after any sequence of
    [initialise_db] and [store_updates] on a fresh database file, no two
    rows of the table share (source, title, link), in the basic and in the
    enhanced schema. *)
Theorem natural_key_unique :
  (∀ ops, from_option unique_keys True (run_ops Basic.ext None ops)) ∧
  (∀ ops, from_option unique_keys True (run_ops Enhanced.ext None ops)).
Proof. split; intros ops; by apply run_ops_unique. Qed.

(** C5.  A malformed record (a required field is missing, that is [None])
    fails its own insert and nothing else: the batch is processed as if
    the record were not in it, and every later well-formed record whose
    key is neither stored nor carried by an earlier well-formed record of
    the batch is inserted and returned. *)
Theorem store_updates_survives_malformed
    (pre : list UpdateItem) (bad : UpdateItem) (post : list UpdateItem) :
  ¬ well_formed bad →
  (∀ conn, survives_malformed Basic.store_updates conn pre bad post) ∧
  (∀ conn, survives_malformed Enhanced.store_updates conn pre bad post).
Proof.
  intros Hbad. split; intros conn; by apply store_updates_tolerates_malformed.
Qed.

(** A record without a date between two sound ones. *)
Lemma store_updates_survives_malformed_witness :
  (¬ well_formed sample_no_date) ∧
  Basic.store_updates [] [sample_eu; sample_no_date; sample_ifrs] =
  Basic.store_updates [] [sample_eu; sample_ifrs].
Proof.
  assert (¬ well_formed sample_no_date) as Hbad by (intros H; discriminate H).
  split; [exact Hbad|].
  exact (proj1 (proj1 (store_updates_survives_malformed
                         [sample_eu] sample_no_date [sample_ifrs] Hbad) [])).
Defined.

(** C9.  Duplicate detection compares the natural key by exact string
    equality: two well-formed records whose keys differ in any character
    (be it only the case of a letter) are both stored and both returned,
    whenever neither key is stored yet. *)
Theorem distinct_keys_both_stored (a b : UpdateItem) (ka kb : Key) :
  well_formed a → well_formed b →
  item_key a = Some ka → item_key b = Some kb → ka ≠ kb →
  (∀ conn, ka ∉ table_keys conn → kb ∉ table_keys conn →
           stores_both Basic.store_updates conn a b ka kb) ∧
  (∀ conn, ka ∉ table_keys conn → kb ∉ table_keys conn →
           stores_both Enhanced.store_updates conn a b ka kb).
Proof.
  intros Ha Hb Hka Hkb Hne.
  split; intros conn Hna Hnb; by apply store_updates_two_distinct.
Qed.

(** Two records whose titles differ in the case of one letter. *)
Lemma distinct_keys_both_stored_witness :
  stores_both Basic.store_updates (Basic.initialise_db None)
    sample_eu sample_eu_lower
    ("EU", "X", "http://a") ("EU", "x", "http://a").
Proof.
  refine (proj1 (distinct_keys_both_stored sample_eu sample_eu_lower
                   ("EU", "X", "http://a") ("EU", "x", "http://a")
                   _ _ _ _ _) [] _ _).
  - reflexivity.
  - reflexivity.
  - reflexivity.
  - reflexivity.
  - intros H; discriminate H.
  - apply not_elem_of_nil.
  - apply not_elem_of_nil.
Defined.

(** ** The feed aggregator *)

Lemma gather_loop_spec printed collected (sources : list (string * Producer)) :
  gather_loop printed collected sources =
  (printed ++ error_lines sources,
   collected ++ concat ((λ entry, contribution entry.2) <$> sources)).
Proof.
  revert printed collected.
  induction sources as [|[name parser] rest IH]; intros printed collected.
  { cbn. by rewrite !app_nil_r. }
  cbn. unfold contribution at 1. cbn.
  destruct (parser ()) as [items|e]; rewrite IH; cbn.
  - by rewrite <- app_assoc.
  - by rewrite <- app_assoc.
Qed.

(** A registry in which every producer but one returns: the result is the
    concatenation of the others' outputs. *)
Lemma gather_updates_one_failure before name parser after e :
  parser () = inr e →
  (gather_updates (before ++ (name, parser) :: after)).2 =
  (gather_updates (before ++ after)).2.
Proof.
  intros Hfail. unfold gather_updates. rewrite !gather_loop_spec. cbn.
  rewrite !fmap_app, !concat_app, fmap_cons, concat_cons. cbn.
  unfold contribution at 2. by rewrite Hfail.
Qed.

(** C4.  [gather_updates] is total (it cannot raise) whatever producers
    raise; it returns the concatenation of the producers' outputs in
    registration order, a failing producer contributing nothing, and it
    prints one line per failing producer. *)
Theorem gather_updates_skips_failures (SOURCES : list (string * Producer)) :
  (gather_updates SOURCES).2 =
    concat ((λ entry, contribution entry.2) <$> SOURCES) ∧
  (gather_updates SOURCES).1 = error_lines SOURCES.
Proof. unfold gather_updates. by rewrite gather_loop_spec. Qed.

(** ** Impact statistics *)

Lemma impact_count_cons level row rows :
  impact_count level (row :: rows) =
  ((if decide (c_impact_level (r_ext row) = Some level) then 1 else 0) +
   impact_count level rows)%nat.
Proof.
  unfold impact_count. rewrite filter_cons. by case_decide.
Qed.

Lemma impact_counts_sum rows :
  (high_impact rows + medium_impact rows + low_impact rows)%nat =
  length (filter recognised rows).
Proof.
  unfold high_impact, medium_impact, low_impact.
  induction rows as [|row rows IH]; [done|].
  rewrite !impact_count_cons, filter_cons.
  destruct (decide (recognised row)) as [Hrec|Hrec]; unfold recognised in Hrec.
  - cbn [length]. rewrite <- IH.
    repeat apply elem_of_cons in Hrec as [->|Hrec];
      [..|by apply elem_of_nil in Hrec];
      repeat case_decide; simplify_eq; lia.
  - rewrite <- IH.
    assert (c_impact_level (r_ext row) ≠ Some "High" ∧
            c_impact_level (r_ext row) ≠ Some "Medium" ∧
            c_impact_level (r_ext row) ≠ Some "Low") as (?&?&?).
    { split_and!; intros Heq; apply Hrec; rewrite Heq.
      - apply list_elem_of_here.
      - apply list_elem_of_further, list_elem_of_here.
      - do 2 apply list_elem_of_further. apply list_elem_of_here. }
    rewrite !decide_False by done. lia.
Qed.

Lemma length_filter_all {A} (P : A → Prop) `{∀ x, Decision (P x)} (l : list A) :
  length (filter P l) = length l ↔ Forall P l.
Proof.
  induction l as [|x l IH]; [by split|].
  rewrite filter_cons. pose proof (length_filter P l).
  case_decide; cbn [length]; rewrite Forall_cons.
  - rewrite <- IH. split; [intros [= ->]|intros [_ ->]]; done.
  - split; [lia|tauto].
Qed.

Lemma impact_count_recognised level rows :
  level ∈ ["High"; "Medium"; "Low"] →
  impact_count level (filter recognised rows) = impact_count level rows.
Proof.
  intros Hlevel. induction rows as [|row rows IH]; [done|].
  rewrite filter_cons, impact_count_cons.
  destruct (decide (recognised row)) as [Hrec|Hrec].
  - by rewrite impact_count_cons, IH.
  - rewrite IH, decide_False; [done|].
    intros Heq. apply Hrec. unfold recognised. rewrite Heq.
    by apply (list_elem_of_fmap_2 Some) in Hlevel.
Qed.

(** The statistics do not depend on the order in which the query returns
    the rows: they are those of the stored rows. *)
Lemma insert_row_Permutation {A} (cmp : A → A → comparison) x l :
  insert_row cmp x l ≡ₚ x :: l.
Proof.
  induction l as [|y l IH]; [done|]. cbn.
  destruct (cmp x y); [done..|]. rewrite IH. apply Permutation_swap.
Qed.

Lemma order_by_Permutation {A} (cmp : A → A → comparison) rows :
  order_by cmp rows ≡ₚ rows.
Proof.
  unfold order_by. induction rows as [|row rows IH]; [done|]. cbn.
  by rewrite insert_row_Permutation, IH.
Qed.

Lemma statistics_of_stored_rows cmp (conn : list (Row ExtCols)) level :
  total_updates (order_by cmp conn) = length conn ∧
  impact_count level (order_by cmp conn) = impact_count level conn.
Proof.
  unfold total_updates, impact_count.
  by rewrite !(order_by_Permutation cmp conn).
Qed.

(** C10.  In the impact statistics of the professional reports, the rows
    counted in the High, Medium and Low buckets are exactly the rows whose
    impact level is one of these three strings, each counted once: a row
    with another impact level (or none) is in no bucket, the counts are
    what they are without such rows.  So the three counts add up to at
    most the total, with equality exactly when every row has one of the
    three levels. *)
Theorem impact_counts_bounded (rows : list (Row ExtCols)) :
  (high_impact (filter recognised rows) = high_impact rows ∧
   medium_impact (filter recognised rows) = medium_impact rows ∧
   low_impact (filter recognised rows) = low_impact rows ∧
   high_impact rows + medium_impact rows + low_impact rows =
     length (filter recognised rows) ∧
   high_impact rows + medium_impact rows + low_impact rows ≤ total_updates rows ∧
   (high_impact rows + medium_impact rows + low_impact rows = total_updates rows
      ↔ Forall recognised rows))%nat.
Proof.
  rewrite impact_counts_sum. unfold total_updates.
  unfold high_impact, medium_impact, low_impact. split_and!.
  - apply impact_count_recognised. set_solver.
  - apply impact_count_recognised. set_solver.
  - apply impact_count_recognised. set_solver.
  - done.
  - apply length_filter.
  - apply length_filter_all.
Qed.

(** ** Escaping *)

Lemma string_app_cons c a b : String c a +:+ b = String c (a +:+ b).
Proof. done. Qed.

Lemma string_app_assoc a b c : (a +:+ b) +:+ c = a +:+ (b +:+ c).
Proof.
  induction a as [|x a IH]; [done|]. by rewrite !string_app_cons, IH.
Qed.

Lemma replace_app old new a b :
  Py.replace old new (a +:+ b) = Py.replace old new a +:+ Py.replace old new b.
Proof.
  induction a as [|c a IH]; [done|].
  rewrite string_app_cons. cbn [Py.replace].
  case_decide; rewrite IH; [|done].
  by rewrite string_app_assoc.
Qed.

Lemma escape_html_cons c s :
  escape_html (String c s) = escape_char c +:+ escape_html s.
Proof.
  unfold escape_html, escape_char. cbn [Py.replace].
  destruct (decide (c = "&"%char)) as [->|Hamp].
  { by rewrite !replace_app. }
  cbn [Py.replace]. destruct (decide (c = "<"%char)) as [->|Hlt].
  { by rewrite !replace_app. }
  cbn [Py.replace]. destruct (decide (c = ">"%char)) as [->|Hgt]; done.
Qed.

Lemma has_char_app c a b :
  has_char c (a +:+ b) = has_char c a || has_char c b.
Proof.
  induction a as [|c' a IH]; [done|].
  rewrite string_app_cons. cbn. by rewrite IH, orb_assoc.
Qed.

(** The text a renderer escapes carries no [<] and no [>] any more. *)
Lemma escape_html_markup_free s :
  has_char "<" (escape_html s) = false ∧ has_char ">" (escape_html s) = false.
Proof.
  induction s as [|c s [IH1 IH2]]; [done|].
  rewrite escape_html_cons, !has_char_app, IH1, IH2, !orb_false_r.
  unfold escape_char. repeat case_decide; subst; cbn;
    rewrite ?bool_decide_eq_false_2 by done; done.
Qed.

(** [generate_html_email] escapes the title it embeds. *)
Lemma generate_html_email_escapes_title :
  let page := generate_html_email sample_clock_long
                (Basic.store_updates [] [sample_markup_title]).1 in
  Py.contains "&lt;script&gt;alert(1)&lt;/script&gt;" page = true ∧
  Py.contains "<script>" page = false.
Proof. by vm_compute. Qed.

(** C6.  The renderers do not escape every text field.  The dashboard of
    the basic pipeline embeds the title as it is stored (it escapes the
    summary only); the professional HTML digest and the professional
    dashboard embed each sector name as it is stored, and the title once
    more, unescaped, in their list of upcoming deadlines.  Evaluated on
    records whose title and sector names carry markup. *)
Theorem html_renderers_leave_markup_raw :
  Py.contains
    "<td><a href='http://a' target='_blank'><script>alert(1)</script></a></td>"
    (generate_dashboard sample_clock
       (Basic.store_updates [] [sample_markup_title]).1) = true ∧
  (∃ page,
     generate_professional_html sample_clock_long
       (Enhanced.store_updates [] [sample_markup_sector]).1 = inl page ∧
     Py.contains (Py.q "<span class=`sector-tag`><b>Banks</b></span>") page
       = true) ∧
  (∃ page,
     generate_professional_dashboard sample_clock_long
       (Enhanced.store_updates [] [sample_markup_sector]).1 = inl page ∧
     Py.contains (Py.q "<span class=`sector-tag`><b>Banks</b></span>") page
       = true) ∧
  (∃ page,
     generate_professional_html sample_clock_long
       (Enhanced.store_updates [] [sample_markup_deadline]).1 = inl page ∧
     Py.contains "</strong> - <script>alert(1)</script> (EU)" page = true) ∧
  (∃ page,
     generate_professional_dashboard sample_clock_long
       (Enhanced.store_updates [] [sample_markup_deadline]).1 = inl page ∧
     Py.contains
       (Py.q "<div class=`deadline-title`><script>alert(1)</script></div>")
       page = true).
Proof.
  split_and!.
  - by vm_compute.
  - eexists. split; [vm_compute; reflexivity|by vm_compute].
  - eexists. split; [vm_compute; reflexivity|by vm_compute].
  - eexists. split; [vm_compute; reflexivity|by vm_compute].
  - eexists. split; [vm_compute; reflexivity|by vm_compute].
Qed.

(** ** Empty reports *)

Lemma tag_run_app st a b : tag_run st (a +:+ b) = tag_run (tag_run st a) b.
Proof.
  revert st. induction a as [|c a IH]; intros st; [done|].
  rewrite string_app_cons. cbn. apply IH.
Qed.

Lemma tag_run_text stack s :
  has_char "<" s = false →
  tag_run (Some (stack, None)) s = Some (stack, None).
Proof.
  induction s as [|c s IH]; [done|]. cbn.
  intros [Hc Hs]%orb_false_elim. apply bool_decide_eq_false in Hc.
  rewrite decide_False by done. auto.
Qed.

(** Markup stays well formed when text without [<] is put between tags. *)
Lemma tags_balanced_around head text tail stack :
  tag_run (Some ([], None)) head = Some (stack, None) →
  has_char "<" text = false →
  tag_run (Some (stack, None)) tail = Some ([], None) →
  tags_balanced (head +:+ text +:+ tail) = true.
Proof.
  intros Hhead Htext Htail. unfold tags_balanced.
  rewrite !tag_run_app, Hhead, tag_run_text, Htail by done.
  by apply bool_decide_eq_true.
Qed.

Lemma generate_dashboard_empty {E} now :
  generate_dashboard now (@nil (Row E)) =
  Py.join Py.nl
    ["<!DOCTYPE html>";
     "<html lang='en'>";
     "<head>";
     "  <meta charset='utf-8'>";
     "  <title>Sustainability Regulation Updates</title>";
     dashboard_style;
     "</head>";
     "<body>";
     "  <h1>Sustainability Regulatory Updates</h1>";
     "  <p>Generated on " +:+ now +:+ "</p>";
     "</body>";
     "</html>"].
Proof. done. Qed.

Lemma generate_plain_text_email_empty {E} now :
  generate_plain_text_email now (@nil (Row E)) =
  Py.join Py.nl
    [Py.mul "=" 80;
     "SUSTAINABILITY REGULATORY UPDATES";
     Py.mul "=" 80;
     "Generated: " +:+ now;
     "";
     Py.mul "=" 80;
     "End of Report";
     Py.mul "=" 80].
Proof. done. Qed.

Lemma generate_dashboard_empty_balanced {E} now :
  has_char "<" now = false →
  tags_balanced (generate_dashboard now (@nil (Row E))) = true.
Proof.
  intros Hnow. rewrite generate_dashboard_empty. cbn [Py.join].
  rewrite !string_app_assoc.
  repeat rewrite <- (string_app_assoc _ _ (now +:+ _)).
  eapply tags_balanced_around; [by vm_compute|done|by vm_compute].
Qed.

(** C7, as the code has it.  For the empty record sequence the plain-text
    digest and the HTML dashboard do not fail: each returns its header,
    the time stamp and its footer, and nothing else.  The report is not
    empty, and the tags of the dashboard nest properly (the time stamp
    holds no [<]).  Neither report says that there are no updates. *)
Theorem empty_report_is_header_and_footer (now : string) :
  has_char "<" now = false →
  generate_plain_text_email now (@nil (Row unit)) =
    Py.join Py.nl
      [Py.mul "=" 80;
       "SUSTAINABILITY REGULATORY UPDATES";
       Py.mul "=" 80;
       "Generated: " +:+ now;
       "";
       Py.mul "=" 80;
       "End of Report";
       Py.mul "=" 80] ∧
  generate_dashboard now (@nil (Row unit)) =
    Py.join Py.nl
      ["<!DOCTYPE html>";
       "<html lang='en'>";
       "<head>";
       "  <meta charset='utf-8'>";
       "  <title>Sustainability Regulation Updates</title>";
       dashboard_style;
       "</head>";
       "<body>";
       "  <h1>Sustainability Regulatory Updates</h1>";
       "  <p>Generated on " +:+ now +:+ "</p>";
       "</body>";
       "</html>"] ∧
  generate_plain_text_email now (@nil (Row unit)) ≠ "" ∧
  generate_dashboard now (@nil (Row unit)) ≠ "" ∧
  tags_balanced (generate_dashboard now (@nil (Row unit))) = true.
Proof.
  intros Hnow. split_and!.
  - apply generate_plain_text_email_empty.
  - apply generate_dashboard_empty.
  - rewrite generate_plain_text_email_empty. discriminate.
  - rewrite generate_dashboard_empty. discriminate.
  - by apply generate_dashboard_empty_balanced.
Qed.

(** The empty dashboard at a time stamp as [strftime] formats it. *)
Lemma empty_report_is_header_and_footer_witness :
  has_char "<" sample_clock = false ∧
  tags_balanced (generate_dashboard sample_clock (@nil (Row unit))) = true.
Proof.
  assert (has_char "<" sample_clock = false) as Hclock by reflexivity.
  split; [exact Hclock|].
  exact (proj2 (proj2 (proj2 (proj2
           (empty_report_is_header_and_footer sample_clock Hclock))))).
Defined.

(** C7 as stated fails: on the empty record sequence neither the
    plain-text digest nor the dashboard holds any indication that there
    are no updates. *)
Lemma empty_report_has_no_indicator :
  has_no_updates_indicator
    (generate_plain_text_email sample_clock_long (@nil (Row unit))) = false ∧
  has_no_updates_indicator
    (generate_dashboard sample_clock (@nil (Row unit))) = false.
Proof. by vm_compute. Qed.

(** The HTML digest of the basic pipeline has no such indication either;
    the professional plain-text digest shows its counts, which are zero. *)
Lemma other_empty_reports :
  has_no_updates_indicator
    (generate_html_email sample_clock_long (@nil (Row unit))) = false ∧
  Py.contains "Total Regulations Tracked: 0"
    (generate_professional_plain_text sample_clock_long []) = true.
Proof. by vm_compute. Qed.

(** [compose_email] is where the code does say it: its body for an empty
    list ends with this line. *)
Lemma compose_email_line_is_an_indicator :
  has_no_updates_indicator "No new updates were detected today." = true.
Proof. by vm_compute. Qed.

(** ** The notifier *)

Section NotifierFacts.
Variable smtp :
  string → Z → string → string → pystr → list string → string → smtp_outcome.
Implicit Types (environ : gmap string string) (message : Message).

(** [send_email] raises exactly when [SMTP_PORT] is set to a text that
    [int] does not accept. *)
Lemma send_email_raises_iff environ message :
  raised (send_email smtp environ message) ↔
  Py.int (default "0" (environ !! "SMTP_PORT")) = None.
Proof.
  unfold raised, send_email.
  destruct (Py.int (default "0" (environ !! "SMTP_PORT"))) as [port|].
  - split; [|done]. intros [e He]. revert He.
    destruct (environ !! "SMTP_HOST") as [[|??]|],
      (environ !! "SMTP_USER") as [[|??]|],
      (environ !! "SMTP_PASSWORD") as [[|??]|],
      (environ !! "SMTP_TO") as [[|??]|]; try done.
    case_decide; [done|]. by destruct (smtp _ _ _ _ _ _ _).
  - split; [done|]. eauto.
Qed.

(** With a credential missing and a port that [int] accepts (or no port
    at all), nothing is sent and the call returns. *)
Lemma send_email_skips environ message k port :
  k ∈ required_credentials → environ !! k = None →
  Py.int (default "0" (environ !! "SMTP_PORT")) = Some port →
  send_email smtp environ message = skipped.
Proof.
  intros Hk Hmiss Hport. unfold send_email. rewrite Hport.
  unfold required_credentials in Hk.
  repeat apply elem_of_cons in Hk as [->|Hk];
    [..|by apply elem_of_nil in Hk].
  - by rewrite Hmiss.
  - rewrite Hmiss in Hport. cbn in Hport. injection Hport as <-.
    by destruct (environ !! "SMTP_HOST") as [[|??]|],
      (environ !! "SMTP_USER") as [[|??]|],
      (environ !! "SMTP_PASSWORD") as [[|??]|],
      (environ !! "SMTP_TO") as [[|??]|].
  - rewrite Hmiss. by destruct (environ !! "SMTP_HOST") as [[|??]|].
  - rewrite Hmiss. by destruct (environ !! "SMTP_HOST") as [[|??]|],
      (environ !! "SMTP_USER") as [[|??]|].
  - rewrite Hmiss. by destruct (environ !! "SMTP_HOST") as [[|??]|],
      (environ !! "SMTP_USER") as [[|??]|],
      (environ !! "SMTP_PASSWORD") as [[|??]|].
Qed.

Lemma skipped_sends_nothing :
  ¬ attempted_transmission skipped ∧ ¬ raised skipped.
Proof.
  split.
  - intros (host&port&user&password&from_addr&to_addrs&data&Hin).
    cbn in Hin. apply list_elem_of_singleton in Hin. discriminate Hin.
  - intros [e He]. discriminate He.
Qed.

(** With a port that [int] accepts, whatever the mail server does is
    reported on the console and the call returns. *)
Lemma send_email_catches environ message port :
  Py.int (default "0" (environ !! "SMTP_PORT")) = Some port →
  (send_email smtp environ message).2 = inl ().
Proof.
  intros Hport.
  destruct (send_email smtp environ message) as [events [[]|e]] eqn:Hsend;
    [done|].
  assert (raised (send_email smtp environ message)) as Hraised.
  { exists e. by rewrite Hsend. }
  apply send_email_raises_iff in Hraised. congruence.
Qed.

(** C8.  [send_email] converts [SMTP_PORT] to a number before it looks
    whether the credentials are complete, and outside the [try] block.
    In an environment where [SMTP_HOST], [SMTP_USER], [SMTP_PASSWORD]
    and [SMTP_TO] are absent and [SMTP_PORT] is [abc], the call raises
    [ValueError] instead of returning. *)
Theorem send_email_raises_on_bad_port message :
  sample_environ !! "SMTP_HOST" = None ∧
  send_email smtp sample_environ message =
    ([], inr (Py.Raise "ValueError"
                "invalid literal for int() with base 10: 'abc'")).
Proof. split; reflexivity. Qed.
End NotifierFacts.

(** * Further properties *)

(** ** The store *)

(** X1.  [store_updates] only appends: the table afterwards is the table
    before, followed by one row for each returned record, in the order of
    the result, and each of these rows holds the values of its record
    (the five required fields, and in the enhanced schema the seven
    further ones). *)
Theorem stored_rows_hold_returned_records (items : list UpdateItem) :
  (∀ conn, appends_returned Basic.ext Basic.store_updates conn items) ∧
  (∀ conn, appends_returned Enhanced.ext Enhanced.store_updates conn items).
Proof. split; intros conn; apply store_updates_appends_returned. Qed.

(** X2.  Whatever the batch holds, the records [store_updates] returns
    carry all their required fields, have pairwise distinct natural keys,
    and none of these keys was in the table before the call. *)
Theorem returned_records_are_fresh (items : list UpdateItem) :
  (∀ conn, returns_fresh Basic.store_updates conn items) ∧
  (∀ conn, returns_fresh Enhanced.store_updates conn items).
Proof. split; intros conn; apply store_updates_returns_fresh. Qed.

(** X3.  Storing a batch in one call or in two calls, one for each part,
    leaves the same table and returns the same records. *)
Theorem store_updates_over_batches (xs ys : list UpdateItem) :
  (∀ conn, splits_over_batches Basic.store_updates conn xs ys) ∧
  (∀ conn, splits_over_batches Enhanced.store_updates conn xs ys).
Proof. split; intros conn; apply store_updates_splits. Qed.

(** X4.  In a database that only [initialise_db] and [store_updates] have
    touched, the row ids are 1, 2, 3, ... in insertion order: a rejected
    insert uses up no id. *)
Theorem row_ids_count_up :
  (∀ ops, from_option ids_count_up True (run_ops Basic.ext None ops)) ∧
  (∀ ops, from_option ids_count_up True (run_ops Enhanced.ext None ops)).
Proof. split; intros ops; by apply run_ops_count_up. Qed.

(** ** The aggregator and the daily task *)

(** X5.  Gathering from a registry made of two parts gives what the two
    parts give, one after the other, for the records and for the lines
    printed. *)
Theorem gather_updates_app (first second : list (string * Producer)) :
  gather_updates (first ++ second) =
  ((gather_updates first).1 ++ (gather_updates second).1,
   (gather_updates first).2 ++ (gather_updates second).2).
Proof.
  unfold gather_updates. rewrite !gather_loop_spec. cbn.
  unfold error_lines. by rewrite omap_app, fmap_app, concat_app.
Qed.

(** X6.  The daily task is idempotent.  Run again on the database it left,
    it leaves the database as it is, whatever the clock shows; with the
    same clock it prints the same lines and writes the same dashboard. *)
Theorem run_daily_task_idempotent (SOURCES : list (string * Producer))
    (now later dashboard_path : string) (db : Db unit) :
  let first := run_daily_task SOURCES now dashboard_path db in
  (run_daily_task SOURCES later dashboard_path first.1.1).1.1 = first.1.1 ∧
  run_daily_task SOURCES now dashboard_path first.1.1 = first.
Proof.
  cbn zeta. unfold run_daily_task.
  destruct (gather_updates SOURCES) as [printed items].
  unfold Basic.store_updates, Basic.initialise_db.
  destruct (store_updates Basic.ext (initialise_db db) items)
    as [conn new_items] eqn:Hstore.
  assert (store_updates Basic.ext conn items = (conn, [])) as Hagain.
  { pose proof (store_updates_idem Basic.ext (initialise_db db) items) as H.
    by rewrite Hstore in H. }
  cbn. by rewrite Hagain.
Qed.

(** X7.  The enhanced daily task leaves the same database when it is run
    again, also when rendering the dashboard raises. *)
Theorem run_daily_task_enhanced_idempotent (SOURCES : list (string * Producer))
    (now later dashboard_path : string) (db : Db ExtCols) :
  let first := run_daily_task_enhanced SOURCES now dashboard_path db in
  (run_daily_task_enhanced SOURCES later dashboard_path first.1.1).1.1 =
    first.1.1 ∧
  run_daily_task_enhanced SOURCES now dashboard_path first.1.1 = first.
Proof.
  cbn zeta. unfold run_daily_task_enhanced.
  destruct (gather_updates SOURCES) as [printed items].
  unfold Enhanced.store_updates, Enhanced.initialise_db.
  destruct (store_updates Enhanced.ext (initialise_db db) items)
    as [conn new_items] eqn:Hstore.
  assert (store_updates Enhanced.ext conn items = (conn, [])) as Hagain.
  { pose proof (store_updates_idem Enhanced.ext (initialise_db db) items) as H.
    by rewrite Hstore in H. }
  destruct (generate_professional_dashboard now conn) as [page|e] eqn:Hnow;
    cbn; rewrite Hagain, ?Hnow;
    (split; [by destruct (generate_professional_dashboard later conn)|done]).
Qed.

(** ** Well-formed pages *)

Lemma tag_run_in_tag stack tag s :
  has_char ">" s = false →
  tag_run (Some (stack, Some tag)) s = Some (stack, Some (tag +:+ s)).
Proof.
  revert tag. induction s as [|c s IH]; intros tag.
  { intros _. cbn. f_equal. f_equal. f_equal.
    induction tag as [|x tag IHt]; [done|]. by rewrite string_app_cons, <- IHt. }
  cbn. intros [Hc Hs]%orb_false_elim. apply bool_decide_eq_false in Hc.
  rewrite decide_False by done. rewrite IH by done.
  by rewrite string_app_assoc.
Qed.

Lemma join_app_nonempty sep (a b : list string) :
  a ≠ [] → b ≠ [] →
  Py.join sep (a ++ b) = Py.join sep a +:+ sep +:+ Py.join sep b.
Proof.
  intros Ha Hb. induction a as [|x a IH]; [done|].
  destruct a as [|y a].
  - cbn. by destruct b.
  - change (Py.join sep ((x :: y :: a) ++ b))
      with (x +:+ sep +:+ Py.join sep ((y :: a) ++ b)).
    rewrite IH by done.
    change (Py.join sep (x :: y :: a)) with (x +:+ sep +:+ Py.join sep (y :: a)).
    by rewrite !string_app_assoc.
Qed.

(** One step of reading a page.  A fragment that a hypothesis speaks about,
    or an escaped field, is text between tags or the inside of a tag;
    everything else is literal markup, which is read by computation. *)
Ltac tag_literal_tac st p :=
  let r := eval vm_compute in (tag_run st p) in
  let H := fresh "Hlit" in
  assert (tag_run st p = r) as H by (vm_compute; reflexivity);
  rewrite H; clear H.

Ltac is_text p :=
  lazymatch p with
  | escape_html _ => idtac
  | _ => lazymatch goal with _ : has_char _ p = false |- _ => idtac end
  end.

Ltac tag_step_tac :=
  match goal with
  | |- context [tag_run (Some (?a, None)) ?p] =>
      tryif is_text p
      then rewrite (tag_run_text a p)
             by (first [assumption | apply escape_html_markup_free])
      else tag_literal_tac (Some (a, @None string)) p
  | |- context [tag_run (Some (?a, Some ?t)) ?p] =>
      tryif is_text p
      then rewrite (tag_run_in_tag a t p) by assumption
      else tag_literal_tac (Some (a, Some t)) p
  end.

Ltac read_tags :=
  unfold fragment; cbn [Py.join app]; rewrite ?tag_run_app;
  repeat tag_step_tac; try reflexivity.

Lemma fragment_join_app a b c (l1 l2 : list string) :
  l1 ≠ [] → l2 ≠ [] →
  fragment a b (Py.join Py.nl l1) → fragment b c (Py.join Py.nl l2) →
  fragment a c (Py.join Py.nl (l1 ++ l2)).
Proof.
  unfold fragment. intros H1 H2 Hl1 Hl2.
  rewrite join_app_nonempty, !tag_run_app, Hl1 by done.
  by rewrite (tag_run_text b Py.nl).
Qed.

Lemma html_email_step_fragment {E} (row : Row E) a lines cs :
  plain_row row →
  ∃ extra, (html_email_step (lines, cs) row).1 = lines ++ extra ∧
           extra ≠ [] ∧ fragment a a (Py.join Py.nl extra).
Proof.
  intros (Hs&Hd&Hl). unfold html_email_step. case_decide.
  - eexists. split; [cbn [fst]; rewrite <- app_assoc; reflexivity|].
    split; [done|]. read_tags.
  - eexists. split; [reflexivity|]. split; [done|]. read_tags.
Qed.

Lemma html_email_fold {E} (rows : list (Row E)) lines cs a b :
  Forall plain_row rows → lines ≠ [] →
  fragment a b (Py.join Py.nl lines) →
  (foldl html_email_step (lines, cs) rows).1 ≠ [] ∧
  fragment a b (Py.join Py.nl (foldl html_email_step (lines, cs) rows).1).
Proof.
  intros Hrows. revert lines cs.
  induction Hrows as [|row rows Hrow _ IH]; intros lines cs Hne Hfrag; [done|].
  cbn [foldl].
  destruct (html_email_step_fragment row b lines cs Hrow)
    as (extra&Hstep&Hextra&Hfragx).
  destruct (html_email_step (lines, cs) row) as [lines' cs'].
  cbn [fst] in Hstep. subst lines'. apply IH.
  - by destruct lines.
  - by apply (fragment_join_app a b b).
Qed.

(** X8.  [generate_html_email] writes well-formed markup (every tag closes
    the element opened last, nothing stays open) for every table whose
    sources and dates hold no [<] and whose links hold no [>], whatever the
    titles and the summaries hold: these two are escaped. *)
Theorem generate_html_email_well_formed {E} (now : string)
    (conn : list (Row E)) :
  has_char "<" now = false → Forall plain_row conn →
  tags_balanced (generate_html_email now conn) = true.
Proof.
  intros Hnow Hconn. unfold generate_html_email.
  set (rows := order_by _ conn).
  assert (Forall plain_row rows) as Hrows.
  { unfold rows. by rewrite order_by_Permutation. }
  match goal with
  | |- context [foldl html_email_step (?l, None) rows] => set (head := l)
  end.
  assert (fragment [] ["div"; "body"; "html"] (Py.join Py.nl head)) as Hhead.
  { unfold head. read_tags. }
  destruct (html_email_fold rows head None _ _ Hrows ltac:(done) Hhead)
    as [Hne Hfrag].
  destruct (foldl html_email_step (head, None) rows) as [lines cs].
  cbn [fst] in Hne, Hfrag.
  apply bool_decide_eq_true.
  eapply (fragment_join_app _ _ []); [done..|]. read_tags.
Qed.

Lemma dashboard_step_fragment {E} (row : Row E) outer lines cs :
  plain_titled_row row → lines ≠ [] →
  fragment [] (dashboard_open outer cs) (Py.join Py.nl lines) →
  (dashboard_step (lines, cs) row).1 ≠ [] ∧
  (dashboard_step (lines, cs) row).2 ≠ None ∧
  fragment [] (dashboard_open outer (dashboard_step (lines, cs) row).2)
    (Py.join Py.nl (dashboard_step (lines, cs) row).1).
Proof.
  intros [(Hs&Hd&Hl) Ht] Hne Hfrag. unfold dashboard_step.
  destruct (decide (Some (r_source row) ≠ cs)) as [Hnew|Hsame].
  - destruct cs as [old|].
    + rewrite decide_True by done. cbn [fst snd]. split_and!.
      * by destruct lines.
      * done.
      * rewrite <- !app_assoc.
        eapply (fragment_join_app _ _ _ lines); [done..|].
        cbn [dashboard_open]. read_tags.
    + rewrite decide_False by (by intros []). cbn [fst snd]. split_and!.
      * by destruct lines.
      * done.
      * rewrite <- !app_assoc.
        eapply (fragment_join_app _ _ _ lines); [done..|].
        cbn [dashboard_open]. read_tags.
  - apply dec_stable in Hsame. subst cs. cbn [fst snd]. split_and!.
    + by destruct lines.
    + done.
    + eapply (fragment_join_app _ _ _ lines); [done..|].
      cbn [dashboard_open]. read_tags.
Qed.

Lemma dashboard_fold {E} (rows : list (Row E)) outer lines cs :
  Forall plain_titled_row rows → lines ≠ [] →
  fragment [] (dashboard_open outer cs) (Py.join Py.nl lines) →
  (foldl dashboard_step (lines, cs) rows).1 ≠ [] ∧
  (rows ≠ [] → (foldl dashboard_step (lines, cs) rows).2 ≠ None) ∧
  (rows = [] → (foldl dashboard_step (lines, cs) rows).2 = cs) ∧
  fragment [] (dashboard_open outer (foldl dashboard_step (lines, cs) rows).2)
    (Py.join Py.nl (foldl dashboard_step (lines, cs) rows).1).
Proof.
  intros Hrows. revert lines cs.
  induction Hrows as [|row rows Hrow _ IH]; intros lines cs Hne Hfrag; [done|].
  cbn [foldl].
  destruct (dashboard_step_fragment row outer lines cs Hrow Hne Hfrag)
    as (Hne'&Hcs'&Hfrag').
  destruct (dashboard_step (lines, cs) row) as [lines' cs'].
  cbn [fst snd] in *.
  destruct (IH lines' cs' Hne' Hfrag') as (Hne2&Hsome&Hnil&Hfrag2).
  split_and!; [done| |done|done].
  intros _. destruct rows; [by rewrite Hnil|by apply Hsome].
Qed.

(** X9.  [generate_dashboard] writes well-formed markup for every table
    whose sources, dates and titles hold no [<] and whose links hold no
    [>], whatever the summaries hold: each source's table is closed before
    the next one opens, and the last one before the page ends. *)
Theorem generate_dashboard_well_formed {E} (now : string)
    (conn : list (Row E)) :
  has_char "<" now = false → Forall plain_titled_row conn →
  tags_balanced (generate_dashboard now conn) = true.
Proof.
  intros Hnow Hconn. unfold generate_dashboard.
  set (rows := order_by _ conn).
  assert (Forall plain_titled_row rows) as Hrows.
  { unfold rows. by rewrite order_by_Permutation. }
  match goal with
  | |- context [foldl dashboard_step (?l, None) rows] => set (head := l)
  end.
  assert (fragment [] (dashboard_open ["body"; "html"] None)
            (Py.join Py.nl head)) as Hhead.
  { unfold head. read_tags. }
  destruct (dashboard_fold rows _ head None Hrows ltac:(done) Hhead)
    as (Hne&Hsome&Hnil&Hfrag).
  destruct (foldl dashboard_step (head, None) rows) as [lines cs].
  cbn [fst snd] in *. apply bool_decide_eq_true.
  destruct (decide (rows ≠ [])) as [Hrows'|Hrows'].
  - destruct cs as [source|]; [|by destruct (Hsome Hrows')].
    rewrite <- app_assoc.
    eapply (fragment_join_app _ _ []); [done..|]. read_tags.
  - rewrite Hnil in Hfrag by by apply dec_stable.
    eapply (fragment_join_app _ _ []); [done..|]. read_tags.
Qed.

(** A table whose only title carries markup. *)
Lemma generate_html_email_well_formed_witness :
  has_char "<" sample_clock_long = false ∧
  Forall plain_row (Basic.store_updates [] [sample_markup_title]).1 ∧
  tags_balanced
    (generate_html_email sample_clock_long
       (Basic.store_updates [] [sample_markup_title]).1) = true.
Proof.
  assert (has_char "<" sample_clock_long = false) as Hclock by reflexivity.
  assert (Forall plain_row (Basic.store_updates [] [sample_markup_title]).1)
    as Hrows by (repeat constructor).
  split; [exact Hclock|]. split; [exact Hrows|].
  exact (generate_html_email_well_formed _ _ Hclock Hrows).
Defined.

(** A table of two plain records. *)
Lemma generate_dashboard_well_formed_witness :
  has_char "<" sample_clock = false ∧
  Forall plain_titled_row (Basic.store_updates [] [sample_eu; sample_ifrs]).1 ∧
  tags_balanced
    (generate_dashboard sample_clock
       (Basic.store_updates [] [sample_eu; sample_ifrs]).1) = true.
Proof.
  assert (has_char "<" sample_clock = false) as Hclock by reflexivity.
  assert (Forall plain_titled_row
            (Basic.store_updates [] [sample_eu; sample_ifrs]).1)
    as Hrows by (repeat constructor).
  split; [exact Hclock|]. split; [exact Hrows|].
  exact (generate_dashboard_well_formed _ _ Hclock Hrows).
Defined.

(** ** The notifier, once more *)

Section NotifierMore.
Variable smtp :
  string → Z → string → string → pystr → list string → string → smtp_outcome.
Variable as_string : Email → string.
Implicit Types (environ : gmap string string) (message : Message).

Lemma send_email_cases environ message :
  (Py.int (default "0" (environ !! "SMTP_PORT")) = None ∧
   (send_email smtp environ message).1 = [] ∧
   raised (send_email smtp environ message)) ∨
  (∃ port, Py.int (default "0" (environ !! "SMTP_PORT")) = Some port ∧
     (port = 0 ∨
      Exists (λ k, Py.truthy (environ !! k) = false)
        ["SMTP_HOST"; "SMTP_USER"; "SMTP_PASSWORD"; "SMTP_TO"]) ∧
     send_email smtp environ message = skipped) ∨
  (∃ port, Py.int (default "0" (environ !! "SMTP_PORT")) = Some port ∧
     port ≠ 0 ∧
     Forall (λ k, Py.truthy (environ !! k) = true)
       ["SMTP_HOST"; "SMTP_USER"; "SMTP_PASSWORD"; "SMTP_TO"] ∧
     attempted_transmission (send_email smtp environ message) ∧
     (send_email smtp environ message).2 = inl ()).
Proof.
  unfold send_email, raised.
  destruct (Py.int (default "0" (environ !! "SMTP_PORT"))) as [port|];
    [|left; eauto].
  right.
  destruct (environ !! "SMTP_HOST") as [[|h0 h]|] eqn:Hh;
    [left; exists port; split_and!; [done| |done];
     right; apply Exists_cons_hd; by rewrite Hh| |
     left; exists port; split_and!; [done| |done];
     right; apply Exists_cons_hd; by rewrite Hh].
  destruct (environ !! "SMTP_USER") as [[|u0 u]|] eqn:Hu;
    [left; exists port; split_and!; [done| |done];
     right; apply Exists_cons_tl, Exists_cons_hd; by rewrite Hu| |
     left; exists port; split_and!; [done| |done];
     right; apply Exists_cons_tl, Exists_cons_hd; by rewrite Hu].
  destruct (environ !! "SMTP_PASSWORD") as [[|p0 p]|] eqn:Hp;
    [left; exists port; split_and!; [done| |done];
     right; do 2 apply Exists_cons_tl; apply Exists_cons_hd; by rewrite Hp| |
     left; exists port; split_and!; [done| |done];
     right; do 2 apply Exists_cons_tl; apply Exists_cons_hd; by rewrite Hp].
  destruct (environ !! "SMTP_TO") as [[|r0 r]|] eqn:Hr;
    [left; exists port; split_and!; [done| |done];
     right; do 3 apply Exists_cons_tl; apply Exists_cons_hd; by rewrite Hr| |
     left; exists port; split_and!; [done| |done];
     right; do 3 apply Exists_cons_tl; apply Exists_cons_hd; by rewrite Hr].
  destruct (decide (port = 0)) as [->|Hport].
  { left. exists 0. split_and!; [done|by left|done]. }
  right. exists port. split_and!; [done|done| | |].
  - repeat constructor; by rewrite ?Hh, ?Hu, ?Hp, ?Hr.
  - unfold attempted_transmission.
    destruct (smtp _ _ _ _ _ _ _); cbn; do 7 eexists; apply list_elem_of_here.
  - by destruct (smtp _ _ _ _ _ _ _).
Qed.

(** X11.  [send_email] opens a session with the mail server exactly when
    [SMTP_HOST], [SMTP_USER], [SMTP_PASSWORD] and [SMTP_TO] are set and not
    empty and [SMTP_PORT] is a number other than zero; whatever the server
    does then, the call returns. *)
Theorem send_email_contacts_server_iff environ message :
  (attempted_transmission (send_email smtp environ message) ↔
   ∃ port, Py.int (default "0" (environ !! "SMTP_PORT")) = Some port ∧
     port ≠ 0 ∧
     Forall (λ k, Py.truthy (environ !! k) = true)
       ["SMTP_HOST"; "SMTP_USER"; "SMTP_PASSWORD"; "SMTP_TO"]) ∧
  (attempted_transmission (send_email smtp environ message) →
   (send_email smtp environ message).2 = inl ()).
Proof.
  destruct (send_email_cases environ message)
    as [(Hint&Hnil&_)|[(port&Hint&Hwhy&Hskip)|(port&Hint&Hport&Hall&Hatt&Hret)]].
  - assert (¬ attempted_transmission (send_email smtp environ message)) as Hno.
    { intros (?&?&?&?&?&?&?&Hin). rewrite Hnil in Hin.
      by apply elem_of_nil in Hin. }
    split; [split|]; [done| |done].
    intros (port&Hport&_). congruence.
  - assert (¬ attempted_transmission (send_email smtp environ message)) as Hno.
    { rewrite Hskip. apply skipped_sends_nothing. }
    split; [split|]; [done| |done].
    intros (port'&Hint'&Hport'&Hall). rewrite Hint in Hint'.
    injection Hint' as <-. destruct Hwhy as [->|Hex]; [done|].
    apply Exists_exists in Hex as (k&Hk&Hfalse).
    rewrite Forall_forall in Hall. specialize (Hall k Hk). congruence.
  - split; [split|]; eauto.
Qed.

(** X12.  The test mail script stops with [SystemExit], before anything is
    printed or sent, exactly when one of the five variables is unset or
    empty.  Otherwise it does what [send_email] does with the test message,
    and that is one of three things: [ValueError] for a port that is not a
    number, the skipping line for a port that is zero, or a session with
    the mail server. *)
Theorem send_test_email_main_guard environ ts :
  (missing_credentials environ ≠ [] →
   ∃ msg, send_test_email_main smtp as_string environ ts =
            ([], inr (Py.Raise "SystemExit" msg))) ∧
  (missing_credentials environ = [] →
   send_test_email_main smtp as_string environ ts =
     send_email smtp environ (message_of as_string
                                (build_test_message environ ts)) ∧
   (raised (send_test_email_main smtp as_string environ ts) ∨
    (Py.int (default "0" (environ !! "SMTP_PORT")) = Some 0 ∧
     send_test_email_main smtp as_string environ ts = skipped) ∨
    (attempted_transmission (send_test_email_main smtp as_string environ ts) ∧
     (send_test_email_main smtp as_string environ ts).2 = inl ()))).
Proof.
  unfold send_test_email_main, ensure_env_or_exit. split; intros Hmissing.
  - rewrite decide_True by done. eauto.
  - rewrite decide_False by (by intros []). split; [done|].
    set (message := message_of _ _).
    destruct (send_email_cases environ message)
      as [(_&_&Hr)|[(port&Hint&Hwhy&Hskip)|(port&_&_&_&Hatt&Hret)]];
      [by left| |by right; right].
    right. left. destruct Hwhy as [->|Hex]; [done|].
    apply Exists_exists in Hex as (k&Hk&Hfalse).
    assert (k ∈ missing_credentials environ) as Hin.
    { unfold missing_credentials. apply list_elem_of_filter. split; [done|].
      unfold required_credentials.
      repeat apply elem_of_cons in Hk as [->|Hk];
        [set_solver..|by apply elem_of_nil in Hk]. }
    rewrite Hmissing in Hin. by apply elem_of_nil in Hin.
Qed.
End NotifierMore.

(** ** The professional pages *)

Lemma tag_run_none s : tag_run None s = None.
Proof. induction s as [|c s IH]; [done|]. apply IH. Qed.

(** X13.  On an empty table [generate_professional_html] and
    [generate_professional_dashboard] return a page.  The tags of the
    dashboard nest properly; those of the HTML digest do not: its footer
    closes the [div] that only the first record of a source opens. *)
Theorem professional_pages_on_empty_table (now : string) :
  has_char "<" now = false →
  (∃ page, generate_professional_html now [] = inl page ∧
           tags_balanced page = false) ∧
  (∃ page, generate_professional_dashboard now [] = inl page ∧
           tags_balanced page = true).
Proof.
  intros Hnow. split.
  - eexists. split.
    { unfold generate_professional_html. cbv zeta.
      change (order_by by_deadline_source_date []) with (@nil (Row ExtCols)).
      change (filter _ (@nil (Row ExtCols))) with (@nil (Row ExtCols)).
      rewrite decide_False by (intros H; by apply H).
      cbn [html_cards]. reflexivity. }
    apply bool_decide_eq_false.
    unfold html_head. rewrite !tag_run_app. repeat tag_step_tac.
    rewrite ?tag_run_none. done.
  - eexists. split.
    { unfold generate_professional_dashboard. cbv zeta.
      change (order_by by_deadline_date []) with (@nil (Row ExtCols)).
      change (filter _ (@nil (Row ExtCols))) with (@nil (Row ExtCols)).
      rewrite decide_False by (intros H; by apply H).
      cbn [dashboard_cards foldl]. reflexivity. }
    apply bool_decide_eq_true.
    unfold dashboard_head. rewrite !tag_run_app. repeat tag_step_tac. done.
Qed.

(** The empty pages at a time stamp as [strftime] formats it. *)
Lemma professional_pages_on_empty_table_witness :
  has_char "<" sample_clock_long = false ∧
  ∃ page, generate_professional_html sample_clock_long [] = inl page ∧
          tags_balanced page = false.
Proof.
  assert (has_char "<" sample_clock_long = false) as Hclock by reflexivity.
  split; [exact Hclock|].
  exact (proj1 (professional_pages_on_empty_table sample_clock_long Hclock)).
Defined.

Lemma html_cards_result html cs rows :
  (Forall has_impact_level rows → ∃ page, html_cards html cs rows = inl page) ∧
  (¬ Forall has_impact_level rows → html_cards html cs rows = inr no_lower).
Proof.
  revert html cs. induction rows as [|row rows IH]; intros html cs.
  { split; [by eexists|]. intros []. constructor. }
  assert (Forall has_impact_level (row :: rows) ↔
          c_impact_level (r_ext row) ≠ None ∧ Forall has_impact_level rows)
    as -> by (rewrite Forall_cons; done).
  cbn [html_cards].
  destruct (c_impact_level (r_ext row)) as [level|].
  - case_decide.
    + split; [intros [_ Hrows]; by apply IH|].
      intros Hnot. apply IH. intros Hrows. by apply Hnot.
    + split; [intros [_ Hrows]; by apply IH|].
      intros Hnot. apply IH. intros Hrows. by apply Hnot.
  - case_decide; (split; [by intros [[] _]|done]).
Qed.

Lemma dashboard_cards_result html cs rows :
  (Forall has_impact_level rows →
   ∃ page, dashboard_cards html cs rows = inl page) ∧
  (¬ Forall has_impact_level rows → dashboard_cards html cs rows = inr no_lower).
Proof.
  revert html cs. induction rows as [|row rows IH]; intros html cs.
  { split; [by eexists|]. intros []. constructor. }
  assert (Forall has_impact_level (row :: rows) ↔
          c_impact_level (r_ext row) ≠ None ∧ Forall has_impact_level rows)
    as -> by (rewrite Forall_cons; done).
  cbn [dashboard_cards].
  destruct (c_impact_level (r_ext row)) as [level|].
  - case_decide.
    + split; [intros [_ Hrows]; by apply IH|].
      intros Hnot. apply IH. intros Hrows. by apply Hnot.
    + split; [intros [_ Hrows]; by apply IH|].
      intros Hnot. apply IH. intros Hrows. by apply Hnot.
  - case_decide; (split; [by intros [[] _]|done]).
Qed.

(** X14.  The professional HTML digest and the professional dashboard are
    rendered exactly when every stored row has an impact level; one row
    whose impact level is [NULL] makes both raise [AttributeError] (from
    [impact_level.lower()]).  The store accepts such a record: the column
    is nullable. *)
Theorem professional_pages_need_impact_level (now : string)
    (conn : list (Row ExtCols)) :
  (Forall has_impact_level conn →
   (∃ page, generate_professional_html now conn = inl page) ∧
   (∃ page, generate_professional_dashboard now conn = inl page)) ∧
  (¬ Forall has_impact_level conn →
   generate_professional_html now conn = inr no_lower ∧
   generate_professional_dashboard now conn = inr no_lower) ∧
  (∀ item k, well_formed item → impact_level item = None →
     item_key item = Some k → k ∉ table_keys conn →
     ¬ Forall has_impact_level (Enhanced.store_updates conn [item]).1).
Proof.
  split_and!.
  - intros Hconn. unfold generate_professional_html,
      generate_professional_dashboard. cbv zeta. split.
    + match goal with
      | |- context [html_cards ?h ?c ?r] =>
          destruct (html_cards_result h c r) as [Hok _]
      end.
      destruct Hok as [page ->]; [by rewrite order_by_Permutation|by eexists].
    + match goal with
      | |- context [dashboard_cards ?h ?c ?r] =>
          destruct (dashboard_cards_result h c r) as [Hok _]
      end.
      destruct Hok as [page ->]; [by rewrite order_by_Permutation|by eexists].
  - intros Hconn. unfold generate_professional_html,
      generate_professional_dashboard. cbv zeta. split.
    + match goal with
      | |- context [html_cards ?h ?c ?r] =>
          destruct (html_cards_result h c r) as [_ Hno]
      end.
      rewrite Hno; [done|]. by rewrite order_by_Permutation.
    + match goal with
      | |- context [dashboard_cards ?h ?c ?r] =>
          destruct (dashboard_cards_result h c r) as [_ Hno]
      end.
      rewrite Hno; [done|]. by rewrite order_by_Permutation.
  - intros item k Hwf Hnone Hk Hfresh Hall.
    unfold Enhanced.store_updates in Hall.
    rewrite store_updates_cons, store_updates_nil in Hall.
    destruct (execute_insert_fresh Enhanced.ext conn item k Hwf Hk Hfresh)
      as (r&Hex&_&_&Hext&_).
    rewrite Hex in Hall. cbn [fst] in Hall.
    apply Forall_app in Hall as [_ [Hr _]%Forall_cons].
    apply Hr. rewrite Hext. done.
Qed.

(** ** Counts by source *)

Lemma count_source_get k s counts :
  counts_get k (count_source s counts) =
  (counts_get k counts + if decide (k = s) then 1 else 0)%nat.
Proof.
  induction counts as [|[s' n] counts IH]; cbn.
  { repeat case_decide; subst; done. }
  destruct (decide (s' = s)) as [->|Hne]; cbn.
  - repeat case_decide; subst; try done; lia.
  - rewrite IH. repeat case_decide; subst; try done; lia.
Qed.

Lemma count_source_keys k s counts :
  k ∈ (count_source s counts).*1 ↔ k = s ∨ k ∈ counts.*1.
Proof.
  induction counts as [|[s' n] counts IH]; cbn.
  { rewrite list_elem_of_singleton. set_solver. }
  destruct (decide (s' = s)) as [->|Hne]; cbn.
  - rewrite !elem_of_cons. naive_solver.
  - rewrite !elem_of_cons, IH. naive_solver.
Qed.

Lemma count_source_NoDup s counts :
  NoDup counts.*1 → NoDup (count_source s counts).*1.
Proof.
  induction counts as [|[s' n] counts IH]; cbn.
  { intros _. apply NoDup_singleton. }
  intros [Hnin Hnd]%NoDup_cons.
  destruct (decide (s' = s)) as [->|Hne]; cbn.
  - by apply NoDup_cons.
  - apply NoDup_cons. split; [|by apply IH].
    rewrite count_source_keys. naive_solver.
Qed.

Lemma count_source_sum s counts :
  sum_list (count_source s counts).*2 = S (sum_list counts.*2).
Proof.
  induction counts as [|[s' n] counts IH]; cbn; [done|].
  destruct (decide (s' = s)) as [->|Hne]; cbn; [done|]. rewrite IH. lia.
Qed.

Lemma source_counts_fold (rows : list (Row ExtCols)) counts :
  let result :=
    foldl (λ counts row, count_source (r_source row) counts) counts rows in
  (NoDup counts.*1 → NoDup result.*1) ∧
  (∀ k, counts_get k result =
        (counts_get k counts + length (filter (λ r, r_source r = k) rows))%nat) ∧
  (∀ k, k ∈ result.*1 ↔ k ∈ counts.*1 ∨ k ∈ r_source <$> rows) ∧
  sum_list result.*2 = (sum_list counts.*2 + length rows)%nat.
Proof.
  cbn zeta. revert counts. induction rows as [|row rows IH]; intros counts.
  { cbn. split_and!; [done|intros; lia|set_solver|lia]. }
  cbn [foldl]. destruct (IH (count_source (r_source row) counts))
    as (Hnd&Hget&Hkeys&Hsum).
  split_and!.
  - intros H. by apply Hnd, count_source_NoDup.
  - intros k. rewrite Hget, count_source_get, filter_cons.
    repeat case_decide; subst; cbn; try done; lia.
  - intros k. rewrite Hkeys, count_source_keys, fmap_cons, elem_of_cons.
    naive_solver.
  - rewrite Hsum, count_source_sum. cbn. lia.
Qed.

(** X15.  The source breakdown of the professional dashboard has one entry
    for each source that occurs among the rows and for no other, the count
    of a source is the number of rows that carry it, and the counts add up
    to the number of rows. *)
Theorem source_counts_spec (rows : list (Row ExtCols)) :
  NoDup (source_counts rows).*1 ∧
  (∀ source, counts_get source (source_counts rows) =
             length (filter (λ r, r_source r = source) rows)) ∧
  (∀ source, source ∈ (source_counts rows).*1 ↔ source ∈ r_source <$> rows) ∧
  sum_list (source_counts rows).*2 = length rows.
Proof.
  destruct (source_counts_fold rows []) as (Hnd&Hget&Hkeys&Hsum).
  unfold source_counts. split_and!.
  - apply Hnd, NoDup_nil_2.
  - intros source. by rewrite Hget.
  - intros source. rewrite Hkeys. cbn. set_solver.
  - by rewrite Hsum.
Qed.

(** X16.  The statistics a professional report shows are those of the
    stored rows: the order in which the query returns them (each report
    has its own [ORDER BY]) changes neither the total nor a count. *)
Theorem report_statistics_ignore_order (cmp : Row ExtCols → Row ExtCols → comparison)
    (conn : list (Row ExtCols)) :
  total_updates (order_by cmp conn) = length conn ∧
  high_impact (order_by cmp conn) = high_impact conn ∧
  medium_impact (order_by cmp conn) = medium_impact conn ∧
  low_impact (order_by cmp conn) = low_impact conn ∧
  ∀ source, counts_get source (source_counts (order_by cmp conn)) =
            counts_get source (source_counts conn).
Proof.
  unfold total_updates, high_impact, medium_impact, low_impact, impact_count.
  split_and!; try by rewrite (order_by_Permutation cmp conn).
  intros source. unfold source_counts.
  destruct (source_counts_fold (order_by cmp conn) []) as (_&->&_).
  destruct (source_counts_fold conn []) as (_&->&_).
  by rewrite (order_by_Permutation cmp conn).
Qed.

(** ** Escaping, once more *)

Lemma escape_html_app a b :
  escape_html (a +:+ b) = escape_html a +:+ escape_html b.
Proof. unfold escape_html. by rewrite !replace_app. Qed.

Lemma escape_html_plain s :
  has_char "&" s = false → has_char "<" s = false → has_char ">" s = false →
  escape_html s = s.
Proof.
  induction s as [|c s IH]; [done|]. cbn [has_char].
  intros [Ha Hs1]%orb_false_elim [Hl Hs2]%orb_false_elim
    [Hg Hs3]%orb_false_elim.
  apply bool_decide_eq_false in Ha, Hl, Hg.
  rewrite escape_html_cons, IH by done. unfold escape_char.
  by rewrite !decide_False by done.
Qed.

Lemma escape_html_inj s t : escape_html s = escape_html t → s = t.
Proof.
  revert t. induction s as [|c s IH]; intros [|d t].
  - done.
  - rewrite escape_html_cons. unfold escape_char.
    repeat case_decide; by rewrite ?string_app_cons.
  - rewrite escape_html_cons. unfold escape_char.
    repeat case_decide; by rewrite ?string_app_cons.
  - rewrite !escape_html_cons. unfold escape_char.
    repeat case_decide; subst; rewrite ?string_app_cons;
      intros Heq; simplify_eq; try done; f_equal; by apply IH.
Qed.

(** X17.  The escaping chain of the HTML renderers
    ([replace] of [&], then of [<], then of [>]) works character by
    character: [&], [<] and [>] become [&amp;], [&lt;] and [&gt;], every
    other character stays.  So the result holds neither [<] nor [>], text
    without the three characters is left as it is, escaping commutes with
    concatenation, and no two texts are escaped to the same text. *)
Theorem escape_html_spec (s t : string) :
  escape_html s = Py.join "" (escape_char <$> list_ascii_of_string s) ∧
  has_char "<" (escape_html s) = false ∧
  has_char ">" (escape_html s) = false ∧
  (has_char "&" s = false ∧ has_char "<" s = false ∧ has_char ">" s = false →
   escape_html s = s) ∧
  escape_html (s +:+ t) = escape_html s +:+ escape_html t ∧
  (escape_html s = escape_html t → s = t).
Proof.
  split_and!.
  - induction s as [|c s IH]; [done|].
    rewrite escape_html_cons, IH. cbn [list_ascii_of_string fmap list_fmap].
    destruct s; [|done]. cbn. unfold escape_char.
    repeat case_decide; by rewrite ?string_app_cons.
  - apply escape_html_markup_free.
  - apply escape_html_markup_free.
  - intros (?&?&?). by apply escape_html_plain.
  - apply escape_html_app.
  - apply escape_html_inj.
Qed.

(** ** Word wrap *)

Lemma len_app a b : Py.len (a +:+ b) = (Py.len a + Py.len b)%nat.
Proof.
  induction a as [|c a IH]; [done|].
  rewrite string_app_cons. cbn [Py.len]. rewrite IH. lia.
Qed.

Lemma split_scan_cons c s :
  Py.split_scan (String c s) =
  if Py.isspace c then ("", Py.split s)
  else (String c (Py.split_scan s).1, (Py.split_scan s).2).
Proof.
  cbn [Py.split_scan]. unfold Py.split.
  by destruct (Py.split_scan s) as [w ws], (Py.isspace c).
Qed.

Lemma split_cons c s :
  Py.split (String c s) =
  if Py.isspace c then Py.split s
  else String c (Py.split_scan s).1 :: (Py.split_scan s).2.
Proof.
  unfold Py.split at 1. rewrite split_scan_cons.
  by destruct (Py.isspace c).
Qed.

Lemma split_scan_words s :
  spaceless (Py.split_scan s).1 = true ∧ Forall is_word (Py.split_scan s).2.
Proof.
  induction s as [|c s [IHw IHws]]; [by split|].
  rewrite split_scan_cons. unfold Py.split.
  destruct (Py.split_scan s) as [w ws]. cbn [fst snd] in *.
  destruct (Py.isspace c) eqn:Hc; cbn [fst snd].
  - split; [done|]. case_decide; [done|]. by constructor.
  - split; [|done]. cbn [spaceless]. by rewrite Hc.
Qed.

Lemma split_words s : Forall is_word (Py.split s).
Proof.
  destruct (split_scan_words s) as [Hw Hws]. unfold Py.split.
  destruct (Py.split_scan s) as [w ws]. cbn [fst snd] in *.
  case_decide; [done|]. by constructor.
Qed.

Lemma split_scan_spaceless w :
  spaceless w = true → Py.split_scan w = (w, []).
Proof.
  induction w as [|c w IH]; [done|]. cbn [spaceless].
  intros [Hc Hw]%andb_true_iff. apply negb_true_iff in Hc.
  by rewrite split_scan_cons, Hc, IH.
Qed.

Lemma split_word w : is_word w → Py.split w = [w].
Proof.
  intros [Hne Hw]. unfold Py.split. rewrite split_scan_spaceless by done.
  by rewrite decide_False.
Qed.

Lemma split_scan_space_app a c b :
  Py.isspace c = true →
  Py.split_scan (a +:+ String c b) =
  ((Py.split_scan a).1, (Py.split_scan a).2 ++ Py.split b).
Proof.
  intros Hc. induction a as [|d a IH].
  - change ("" +:+ String c b) with (String c b).
    by rewrite split_scan_cons, Hc.
  - rewrite string_app_cons, !split_scan_cons. unfold Py.split. rewrite IH.
    destruct (Py.split_scan a) as [w ws]. cbn [fst snd].
    destruct (Py.isspace d); [|done]. by case_decide.
Qed.

Lemma split_space_app a c b :
  Py.isspace c = true →
  Py.split (a +:+ String c b) = Py.split a ++ Py.split b.
Proof.
  intros Hc. unfold Py.split at 1 2. rewrite split_scan_space_app by done.
  destruct (Py.split_scan a) as [w ws]. cbn [fst snd]. by case_decide.
Qed.

Lemma split_blank_app indent s :
  blank indent = true → Py.split (indent +:+ s) = Py.split s.
Proof.
  induction indent as [|c indent IH]; [done|]. cbn [blank].
  intros [Hc Hi]%andb_true_iff.
  by rewrite string_app_cons, split_cons, Hc, IH.
Qed.

Lemma strip_blank s : blank s = true → Py.strip s = "".
Proof.
  unfold Py.strip. induction s as [|c s IH]; [done|]. cbn [blank Py.lstrip].
  intros [-> Hs]%andb_true_iff. by apply IH.
Qed.

Lemma rstrip_blank s : Py.rstrip s = "" → blank s = true.
Proof.
  induction s as [|c s IH]; [done|]. cbn [Py.rstrip blank].
  destruct (Py.rstrip s); [|done].
  destruct (Py.isspace c); [|done]. intros _. by apply IH.
Qed.

Lemma lstrip_blank s : blank (Py.lstrip s) = true → blank s = true.
Proof.
  induction s as [|c s IH]; [done|]. cbn [Py.lstrip blank].
  destruct (Py.isspace c) eqn:Hc; [done|]. cbn [blank]. by rewrite Hc.
Qed.

Lemma strip_nil_blank s : Py.strip s = "" ↔ blank s = true.
Proof.
  split; [|apply strip_blank]. intros H. by apply lstrip_blank, rstrip_blank.
Qed.

Lemma join_snoc sep (ws : list string) w :
  ws ≠ [] → Py.join sep (ws ++ [w]) = Py.join sep ws +:+ sep +:+ w.
Proof. intros Hws. by rewrite join_app_nonempty. Qed.

Lemma split_join_words ws :
  Forall is_word ws → Py.split (Py.join " " ws) = ws.
Proof.
  induction 1 as [|w ws Hw Hws IH]; [done|].
  destruct ws as [|w' ws]; [by apply split_word|].
  change (Py.join " " (w :: w' :: ws))
    with (w +:+ String " " (Py.join " " (w' :: ws))).
  by rewrite split_space_app, split_word, IH.
Qed.

Lemma string_app_nil_r a : a +:+ "" = a.
Proof. induction a as [|c a IH]; [done|]. by rewrite string_app_cons, IH. Qed.

Lemma string_app_inv_nil a x : a +:+ x = a → x = "".
Proof.
  induction a as [|c a IH]; [done|]. rewrite string_app_cons.
  intros [=]. by apply IH.
Qed.

Lemma join_words_nonempty w ws : is_word w → Py.join " " (w :: ws) ≠ "".
Proof.
  intros [Hne _]. destruct w as [|c w]; [done|].
  destruct ws; [done|]. cbn [Py.join]. by rewrite string_app_cons.
Qed.

(** The wrap loop, run on [words] from a buffer that holds the words [ws]:
    the lines it writes and the buffer it leaves hold [ws ++ words], in
    order; each is the indentation followed by its words, with single
    spaces between them. *)
Lemma wrap_step_fold indent width words : ∀ lines ws,
  blank indent = true → Forall is_word words → Forall is_word ws →
  ∃ new ws',
    foldl (wrap_step indent width) (lines, indent +:+ Py.join " " ws) words =
      (lines ++ new, indent +:+ Py.join " " ws') ∧
    Forall is_word ws' ∧
    concat (Py.split <$> new) ++ ws' = ws ++ words ∧
    Forall (λ line, line = indent +:+ Py.join " " (Py.split line)) new ∧
    (Forall (λ word, (Py.len indent + Py.len word ≤ width)%nat) words →
     ws = [] ∨ (Py.len (indent +:+ Py.join " " ws) ≤ width)%nat →
     Forall (λ line, (Py.len line ≤ width)%nat) new ∧
     (ws' = [] ∨ (Py.len (indent +:+ Py.join " " ws') ≤ width)%nat)).
Proof.
  induction words as [|w words IH]; intros lines ws Hind Hwords Hws.
  { exists [], ws. rewrite !app_nil_r. by split_and!. }
  apply Forall_cons in Hwords as [Hw Hwords].
  assert (Py.split (indent +:+ Py.join " " ws) = ws) as Hsplit.
  { by rewrite split_blank_app, split_join_words. }
  cbn [foldl]. unfold wrap_step at 2. case_decide as Hflush.
  - destruct (IH (lines ++ [indent +:+ Py.join " " ws]) [w])
      as (new&ws'&Hst&Hws'&Hcat&Hform&Hwidth); [done|done|by constructor|].
    change (Py.join " " [w]) with w in Hst. rewrite Hst.
    exists ((indent +:+ Py.join " " ws) :: new), ws'. split_and!.
    + by rewrite <- app_assoc.
    + done.
    + rewrite fmap_cons, concat_cons, Hsplit, <- app_assoc, Hcat. done.
    + constructor; [by rewrite Hsplit|done].
    + intros [Hlen Hlens]%Forall_cons Hbuf.
      destruct Hwidth as [Hnew Hbuf'];
        [done|right; cbn [Py.join]; rewrite len_app; lia|].
      split; [|done]. constructor; [|done].
      destruct Hbuf as [->|Hbuf]; [|done].
      cbn [Py.join]. rewrite string_app_nil_r. lia.
  - destruct ws as [|w0 ws].
    + cbn [Py.join]. rewrite string_app_nil_r. rewrite decide_False by (by intros []).
      change ("" +:+ w) with w.
      destruct (IH lines [w]) as (new&ws'&Hst&Hws'&Hcat&Hform&Hwidth);
        [done|done|by constructor|].
      change (Py.join " " [w]) with w in Hst. rewrite Hst.
      exists new, ws'. split_and!; try done.
      intros [Hlen Hlens]%Forall_cons _. apply Hwidth; [done|].
      right. cbn [Py.join]. rewrite len_app. lia.
    + rewrite decide_True; last first.
      { intros Heq%string_app_inv_nil. apply Forall_cons in Hws as [Hw0 _].
        by apply (join_words_nonempty w0 ws). }
      destruct (IH lines ((w0 :: ws) ++ [w]))
        as (new&ws'&Hst&Hws'&Hcat&Hform&Hwidth);
        [done|done|apply Forall_app; split; [done|by constructor]|].
      rewrite join_snoc, <- !string_app_assoc in Hst by done.
      rewrite <- !string_app_assoc, Hst.
      exists new, ws'. split_and!; try done.
      * by rewrite Hcat, <- app_assoc.
      * intros [Hlen Hlens]%Forall_cons _. apply Hwidth; [done|]. right.
        rewrite join_snoc, <- !string_app_assoc, !len_app by done.
        rewrite !len_app in Hflush. change (Py.len " ") with 1%nat. lia.
Qed.

(** X18.  The word wrap of the plain-text digests loses no word and moves
    none: the words of the lines, read in order, are the words of the
    summary.  Every line is the indentation followed by its words with one
    space between them, so white space of any kind and length in the
    summary becomes one space or a line break.  When no word is longer
    than the room the indentation leaves, no line is longer than the
    width. *)
Theorem wrap_summary_keeps_words (indent : string) (width : nat)
    (summary : string) :
  blank indent = true →
  concat (Py.split <$> wrap_summary indent width summary) = Py.split summary ∧
  Forall (λ line, line = indent +:+ Py.join " " (Py.split line))
    (wrap_summary indent width summary) ∧
  (Forall (λ word, (Py.len indent + Py.len word ≤ width)%nat)
     (Py.split summary) →
   Forall (λ line, (Py.len line ≤ width)%nat)
     (wrap_summary indent width summary)).
Proof.
  intros Hind. unfold wrap_summary.
  destruct (wrap_step_fold indent width (Py.split summary) [] [])
    as (new&ws'&Hst&Hws'&Hcat&Hform&Hwidth);
    [done|apply split_words|done|].
  cbn [Py.join app] in Hst, Hcat. rewrite string_app_nil_r in Hst.
  rewrite Hst.
  assert (Py.split (indent +:+ Py.join " " ws') = ws') as Hsplit.
  { by rewrite split_blank_app, split_join_words. }
  case_decide as Hstrip.
  - split_and!.
    + by rewrite fmap_app, concat_app, fmap_cons, concat_cons, Hsplit,
        app_nil_r.
    + apply Forall_app. split; [done|]. constructor; [by rewrite Hsplit|done].
    + intros Hlen. destruct Hwidth as [Hnew Hbuf]; [done|by left|].
      apply Forall_app. split; [done|]. constructor; [|done].
      destruct Hbuf as [->|Hbuf]; [|done].
      cbn [Py.join] in Hstrip. rewrite string_app_nil_r in Hstrip.
      by rewrite strip_blank in Hstrip.
  - assert (ws' = []) as ->.
    { apply strip_nil_blank in Hstrip.
      rewrite <- (string_app_nil_r (indent +:+ _)) in Hsplit.
      by rewrite split_blank_app in Hsplit. }
    rewrite app_nil_r in Hcat. split_and!; [done|done|].
    intros Hlen. by apply Hwidth; [|left].
Qed.

(** The indentation and the width of [generate_plain_text_email], and a
    summary with a line break and a run of spaces in it. *)
Lemma wrap_summary_keeps_words_witness :
  let summary := "Large undertakings  report under ESRS
from financial year 2025" in
  blank "   " = true ∧
  concat (Py.split <$> wrap_summary "   " 80 summary) = Py.split summary ∧
  Forall (λ line, line = "   " +:+ Py.join " " (Py.split line))
    (wrap_summary "   " 80 summary) ∧
  (Forall (λ word, (Py.len "   " + Py.len word ≤ 80)%nat) (Py.split summary) →
   Forall (λ line, (Py.len line ≤ 80)%nat) (wrap_summary "   " 80 summary)).
Proof.
  cbv zeta. split; [reflexivity|].
  exact (wrap_summary_keeps_words "   " 80 _ eq_refl).
Defined.

(** ** Every row is listed *)

(** A loop that only appends lines, among them the entry of the row at
    hand, ends with the entry of every row among its lines. *)
Section Listing.
Context {T R : Type}.
Variable lines_of : T → list string.
Variable f : T → R → T.
Variable entry : R → list string.
Hypothesis f_appends : ∀ st row,
  ∃ a b, lines_of (f st row) = lines_of st ++ a ++ entry row ++ b.

Lemma foldl_extends rows : ∀ st,
  ∃ more, lines_of (foldl f st rows) = lines_of st ++ more.
Proof.
  induction rows as [|row rows IH]; intros st.
  { exists []. by rewrite app_nil_r. }
  cbn [foldl]. destruct (IH (f st row)) as [more ->].
  destruct (f_appends st row) as (a&b&->).
  eexists. by rewrite <- app_assoc.
Qed.

Lemma foldl_lists rows : ∀ st row,
  row ∈ rows →
  ∃ l1 l2, lines_of (foldl f st rows) = l1 ++ entry row ++ l2.
Proof.
  induction rows as [|r rows IH]; intros st row Hin.
  { by apply elem_of_nil in Hin. }
  apply elem_of_cons in Hin as [->|Hin]; [|by apply IH].
  cbn [foldl]. destruct (foldl_extends rows (f st r)) as [more ->].
  destruct (f_appends st r) as (a&b&->).
  exists (lines_of st ++ a), (b ++ more). by rewrite <- !app_assoc.
Qed.
End Listing.

Lemma occurs_in_join (e l1 l2 : list string) :
  e ≠ [] → occurs_in (Py.join Py.nl e) (Py.join Py.nl (l1 ++ e ++ l2)).
Proof.
  intros He. unfold occurs_in.
  destruct l1 as [|x l1], l2 as [|y l2].
  - exists "", "". rewrite app_nil_r. cbn [app]. by rewrite string_app_nil_r.
  - exists "", (Py.nl +:+ Py.join Py.nl (y :: l2)). cbn [app].
    by rewrite join_app_nonempty.
  - exists (Py.join Py.nl (x :: l1) +:+ Py.nl), "".
    rewrite app_nil_r, join_app_nonempty by done.
    by rewrite string_app_nil_r, string_app_assoc.
  - exists (Py.join Py.nl (x :: l1) +:+ Py.nl),
      (Py.nl +:+ Py.join Py.nl (y :: l2)).
    rewrite join_app_nonempty by (done || by destruct e).
    rewrite join_app_nonempty by done. by rewrite !string_app_assoc.
Qed.

Lemma occurs_in_lines (e lines footer l1 l2 : list string) :
  e ≠ [] → lines = l1 ++ e ++ l2 →
  occurs_in (Py.join Py.nl e) (Py.join Py.nl (lines ++ footer)).
Proof.
  intros He ->. rewrite <- !app_assoc. by apply occurs_in_join.
Qed.

(** The lines a step puts before the entry are none, or the heading of a
    new source. *)
Ltac appends_tac :=
  rewrite <- ?app_assoc;
  first [ by eexists [], _ | by eexists [_], _ | by eexists [_; _], _
        | by eexists [_; _; _], _ | by eexists [_; _; _; _], _
        | by eexists [_; _; _; _; _], _ ].

Lemma plain_text_step_appends {E} (st : list string * option string)
    (row : Row E) :
  ∃ a b, (plain_text_step st row).1 = st.1 ++ a ++ plain_text_entry row ++ b.
Proof.
  destruct st as [lines cs]. unfold plain_text_step, plain_text_entry.
  repeat case_decide; cbn [fst]; appends_tac.
Qed.

Lemma dashboard_step_appends {E} (st : list string * option string)
    (row : Row E) :
  ∃ a b, (dashboard_step st row).1 = st.1 ++ a ++ [dashboard_entry row] ++ b.
Proof.
  destruct st as [lines cs]. unfold dashboard_step, dashboard_entry.
  repeat case_decide; cbn [fst]; appends_tac.
Qed.

Lemma html_email_step_appends {E} (st : list string * option string)
    (row : Row E) :
  ∃ a b, (html_email_step st row).1 = st.1 ++ a ++ html_email_entry row ++ b.
Proof.
  destruct st as [lines cs]. unfold html_email_step, html_email_entry.
  repeat case_decide; cbn [fst]; appends_tac.
Qed.

Lemma generate_plain_text_email_lists {E} now (conn : list (Row E)) row :
  row ∈ conn →
  occurs_in (Py.join Py.nl (plain_text_entry row))
    (generate_plain_text_email now conn).
Proof.
  intros Hrow. unfold generate_plain_text_email. cbv zeta.
  match goal with
  | |- context [foldl plain_text_step ?st (order_by ?cmp conn)] =>
      destruct (foldl_lists fst plain_text_step plain_text_entry
                  plain_text_step_appends (order_by cmp conn) st row)
        as (l1&l2&Hlines);
        [by rewrite order_by_Permutation|];
      destruct (foldl plain_text_step st (order_by cmp conn)) as [lines cs]
  end.
  by eapply occurs_in_lines.
Qed.

Lemma generate_dashboard_lists {E} now (conn : list (Row E)) row :
  row ∈ conn → occurs_in (dashboard_entry row) (generate_dashboard now conn).
Proof.
  intros Hrow. unfold generate_dashboard. cbv zeta.
  match goal with
  | |- context [foldl dashboard_step ?st (order_by ?cmp conn)] =>
      destruct (foldl_lists fst dashboard_step (λ r, [dashboard_entry r])
                  dashboard_step_appends (order_by cmp conn) st row)
        as (l1&l2&Hlines);
        [by rewrite order_by_Permutation|];
      destruct (foldl dashboard_step st (order_by cmp conn)) as [lines cs]
  end.
  cbn [fst] in Hlines. subst lines.
  change (dashboard_entry row) with (Py.join Py.nl [dashboard_entry row]).
  case_decide; rewrite <- !app_assoc; by apply occurs_in_join.
Qed.

Lemma generate_html_email_lists {E} now (conn : list (Row E)) row :
  row ∈ conn →
  occurs_in (Py.join Py.nl (html_email_entry row))
    (generate_html_email now conn).
Proof.
  intros Hrow. unfold generate_html_email. cbv zeta.
  match goal with
  | |- context [foldl html_email_step ?st (order_by ?cmp conn)] =>
      destruct (foldl_lists fst html_email_step html_email_entry
                  html_email_step_appends (order_by cmp conn) st row)
        as (l1&l2&Hlines);
        [by rewrite order_by_Permutation|];
      destruct (foldl html_email_step st (order_by cmp conn)) as [lines cs]
  end.
  by eapply occurs_in_lines.
Qed.

(** X19.  The three digests of the basic pipeline list every stored row,
    whatever the grouping by source does: the plain-text digest holds the
    row's title, date and link lines, the dashboard its table row, the
    HTML digest its card. *)
Theorem digests_list_every_row {E} (now : string) (conn : list (Row E)) :
  Forall (λ row,
    occurs_in (Py.join Py.nl (plain_text_entry row))
      (generate_plain_text_email now conn) ∧
    occurs_in (dashboard_entry row) (generate_dashboard now conn) ∧
    occurs_in (Py.join Py.nl (html_email_entry row))
      (generate_html_email now conn)) conn.
Proof.
  apply Forall_forall. intros row Hrow. split_and!.
  - by apply generate_plain_text_email_lists.
  - by apply generate_dashboard_lists.
  - by apply generate_html_email_lists.
Qed.

Lemma compose_item_appends lines item :
  ∃ a b, compose_item lines item = lines ++ a ++ mail_entry item ++ b.
Proof. exists [], []. by rewrite app_nil_r. Qed.

Lemma compose_item_enhanced_appends lines item :
  ∃ a b, compose_item_enhanced lines item =
         lines ++ a ++ mail_entry_enhanced item ++ b.
Proof.
  exists [], []. unfold compose_item_enhanced, mail_entry_enhanced.
  destruct (Py.truthy _); by rewrite app_nil_r, <- ?app_assoc.
Qed.

(** X20.  The digest mail of either agent lists every record it is given:
    the body holds the lines of each record, with the text [None] for a
    field that is [None]; the enhanced agent writes the deadline line for
    the records that have a deadline. *)
Theorem compose_email_lists_every_record (environ : gmap string string)
    (today : string) (items : list UpdateItem) :
  Forall (λ item,
    occurs_in (Py.join Py.nl (mail_entry item))
      (email_body (compose_email environ today items)) ∧
    occurs_in (Py.join Py.nl (mail_entry_enhanced item))
      (email_body (compose_email_enhanced environ today items))) items.
Proof.
  apply Forall_forall. intros item Hitem.
  assert (items ≠ []) as Hne by (by intros ->; apply elem_of_nil in Hitem).
  unfold compose_email, compose_email_enhanced. cbv zeta. cbn [email_body].
  rewrite !decide_False by done. split.
  - match goal with
    | |- context [foldl compose_item ?st items] =>
        destruct (foldl_lists id compose_item mail_entry
                    compose_item_appends items st item Hitem)
          as (l1&l2&Hlines)
    end.
    unfold id in Hlines. rewrite Hlines.
    rewrite <- (app_nil_r (_ ++ _ ++ l2)).
    by eapply occurs_in_lines.
  - match goal with
    | |- context [foldl compose_item_enhanced ?st items] =>
        destruct (foldl_lists id compose_item_enhanced mail_entry_enhanced
                    compose_item_enhanced_appends items st item Hitem)
          as (l1&l2&Hlines)
    end.
    unfold id in Hlines. rewrite Hlines.
    eapply occurs_in_lines; [|done]. unfold mail_entry_enhanced. done.
Qed.

(** X21.  The dashboard the daily task writes lists every row the database
    held before the run, and for every gathered record that carries its
    required fields a row with the record's source, title and link: the
    row first stored under this key, which need not carry the record's
    date and summary. *)
Theorem daily_dashboard_lists_gathered (SOURCES : list (string * Producer))
    (now dashboard_path : string) (db : Db unit) :
  let page := (run_daily_task SOURCES now dashboard_path db).2 in
  Forall (λ row, occurs_in (dashboard_entry row) page)
    (Basic.initialise_db db) ∧
  Forall (λ item, well_formed item →
            ∃ row : Row unit, item_key item = Some (row_key row) ∧
                   occurs_in (dashboard_entry row) page)
    (gather_updates SOURCES).2.
Proof.
  cbn zeta. unfold run_daily_task.
  destruct (gather_updates SOURCES) as [printed items]. cbn [snd].
  pose proof (store_updates_keys_mono Basic.ext (Basic.initialise_db db) items)
    as Hmono.
  pose proof (store_updates_rows_prefix Basic.ext (Basic.initialise_db db)
                items) as [more Hprefix].
  pose proof (store_updates_stores_all Basic.ext (Basic.initialise_db db)
                items) as Hall.
  unfold Basic.store_updates.
  destruct (store_updates Basic.ext (Basic.initialise_db db) items)
    as [conn new_items]. cbn [fst snd] in *. split.
  - apply Forall_forall. intros row Hrow. apply generate_dashboard_lists.
    rewrite Hprefix. apply elem_of_app. by left.
  - apply Forall_forall. intros item Hitem Hwf.
    destruct (Hall item Hitem Hwf) as (k&Hk&Hin).
    apply list_elem_of_fmap in Hin as (row&->&Hrow).
    exists row. split; [done|]. by apply generate_dashboard_lists.
Qed.

(** ** One section per source *)

Lemma ascii_compare_N a b :
  Ascii.compare a b = N.compare (N_of_ascii a) (N_of_ascii b).
Proof. reflexivity. Qed.

Lemma ascii_compare_refl a : Ascii.compare a a = Eq.
Proof. rewrite ascii_compare_N. apply N.compare_refl. Qed.

Lemma ascii_compare_lt_trans a b c :
  Ascii.compare a b = Lt → Ascii.compare b c = Lt → Ascii.compare a c = Lt.
Proof.
  rewrite !ascii_compare_N, !N.compare_lt_iff. apply N.lt_trans.
Qed.

Lemma cmp_text_refl a : cmp_text a a = Eq.
Proof.
  unfold cmp_text. induction a as [|c a IH]; [done|].
  cbn. by rewrite ascii_compare_refl.
Qed.

Lemma cmp_text_eq a b : cmp_text a b = Eq → a = b.
Proof. apply String.compare_eq_iff. Qed.

Lemma cmp_text_lt_trans a b c :
  cmp_text a b = Lt → cmp_text b c = Lt → cmp_text a c = Lt.
Proof.
  unfold cmp_text. revert b c.
  induction a as [|x a IH]; intros [|y b] [|z c]; cbn; try done.
  destruct (Ascii.compare x y) eqn:Hxy, (Ascii.compare y z) eqn:Hyz;
    try done.
  - apply Ascii.compare_eq_iff in Hxy, Hyz. subst.
    rewrite ascii_compare_refl. apply IH.
  - apply Ascii.compare_eq_iff in Hxy. subst. by rewrite Hyz.
  - apply Ascii.compare_eq_iff in Hyz. subst. by rewrite Hxy.
  - by rewrite (ascii_compare_lt_trans x y z).
Qed.

Lemma cmp_text_antisym a b : cmp_text a b = CompOpp (cmp_text b a).
Proof. apply String.compare_antisym. Qed.

(** [ORDER BY] sorts: no row is followed by one that comes before it. *)
Lemma insert_row_sorted {A} (cmp : A → A → comparison) x l :
  (∀ a b, cmp a b = Gt → cmp b a ≠ Gt) →
  Sorted (λ a b, cmp a b ≠ Gt) l →
  Sorted (λ a b, cmp a b ≠ Gt) (insert_row cmp x l).
Proof.
  intros Hanti. induction 1 as [|y l Hl IH Hhd]; cbn [insert_row].
  { by repeat constructor. }
  destruct (cmp x y) eqn:Hxy.
  - constructor; [by constructor|]. constructor. by rewrite Hxy.
  - constructor; [by constructor|]. constructor. by rewrite Hxy.
  - constructor; [done|].
    destruct Hhd as [|z l Hyz]; cbn [insert_row].
    + constructor. by apply Hanti.
    + destruct (cmp x z); constructor; try done; by apply Hanti.
Qed.

Lemma order_by_sorted {A} (cmp : A → A → comparison) rows :
  (∀ a b, cmp a b = Gt → cmp b a ≠ Gt) →
  Sorted (λ a b, cmp a b ≠ Gt) (order_by cmp rows).
Proof.
  intros Hanti. unfold order_by.
  induction rows as [|row rows IH]; [constructor|].
  cbn [foldr]. by apply insert_row_sorted.
Qed.

Lemma Sorted_weaken {A} (R1 R2 : A → A → Prop) l :
  (∀ a b, R1 a b → R2 a b) → Sorted R1 l → Sorted R2 l.
Proof.
  intros HR. induction 1 as [|x l Hl IH Hhd]; constructor; [done|].
  destruct Hhd; constructor. by apply HR.
Qed.

Lemma by_source_then_date_sorted {E} (conn : list (Row E)) :
  Sorted (λ a b, cmp_text (r_source a) (r_source b) ≠ Gt)
    (order_by by_source_then_date conn).
Proof.
  eapply Sorted_weaken; last apply (order_by_sorted by_source_then_date).
  - intros a b. unfold by_source_then_date, and_then.
    by destruct (cmp_text (r_source a) (r_source b)).
  - intros a b. unfold by_source_then_date, and_then, desc.
    rewrite (cmp_text_antisym (r_source b)), (cmp_text_antisym (r_date b)).
    by destruct (cmp_text (r_source a) (r_source b)),
      (cmp_text (r_date a) (r_date b)).
Qed.

(** Facts on [source_runs]. *)
Lemma source_runs_cons {E} (row : Row E) rest :
  ∃ run runs,
    source_runs (row :: rest) = (r_source row, row :: run) :: runs ∧
    (source_runs rest = (r_source row, run) :: runs ∨
     run = [] ∧ runs = source_runs rest ∧
     ∀ sec, head (source_runs rest) = Some sec → sec.1 ≠ r_source row).
Proof.
  cbn [source_runs]. destruct (source_runs rest) as [|[s run] runs].
  - exists [], []. split; [done|]. right. by split_and!.
  - case_decide as Hs.
    + subst s. exists run, runs. split; [done|]. by left.
    + exists [], ((s, run) :: runs). split; [done|]. right. split_and!; try done.
      intros sec [= <-]. cbn. congruence.
Qed.

Lemma source_runs_concat {E} (rows : list (Row E)) :
  concat (source_runs rows).*2 = rows.
Proof.
  induction rows as [|row rest IH]; [done|].
  destruct (source_runs_cons row rest) as (run&runs&->&[Hrest|(->&->&_)]).
  - rewrite Hrest in IH. cbn in *. by rewrite IH.
  - cbn. by rewrite IH.
Qed.

Lemma source_runs_uniform {E} (rows : list (Row E)) :
  Forall (λ sec, sec.2 ≠ [] ∧ Forall (λ r, r_source r = sec.1) sec.2)
    (source_runs rows).
Proof.
  induction rows as [|row rest IH]; [constructor|].
  destruct (source_runs_cons row rest) as (run&runs&->&[Hrest|(->&->&_)]).
  - rewrite Hrest in IH. apply Forall_cons in IH as [[_ Hrun] Hruns].
    constructor; [|done]. split; [done|]. by constructor.
  - constructor; [|done]. split; [done|]. by repeat constructor.
Qed.

Lemma source_runs_adjacent {E} (rows : list (Row E)) :
  Sorted (λ s t, s ≠ t) (source_runs rows).*1.
Proof.
  induction rows as [|row rest IH]; [constructor|].
  destruct (source_runs_cons row rest) as (run&runs&->&[Hrest|(->&->&Hne)]).
  - by rewrite Hrest in IH.
  - cbn. constructor; [done|].
    destruct (source_runs rest) as [|sec secs]; constructor.
    intros Heq. by apply (Hne sec).
Qed.

Lemma source_runs_head {E} (rows : list (Row E)) :
  head (source_runs rows).*1 = r_source <$> head rows.
Proof.
  destruct rows as [|row rest]; [done|].
  by destruct (source_runs_cons row rest) as (run&runs&->&_).
Qed.

Lemma source_runs_sorted {E} (rows : list (Row E)) :
  Sorted (λ a b, cmp_text (r_source a) (r_source b) ≠ Gt) rows →
  Sorted (λ s t, cmp_text s t = Lt) (source_runs rows).*1.
Proof.
  induction 1 as [|row rest Hrest IH Hhd]; [constructor|].
  pose proof (source_runs_head rest) as Hhead.
  destruct (source_runs_cons row rest) as (run&runs&->&[Hrest'|(->&->&Hne)]).
  - by rewrite Hrest' in IH.
  - cbn. constructor; [done|].
    destruct (source_runs rest) as [|sec secs]; constructor.
    destruct Hhd as [|row' rest' Hle]; [done|].
    cbn in Hhead. injection Hhead as Hsec.
    specialize (Hne sec eq_refl). rewrite <- Hsec in Hle.
    destruct (cmp_text (r_source row) sec.1) eqn:Hcmp; try done.
    apply cmp_text_eq in Hcmp. congruence.
Qed.

Lemma sorted_lt_NoDup (l : list string) :
  Sorted (λ s t, cmp_text s t = Lt) l → NoDup l.
Proof.
  intros Hl. apply Sorted_StronglySorted in Hl;
    last (intros a b c; apply cmp_text_lt_trans).
  induction Hl as [|s l Hl IH Hall]; constructor; [|done].
  intros Hin. rewrite Forall_forall in Hall. specialize (Hall s Hin).
  by rewrite cmp_text_refl in Hall.
Qed.

(** When no two runs have the same source, a run holds all rows of its
    source. *)
Lemma runs_filter {E} (runs : list (string * list (Row E))) :
  Forall (λ sec, sec.2 ≠ [] ∧ Forall (λ r, r_source r = sec.1) sec.2) runs →
  NoDup runs.*1 →
  Forall (λ sec, sec.2 = filter (λ r, r_source r = sec.1) (concat runs.*2))
    runs.
Proof.
  induction 1 as [|[s run] runs [_ Hrun] Hruns IH]; [constructor|].
  cbn [fmap list_fmap fst snd concat]. intros [Hnin Hnd]%NoDup_cons.
  assert (∀ t, t ∉ runs.*1 →
            filter (λ r : Row E, r_source r = t) (concat runs.*2) = [])
    as Hnone.
  { intros t Ht. clear IH Hnd Hnin. induction Hruns as [|[s' run'] runs [_ Hrun'] Hruns IH'];
      [done|].
    cbn [fmap list_fmap fst snd concat] in *.
    apply not_elem_of_cons in Ht as [Hne Ht].
    rewrite filter_app, IH', app_nil_r by done.
    clear -Hrun' Hne. induction Hrun' as [|r run' Hr _ IH]; [done|].
    cbn in Hr. rewrite filter_cons, decide_False by congruence. done. }
  assert (∀ t, filter (λ r : Row E, r_source r = t) run =
               if decide (s = t) then run else []) as Hmine.
  { intros t. clear -Hrun. cbn in Hrun.
    induction Hrun as [|r run Hr _ IH]; [by case_decide|].
    rewrite filter_cons, IH. repeat case_decide; congruence. }
  constructor.
  - cbn [fst snd]. rewrite filter_app, Hmine, Hnone, decide_True, app_nil_r;
      done.
  - specialize (IH Hnd). rewrite Forall_forall in IH |- *.
    intros [t run'] Hin. cbn [fst snd].
    rewrite filter_app, Hmine, decide_False; [by apply (IH (t, run'))|].
    intros ->. apply Hnin. by apply (list_elem_of_fmap_2 fst) in Hin.
Qed.

(** The loops of the digests: a step closes the section of the current
    source and opens one for the source of the row when the two differ,
    then writes the entry of the row. *)
Section Sections.
Context {E : Type}.
Variable opening : string → list string.
Variable closing : list string.
Variable entry : Row E → list string.
Variable step : list string * option string → Row E →
                list string * option string.
Hypothesis step_spec : ∀ lines cs row,
  step (lines, cs) row =
  (lines ++
   (if decide (Some (r_source row) ≠ cs)
    then (if decide (cs ≠ None) then closing else []) ++ opening (r_source row)
    else []) ++
   entry row,
   Some (r_source row)).


Lemma sections_from_fresh (s : string) (runs : list (string * list (Row E))) :
  (∀ sec, head runs = Some sec → sec.1 ≠ s) →
  match runs with
  | (s', run) :: runs' =>
      if decide (s' = s)
      then concat (entry <$> run) ++ closing ++
           concat (section_lines opening closing entry <$> runs')
      else closing ++ concat (section_lines opening closing entry <$> (s', run) :: runs')
  | [] => closing
  end = closing ++ concat (section_lines opening closing entry <$> runs).
Proof.
  intros Hne. destruct runs as [|[s' run] runs']; [by rewrite app_nil_r|].
  rewrite decide_False; [done|]. by apply (Hne (s', run)).
Qed.

Lemma foldl_sections_from rows : ∀ lines s,
  (foldl step (lines, Some s) rows).1 ++ closing =
  lines ++
  match source_runs rows with
  | (s', run) :: runs =>
      if decide (s' = s)
      then concat (entry <$> run) ++ closing ++
           concat (section_lines opening closing entry <$> runs)
      else closing ++ concat (section_lines opening closing entry <$> (s', run) :: runs)
  | [] => closing
  end.
Proof.
  induction rows as [|row rest IH]; intros lines s; [done|].
  cbn [foldl]. rewrite step_spec, IH.
  destruct (source_runs_cons row rest) as (run&runs&->&[Hrest|(->&->&Hne)]).
  - rewrite Hrest.
    rewrite (decide_True (P := r_source row = r_source row)) by done.
    rewrite (decide_True (P := Some s ≠ None)) by done.
    destruct (decide (r_source row = s)) as [->|Hs].
    + rewrite decide_False by (by intros []).
      cbn. by rewrite <- !app_assoc.
    + rewrite decide_True by congruence.
      unfold section_lines at 2. cbn. by rewrite <- !app_assoc.
  - rewrite sections_from_fresh by done.
    rewrite (decide_True (P := Some s ≠ None)) by done.
    destruct (decide (r_source row = s)) as [->|Hs].
    + rewrite decide_False by (by intros []).
      cbn. by rewrite <- !app_assoc.
    + rewrite decide_True by congruence.
      unfold section_lines at 2. cbn. by rewrite <- !app_assoc.
Qed.

Lemma foldl_sections rows lines :
  (foldl step (lines, None) rows).1 ++
  (if decide (rows ≠ []) then closing else []) =
  lines ++ concat (section_lines opening closing entry <$> source_runs rows).
Proof.
  destruct rows as [|row rest]; [done|].
  rewrite (decide_True (P := row :: rest ≠ [])) by done. cbn [foldl].
  rewrite step_spec, foldl_sections_from.
  rewrite (decide_True (P := Some (r_source row) ≠ None)) by done.
  rewrite (decide_False (P := None ≠ None)) by (by intros []).
  destruct (source_runs_cons row rest) as (run&runs&->&[Hrest|(->&->&Hne)]).
  - rewrite Hrest. rewrite decide_True by done.
    unfold section_lines at 2. cbn. by rewrite <- !app_assoc.
  - rewrite sections_from_fresh by done.
    unfold section_lines at 2. cbn. by rewrite <- !app_assoc.
Qed.
End Sections.

Lemma html_email_step_spec {E} lines cs (row : Row E) :
  html_email_step (lines, cs) row =
  (lines ++
   (if decide (Some (r_source row) ≠ cs)
    then (if decide (cs ≠ None) then [] else []) ++
         ["<h2>" +:+ r_source row +:+ "</h2>"]
    else []) ++
   html_email_entry row,
   Some (r_source row)).
Proof.
  unfold html_email_step, html_email_entry.
  destruct (decide (Some (r_source row) ≠ cs)) as [Hne|Heq%dec_stable].
  - case_decide; cbn [app]; by rewrite <- app_assoc.
  - by subst cs.
Qed.

Lemma dashboard_step_spec {E} lines cs (row : Row E) :
  dashboard_step (lines, cs) row =
  (lines ++
   (if decide (Some (r_source row) ≠ cs)
    then (if decide (cs ≠ None) then ["</tbody></table>"] else []) ++
         ["<h2>" +:+ r_source row +:+ "</h2>";
          "<table><thead><tr><th>Date</th><th>Title</th>" +:+
          "<th>Description</th></tr></thead><tbody>"]
    else []) ++
   [dashboard_entry row],
   Some (r_source row)).
Proof.
  unfold dashboard_step, dashboard_entry.
  destruct (decide (Some (r_source row) ≠ cs)) as [Hne|Heq%dec_stable].
  - case_decide; cbn [app]; by rewrite <- ?app_assoc.
  - by subst cs.
Qed.

Lemma plain_text_step_spec {E} lines cs (row : Row E) :
  plain_text_step (lines, cs) row =
  (lines ++
   (if decide (Some (r_source row) ≠ cs)
    then (if decide (cs ≠ None) then [""] else []) ++
         [Py.mul "-" 80; "SOURCE: " +:+ r_source row; Py.mul "-" 80; ""]
    else []) ++
   (plain_text_entry row ++ wrap_summary "   " 80 (r_summary row) ++ [""]),
   Some (r_source row)).
Proof.
  unfold plain_text_step, plain_text_entry.
  destruct (decide (Some (r_source row) ≠ cs)) as [Hne|Heq%dec_stable].
  - case_decide; cbn [app]; by rewrite <- ?app_assoc.
  - by subst cs.
Qed.

Lemma elem_of_concat {A} (x : A) (ls : list (list A)) :
  x ∈ concat ls ↔ ∃ l, x ∈ l ∧ l ∈ ls.
Proof.
  induction ls as [|l ls IH]; cbn [concat].
  { split; [by intros ?%elem_of_nil|by intros (l&_&?%elem_of_nil)]. }
  rewrite elem_of_app, IH. split.
  - intros [Hx|(l'&Hx&Hl')]; [exists l|exists l']; split; try done;
      [by left|by right].
  - intros (l'&Hx&[->|Hl']%elem_of_cons); [by left|]. right. by exists l'.
Qed.

Lemma source_runs_elem {E} (rows : list (Row E)) s :
  s ∈ (source_runs rows).*1 ↔ s ∈ r_source <$> rows.
Proof.
  pose proof (source_runs_uniform rows) as Hall.
  pose proof (source_runs_concat rows) as Hcat.
  rewrite Forall_forall in Hall. split.
  - intros ([s' run]&->&Hin)%list_elem_of_fmap.
    destruct (Hall _ Hin) as [Hne Hrun]. cbn [fst snd] in *.
    destruct run as [|r run]; [done|].
    apply Forall_cons in Hrun as [<- _].
    apply list_elem_of_fmap_2. rewrite <- Hcat.
    apply elem_of_concat. exists (r :: run). split; [by left|].
    by apply (list_elem_of_fmap_2 snd) in Hin.
  - intros (r&->&Hin)%list_elem_of_fmap. rewrite <- Hcat in Hin.
    apply elem_of_concat in Hin as (run&Hr&Hrun).
    apply list_elem_of_fmap in Hrun as ([s' run']&->&Hsec).
    destruct (Hall _ Hsec) as [_ Hsrc]. cbn [fst snd] in *.
    rewrite Forall_forall in Hsrc. rewrite (Hsrc r Hr).
    by apply (list_elem_of_fmap_2 fst) in Hsec.
Qed.

(** The sections of a table read in the order of the two digests. *)
Lemma sections_by_source {E} (conn : list (Row E)) :
  let rows := order_by by_source_then_date conn in
  Sorted (λ s t, cmp_text s t = Lt) (source_runs rows).*1 ∧
  NoDup (source_runs rows).*1 ∧
  (∀ s, s ∈ (source_runs rows).*1 ↔ s ∈ r_source <$> conn) ∧
  Forall (λ sec, sec.2 = filter (λ r, r_source r = sec.1) rows)
    (source_runs rows).
Proof.
  cbn zeta. set (rows := order_by by_source_then_date conn).
  assert (Sorted (λ s t, cmp_text s t = Lt) (source_runs rows).*1) as Hsorted.
  { apply source_runs_sorted, by_source_then_date_sorted. }
  assert (NoDup (source_runs rows).*1) as Hnd by by apply sorted_lt_NoDup.
  split_and!; [done|done| |].
  - intros s. rewrite source_runs_elem. unfold rows.
    by rewrite order_by_Permutation.
  - pose proof (runs_filter (source_runs rows) (source_runs_uniform rows) Hnd)
      as Hfilter.
    by rewrite source_runs_concat in Hfilter.
Qed.

(** X22.  The HTML digest and the plain-text digest are a fixed head, one
    section for each source, and a fixed foot.  The sections come in the
    ascending order of their sources, no source has two, and the section
    of a source holds all rows of this source (and no other), the latest
    first.  The plain-text digest leaves out the blank line that would end
    its last section. *)
Theorem digests_one_section_per_source {E} (now : string) :
  ∃ html_head html_foot text_head text_foot : list string,
  ∀ conn : list (Row E),
    let rows := order_by by_source_then_date conn in
    let sections := source_runs rows in
    generate_html_email now conn =
      Py.join Py.nl
        (html_head ++ concat (html_email_section <$> sections) ++ html_foot) ∧
    generate_plain_text_email now conn =
      Py.join Py.nl
        (text_head ++ removelast (concat (plain_text_section <$> sections)) ++
         text_foot) ∧
    Sorted (λ s t, cmp_text s t = Lt) sections.*1 ∧
    NoDup sections.*1 ∧
    (∀ source, source ∈ sections.*1 ↔ source ∈ r_source <$> conn) ∧
    Forall (λ section,
              section.2 = filter (λ r, r_source r = section.1) rows)
      sections.
Proof.
  eexists _, _, _, _. intros conn. cbn zeta.
  split_and!; [| |apply sections_by_source..].
  - unfold generate_html_email. cbv zeta.
    change (order_by _ conn) with (order_by by_source_then_date conn).
    match goal with
    | |- context [foldl html_email_step (?head, None) ?rows] =>
        pose proof (foldl_sections
                      (λ source, ["<h2>" +:+ source +:+ "</h2>"]) []
                      html_email_entry html_email_step html_email_step_spec
                      rows head) as Hfold;
        destruct (foldl html_email_step (head, None) rows) as [lines cs]
    end.
    cbn [fst] in Hfold.
    assert (lines = lines ++
              (if decide (order_by by_source_then_date conn ≠ [])
               then [] else [])) as Hlines
      by (case_decide; by rewrite app_nil_r).
    rewrite Hlines, Hfold, <- app_assoc. reflexivity.
  - unfold generate_plain_text_email. cbv zeta.
    change (order_by _ conn) with (order_by by_source_then_date conn).
    match goal with
    | |- context [foldl plain_text_step (?head, None) ?rows] =>
        pose proof (foldl_sections
                      (λ source, [Py.mul "-" 80; "SOURCE: " +:+ source;
                                  Py.mul "-" 80; ""])
                      [""]
                      (λ row, plain_text_entry row ++
                              wrap_summary "   " 80 (r_summary row) ++ [""])
                      plain_text_step plain_text_step_spec
                      rows head) as Hfold;
        destruct (foldl plain_text_step (head, None) rows) as [lines cs]
    end.
    cbn [fst] in Hfold.
    fold (@plain_text_section E) in Hfold.
    case_decide as Hrows.
    + apply (f_equal (@removelast string)) in Hfold.
      rewrite removelast_last in Hfold. rewrite Hfold.
      rewrite removelast_app; last first.
      { destruct (order_by by_source_then_date conn) as [|row rest]; [done|].
        by destruct (source_runs_cons row rest) as (run&runs&->&_). }
      rewrite <- app_assoc. reflexivity.
    + rewrite Hrows in *. cbn in Hfold.
      rewrite app_nil_r in Hfold. subst lines. reflexivity.
Qed.

(** X23.  The dashboard is a fixed head, one table for each run of
    consecutive rows with the same source, and a fixed foot; the rows are
    read latest first, whatever their source.  Neighbouring tables have
    different sources, but the docstring's [grouped by source] holds for
    runs only: a source whose rows are separated, in the order of the
    dates, by a row of another source has two headings and two tables. *)
Theorem dashboard_one_table_per_run (now : string) :
  ∃ head foot : list string,
  (∀ conn : list (Row unit),
     let rows := order_by by_date_desc conn in
     let sections := source_runs rows in
     generate_dashboard now conn =
       Py.join Py.nl
         (head ++ concat (dashboard_section <$> sections) ++ foot) ∧
     concat sections.*2 = rows ∧
     Forall (λ section,
               section.2 ≠ [] ∧
               Forall (λ r, r_source r = section.1) section.2) sections ∧
     Sorted (λ s t, s ≠ t) sections.*1) ∧
  ∃ conn : list (Row unit),
    unique_keys conn ∧
    ¬ NoDup (source_runs (order_by by_date_desc conn)).*1.
Proof.
  eexists _, _. split.
  - intros conn. cbn zeta.
    split_and!;
      [|apply source_runs_concat|apply source_runs_uniform
       |apply source_runs_adjacent].
    unfold generate_dashboard. cbv zeta.
    change (order_by _ conn) with (order_by by_date_desc conn).
    match goal with
    | |- context [foldl dashboard_step (?head, None) ?rows] =>
        pose proof (foldl_sections
                      (λ source,
                         ["<h2>" +:+ source +:+ "</h2>";
                          "<table><thead><tr><th>Date</th><th>Title</th>" +:+
                          "<th>Description</th></tr></thead><tbody>"])
                      ["</tbody></table>"]
                      (λ row, [dashboard_entry row])
                      dashboard_step dashboard_step_spec rows head) as Hfold;
        destruct (foldl dashboard_step (head, None) rows) as [lines cs]
    end.
    cbn [fst] in Hfold. fold (@dashboard_section unit) in Hfold.
    assert ((if decide (order_by by_date_desc conn ≠ [])
             then lines ++ ["</tbody></table>"] else lines) =
            lines ++ (if decide (order_by by_date_desc conn ≠ [])
                      then ["</tbody></table>"] else [])) as ->
      by (case_decide; by rewrite ?app_nil_r).
    rewrite Hfold, <- app_assoc. reflexivity.
  - exists (Basic.store_updates []
              [sample_eu; sample_ifrs; sample_eu_later]).1.
    split.
    + unfold unique_keys. apply (bool_decide_unpack (NoDup _)). by vm_compute.
    + intros Hnd. vm_compute in Hnd.
      apply NoDup_cons in Hnd as [Hnin _]. apply Hnin.
      apply elem_of_cons. right. apply elem_of_cons. by left.
Qed.
